(** * led_strip: an RMT driven LED strip driver for ESP-IDF

    A shallow embedding of [src/led_strip.c] and [include/led_strip.h],
    and the properties of its timing table, its byte-to-pulse translator,
    its pixel buffer and its flush state machine.

    Conventions.
    - C integers are [Z]; where the source can wrap, the wrap is written out.
    - A pointer to a [led_strip_t] is an address of type [N]; [0] is [NULL].
      The heap maps live addresses to the structs they hold.
    - Arrays are lists; a load or store outside the array, and a dereference
      of [NULL] or of a freed address, is a [Fault]: the C program has no
      defined behaviour there.
    - The ESP-IDF (RMT driver, allocator, clock constants) is not part of
      the repository: it is the class [EspIdf], and every call to the RMT
      driver is recorded in the world. *)

From Stdlib Require Import ZArith Zdivisibility Lia Bool List.
From Stdlib Require Import Floats.SpecFloat.
From stdpp Require Import base option list gmap.

Local Open Scope Z_scope.

(* ===================================================================== *)
(** * Outcomes of running C code *)
(* ===================================================================== *)

Inductive fault : Set :=
| NullDeref      (* [handle->field] with [handle == NULL] *)
| DanglingDeref  (* [handle->field] where [handle] is not a live object *)
| OutOfBounds.   (* an array access outside the array *)

Inductive outcome (A : Type) : Type :=
| Done (a : A)
| Fault (f : fault).
Arguments Done {A} a.
Arguments Fault {A} f.

#[global] Instance outcome_ret : MRet outcome := fun A a => Done a.
#[global] Instance outcome_bind : MBind outcome := fun A B k m =>
  match m with
  | Done a => k a
  | Fault f => Fault f
  end.

(** [arr[i]] and [arr[i] = x] on an array of [length arr] elements. *)
Definition load {A} (arr : list A) (i : Z) : outcome A :=
  if (0 <=? i) && (i <? Z.of_nat (length arr)) then
    match arr !! Z.to_nat i with
    | Some x => Done x
    | None => Fault OutOfBounds
    end
  else Fault OutOfBounds.

Definition store {A} (arr : list A) (i : Z) (x : A) : outcome (list A) :=
  if (0 <=? i) && (i <? Z.of_nat (length arr)) then Done (<[Z.to_nat i := x]> arr)
  else Fault OutOfBounds.

(** [for (i = start; i < start + n; i++) body], for a loop whose bound the
    body does not change: [n] iterations, the counter going up by one. *)
Fixpoint for_upto {St} (n : nat) (i : Z) (body : Z → St → outcome St) (s : St) : outcome St :=
  match n with
  | O => Done s
  | S n' => s' ← body i s; for_upto n' (i + 1) body s'
  end.

(* ===================================================================== *)
(** * ESP-IDF error codes ([esp_err.h]) *)
(* ===================================================================== *)

Definition esp_err_t := Z.
Definition ESP_OK : esp_err_t := 0.
Definition ESP_FAIL : esp_err_t := -1.
Definition ESP_ERR_NO_MEM : esp_err_t := 0x101.
Definition ESP_ERR_INVALID_ARG : esp_err_t := 0x102.
Definition ESP_ERR_INVALID_STATE : esp_err_t := 0x103.
Definition ESP_ERR_INVALID_SIZE : esp_err_t := 0x104.
Definition ESP_ERR_NOT_FOUND : esp_err_t := 0x105.
Definition ESP_ERR_NOT_SUPPORTED : esp_err_t := 0x106.
Definition ESP_ERR_TIMEOUT : esp_err_t := 0x107.
Definition ESP_ERR_NOT_FINISHED : esp_err_t := 0x10C.

(* ===================================================================== *)
(** * Types of [led_strip.h] *)
(* ===================================================================== *)

Definition led_strip_handle_t := N.
Definition NULL : N := 0%N.

(** [enum led_strip_type]; a C enum is an [int], so any value can arrive. *)
Definition LED_STRIP_TYPE_SK6822 : Z := 0x01.
Definition LED_STRIP_TYPE_WS281x : Z := 0x03.

(** [enum led_strip_color_order] *)
Definition LED_STRIP_COLOR_ORDER_RGBW : Z := 0.
Definition LED_STRIP_COLOR_ORDER_GRBW : Z := 1.

Record led_strip_color_t := {
  r : Z;
  g : Z;
  b : Z;
  w : Z;
}.

(** Five 15 bit fields. *)
Record led_strip_manual_timing_t := {
  low_on : Z;
  low_off : Z;
  high_on : Z;
  high_off : Z;
  reset_time : Z;
}.

(** [struct led_strip_timing_config]: the union together with the flag
    [use_manual_timing] that says which member is in use. *)
Inductive led_strip_timing_config_t :=
| timing_type (type : Z)                            (* [use_manual_timing == false] *)
| timing_manual (manual : led_strip_manual_timing_t). (* [use_manual_timing == true] *)

Record led_strip_config_t := {
  timing_config : led_strip_timing_config_t;
  cfg_color_order : Z;
  gpio_output_num : Z;
  cfg_led_count : Z;
  cfg_enable_w_channel : bool;
}.

(** [struct led_strip] of [led_strip.c]. [pixel_colors] points to a buffer
    the strip owns alone: the record holds the buffer's bytes. *)
Record led_strip_t := {
  channel : Z;
  led_timing : led_strip_manual_timing_t;
  color_order : Z;
  pixel_colors : list Z;
  led_count : Z;
  enable_w_channel : bool;
  has_flushed : bool;
}.

(* ===================================================================== *)
(** * The world: heap, channel table and the RMT driver *)
(* ===================================================================== *)

(** [rmt_item32_t] of [driver/rmt.h]: two 15 bit durations with their levels. *)
Record rmt_item32_t := {
  duration0 : Z;
  level0 : Z;
  duration1 : Z;
  level1 : Z;
}.

(** The calls the driver makes into the RMT driver of ESP-IDF. *)
Inductive rmt_call :=
| rmt_config (gpio_num : Z) (chan : Z) (clk_div : Z)
| rmt_driver_install (chan : Z) (rx_buf_size : Z) (intr_alloc_flags : Z)
| rmt_translator_init (chan : Z)
| rmt_translator_set_context (chan : Z) (context : led_strip_handle_t)
| rmt_set_tx_loop_mode (chan : Z) (loop_en : bool)
| rmt_set_tx_intr_en (chan : Z) (en : bool)
| rmt_driver_uninstall (chan : Z)
| rmt_write_sample (chan : Z) (src : list Z) (src_size : Z) (wait_tx_done : bool)
| rmt_wait_tx_done (chan : Z) (wait_time : Z).

Record world := {
  heap : gmap N led_strip_t;      (* the live [led_strip_t] objects *)
  rmt_channel_used : list bool;   (* the static table of [led_strip.c] *)
  rmt_calls : list rmt_call;      (* calls made to the RMT driver, latest first *)
}.

(** What the code takes from ESP-IDF. *)
Class EspIdf := {
  (** [APB_CLK_FREQ] of [soc/soc.h], in Hz *)
  APB_CLK_FREQ : Z;
  (** [RMT_CHANNEL_MAX] of [driver/rmt.h] *)
  RMT_CHANNEL_MAX : Z;
  (** [sizeof(led_strip_t)] *)
  sizeof_led_strip_t : Z;
  (** the status the RMT driver answers to a call, after the calls before it *)
  rmt_driver : list rmt_call → rmt_call → esp_err_t;
  (** [heap_caps_calloc(n, size, caps)]: the address of the new block, or [NULL] *)
  heap_caps_calloc : world → Z → Z → N;
}.

Definition portMAX_DELAY : Z := 0xffffffff.
Definition RMT_CHANNEL_0 : Z := 0.

(* ===================================================================== *)
(** * Macros of [led_strip.h]: nanoseconds to ticks *)
(* ===================================================================== *)

(** [LED_STRIP_NS_PER_SECOND] is the [double] constant [1e9], so the macros
    compute in IEEE 754 binary64: [SpecFloat] with 53 bits of precision. *)
Definition prec : Z := 53.
Definition emax : Z := 1024.
Definition double := spec_float.

Definition double_of_int (z : Z) : double := binary_normalize prec emax z 0 false.
Definition dadd : double → double → double := SFadd prec emax.
Definition dsub : double → double → double := SFsub prec emax.
Definition dmul : double → double → double := SFmul prec emax.
Definition ddiv : double → double → double := SFdiv prec emax.

(** Conversion of a [double] to an integer type drops the fraction. (C
    leaves the conversion of a NaN, of an infinity and of a value outside
    the integer type undefined; the tables stay far from these.) *)
Definition double_trunc (f : double) : Z :=
  match f with
  | S754_finite s m e =>
      let v := if 0 <=? e then Z.pos m * 2 ^ e else Z.pos m / 2 ^ (- e) in
      if s then - v else v
  | _ => 0
  end.

(** Initialising a 15 bit field of a [led_strip_manual_timing_t]. *)
Definition to_uint15 (f : double) : Z := double_trunc f mod 2 ^ 15.

Section Macros.
Context `{EspIdf}.

Definition LED_STRIP_CLOCK_DIVIDER : Z := 8.
Definition LED_STRIP_NS_PER_SECOND : double := double_of_int 1000000000.
Definition LED_STRIP_NS_PER_TICK : double :=
  ddiv LED_STRIP_NS_PER_SECOND (double_of_int (APB_CLK_FREQ / LED_STRIP_CLOCK_DIVIDER)).

Definition LED_STRIP_ROUND_UP (x : Z) (align : double) : double :=
  dmul (ddiv (dsub (dadd (double_of_int x) align) (double_of_int 1)) align) align.
Definition LED_STRIP_NS_AS_TICKS (x : Z) : double :=
  ddiv (LED_STRIP_ROUND_UP x LED_STRIP_NS_PER_TICK) LED_STRIP_NS_PER_TICK.
Definition LED_STRIP_US_AS_TICKS (x : Z) : double :=
  LED_STRIP_NS_AS_TICKS (x * 1000).

(** The array [timing[]] of [map_timing], read at [LED_STRIP_TYPE_SK6822]
    and at [LED_STRIP_TYPE_WS281x]. *)
Definition timing_SK6822 : led_strip_manual_timing_t := {|
  low_on := to_uint15 (LED_STRIP_NS_AS_TICKS 300);
  low_off := to_uint15 (LED_STRIP_NS_AS_TICKS 900);
  high_on := to_uint15 (LED_STRIP_NS_AS_TICKS 600);
  high_off := to_uint15 (LED_STRIP_NS_AS_TICKS 600);
  reset_time := to_uint15 (LED_STRIP_US_AS_TICKS 80);
|}.
Definition timing_WS281x : led_strip_manual_timing_t := {|
  low_on := to_uint15 (LED_STRIP_NS_AS_TICKS 350);
  low_off := to_uint15 (LED_STRIP_NS_AS_TICKS 900);
  high_on := to_uint15 (LED_STRIP_NS_AS_TICKS 900);
  high_off := to_uint15 (LED_STRIP_NS_AS_TICKS 350);
  reset_time := to_uint15 (LED_STRIP_US_AS_TICKS 50);
|}.

Definition map_timing (config : led_strip_timing_config_t) : led_strip_manual_timing_t :=
  match config with
  | timing_manual manual => manual
  | timing_type type =>
      if type =? LED_STRIP_TYPE_SK6822 then timing_SK6822
      else if type =? LED_STRIP_TYPE_WS281x then timing_WS281x
      else timing_SK6822
  end.
End Macros.

(* ===================================================================== *)
(** * The symbol translator *)
(* ===================================================================== *)

(** [size_t] has 32 bits on the targets of ESP-IDF. *)
Definition SIZE_WIDTH : Z := 32.
Definition size_t_wrap (z : Z) : Z := z mod 2 ^ SIZE_WIDTH.

(** [#define BIT_SET(val, bit) (((val) & (1UL << (bit))) == (1UL << (bit)))] *)
Definition BIT_SET (val bit : Z) : bool :=
  Z.land val (Z.shiftl 1 bit) =? Z.shiftl 1 bit.

(** The body of the loop of [translate_uint8_to_rmt_samples]: the four
    fields of [items[i]] are all assigned. [items] is the index in [dest]
    the pointer [items] points to. The durations go from a 15 bit field to
    a 15 bit field, so no bit is lost. *)
Definition translate_bit (items : Z) (data : Z) (timing : led_strip_manual_timing_t)
    (i : Z) (dest : list rmt_item32_t) : outcome (list rmt_item32_t) :=
  let b_index := 7 - i in (* MSB first *)
  if BIT_SET data b_index then
    store dest (items + i)
      {| duration0 := high_on timing; level0 := 1;
         duration1 := high_off timing; level1 := 0 |}
  else
    store dest (items + i)
      {| duration0 := low_on timing; level0 := 1;
         duration1 := low_off timing; level1 := 0 |}.

Definition translate_uint8_to_rmt_samples (dest : list rmt_item32_t) (items : Z)
    (data : Z) (timing : led_strip_manual_timing_t) : outcome (list rmt_item32_t) :=
  for_upto 8 0 (translate_bit items data timing) dest.

(** [handle->field]: the struct a handle points to. *)
Definition deref (wd : world) (handle : led_strip_handle_t) : outcome led_strip_t :=
  if (handle =? NULL)%N then Fault NullDeref
  else match heap wd !! handle with
       | Some strip => Done strip
       | None => Fault DanglingDeref
       end.

(** The state of the loop of [rmt_adapter]: the output buffer and
    [rmt_item_offset]. *)
Definition rmt_adapter_body (wd : world) (handle : led_strip_handle_t) (raw_data : list Z)
    (i : Z) (st : list rmt_item32_t * Z) : outcome (list rmt_item32_t * Z) :=
  let '(dest, rmt_item_offset) := st in
  byte ← load raw_data i;
  strip ← deref wd handle;
  dest' ← translate_uint8_to_rmt_samples dest rmt_item_offset byte (led_timing strip);
  Done (dest', size_t_wrap (rmt_item_offset + 8)).

(** [rmt_adapter(src, dest, src_size, wanted_num, &translated_size, &item_num)].
    [get_context] is what [rmt_translator_get_context] answers: its status
    and the [user_data] it stores. The result is the output buffer,
    [*translated_size] and [*item_num]. *)
Definition rmt_adapter (wd : world) (get_context : esp_err_t * led_strip_handle_t)
    (src : list Z) (dest : list rmt_item32_t) (src_size wanted_num : Z)
  : outcome (list rmt_item32_t * Z * Z) :=
  let translated_size := 0 in
  let item_num := 0 in
  let raw_data := src in
  let '(err, user_data) := get_context in
  if negb (err =? ESP_OK) then Done (dest, translated_size, item_num)
  else if (user_data =? NULL)%N then Done (dest, translated_size, item_num)
  else
    let handle := user_data in
    if wanted_num <? 8 then Done (dest, translated_size, item_num)
    else
      let convertable_bytes := wanted_num / 8 in
      let convertable_bytes :=
        if convertable_bytes >? src_size then src_size else convertable_bytes in
      '(dest', rmt_item_offset) ←
        for_upto (Z.to_nat convertable_bytes) 0
          (rmt_adapter_body wd handle raw_data) (dest, 0);
      Done (dest', convertable_bytes, rmt_item_offset).

(* ===================================================================== *)
(** * The pixel buffer *)
(* ===================================================================== *)

(** [#define CALC_COLOR_SIZE(handle) (handle->enable_w_channel ? 4 : 3)],
    used on a strip and on a configuration. *)
Definition CALC_COLOR_SIZE (enable_w : bool) : Z := if enable_w then 4 else 3.

Definition convert_from_rgbw_to_rgb (color : led_strip_color_t) : led_strip_color_t :=
  {| r := r color; g := g color; b := b color; w := 0x00 |}.

Definition convert_from_rgb_to_rgbw (color : led_strip_color_t) : led_strip_color_t :=
  {| r := r color; g := g color; b := b color; w := 0x00 |}.

(** [handle->pixel_colors[..] = ..] leaves the other fields as they are. *)
Definition with_pixel_colors (strip : led_strip_t) (buf : list Z) : led_strip_t :=
  {| channel := channel strip; led_timing := led_timing strip;
     color_order := color_order strip; pixel_colors := buf;
     led_count := led_count strip; enable_w_channel := enable_w_channel strip;
     has_flushed := has_flushed strip |}.

(** [handle->has_flushed = ..] *)
Definition with_has_flushed (strip : led_strip_t) (flag : bool) : led_strip_t :=
  {| channel := channel strip; led_timing := led_timing strip;
     color_order := color_order strip; pixel_colors := pixel_colors strip;
     led_count := led_count strip; enable_w_channel := enable_w_channel strip;
     has_flushed := flag |}.

(** The byte offsets [(r_offset, g_offset, b_offset, w_offset)] that the
    [switch] of [set_color_data] picks. *)
Definition color_offsets (order : Z) (offset : Z) : Z * Z * Z * Z :=
  if order =? LED_STRIP_COLOR_ORDER_GRBW then
    (offset + 2, offset, offset + 1, offset + 3)
  else (* case LED_STRIP_COLOR_ORDER_RGBW: default: *)
    (offset, offset + 2, offset + 1, offset + 3).

(** [set_color_data(handle, index, color)], on the struct [handle] points
    to; all its callers have checked [handle] against [NULL]. *)
Definition set_color_data (strip : led_strip_t) (index : Z) (color : led_strip_color_t)
  : outcome led_strip_t :=
  let offset := CALC_COLOR_SIZE (enable_w_channel strip) * index in
  let '(r_offset, g_offset, b_offset, w_offset) := color_offsets (color_order strip) offset in
  buf ← (if enable_w_channel strip then store (pixel_colors strip) w_offset (w color)
         else Done (pixel_colors strip));
  buf ← store buf r_offset (r color);
  buf ← store buf g_offset (g color);
  buf ← store buf b_offset (b color);
  Done (with_pixel_colors strip buf).

(* ===================================================================== *)
(** * The strip controller *)
(* ===================================================================== *)

Definition with_heap (wd : world) (h : gmap N led_strip_t) : world :=
  {| heap := h; rmt_channel_used := rmt_channel_used wd; rmt_calls := rmt_calls wd |}.

Definition with_rmt_channel_used (wd : world) (used : list bool) : world :=
  {| heap := heap wd; rmt_channel_used := used; rmt_calls := rmt_calls wd |}.

(** [*handle = strip] *)
Definition write_strip (wd : world) (handle : led_strip_handle_t) (strip : led_strip_t) : world :=
  with_heap wd (<[handle := strip]> (heap wd)).

(** What [heap_caps_calloc(1, sizeof(led_strip_t), ..)] hands out: zeroes. *)
Definition zeroed_strip : led_strip_t :=
  {| channel := 0;
     led_timing := {| low_on := 0; low_off := 0; high_on := 0; high_off := 0; reset_time := 0 |};
     color_order := 0; pixel_colors := []; led_count := 0;
     enable_w_channel := false; has_flushed := false |}.

Section Controller.
Context `{EspIdf}.

(** A call into the RMT driver: the driver answers, the call is recorded. *)
Definition call_rmt (c : rmt_call) (wd : world) : esp_err_t * world :=
  (rmt_driver (rmt_calls wd) c,
   {| heap := heap wd; rmt_channel_used := rmt_channel_used wd;
      rmt_calls := c :: rmt_calls wd |}).

(** The loop of [find_empty_channel], from index [i], [n] entries to go. *)
Fixpoint find_empty_channel_from (n : nat) (i : Z) (used : list bool) : outcome (esp_err_t * Z) :=
  match n with
  | O => Done (ESP_ERR_NOT_FOUND, RMT_CHANNEL_MAX)
  | S n' =>
      in_use ← load used i;
      if negb in_use then Done (ESP_OK, i)
      else find_empty_channel_from n' (i + 1) used
  end.

(** [find_empty_channel(&channel)] with [channel == RMT_CHANNEL_MAX] before
    the call: the status and [channel] after it. *)
Definition find_empty_channel (wd : world) : outcome (esp_err_t * Z) :=
  find_empty_channel_from (Z.to_nat RMT_CHANNEL_MAX) 0 (rmt_channel_used wd).

Definition mark_channel (flag : bool) (chan : Z) (wd : world) : outcome world :=
  if negb (chan =? RMT_CHANNEL_MAX) then
    used ← store (rmt_channel_used wd) chan flag;
    Done (with_rmt_channel_used wd used)
  else Done wd.
Definition mark_channel_free : Z → world → outcome world := mark_channel false.
Definition mark_channel_used : Z → world → outcome world := mark_channel true.

(** [alloc_led_strip(config)]: the handle ([NULL] when out of memory). *)
Definition alloc_led_strip (config : led_strip_config_t) (wd : world)
  : led_strip_handle_t * world :=
  let handle := heap_caps_calloc wd 1 sizeof_led_strip_t in
  if (handle =? NULL)%N then (NULL, wd)
  else
    let wd1 := write_strip wd handle zeroed_strip in
    let color_cnt :=
      size_t_wrap (cfg_led_count config * CALC_COLOR_SIZE (cfg_enable_w_channel config)) in
    let pixels := heap_caps_calloc wd1 color_cnt 1 in
    if (pixels =? NULL)%N then (NULL, with_heap wd1 (delete handle (heap wd1)))
    else (handle,
          write_strip wd1 handle
            (with_pixel_colors zeroed_strip (replicate (Z.to_nat color_cnt) 0))).

Definition dealloc_led_strip (handle : led_strip_handle_t) (wd : world) : world :=
  if negb (handle =? NULL)%N then with_heap wd (delete handle (heap wd))
  else wd.

(** The error path of [led_strip_install] once a channel is marked. *)
Definition install_rollback (handle : led_strip_handle_t) (chan : Z) (err : esp_err_t)
    (wd : world) : outcome (esp_err_t * option led_strip_handle_t * world) :=
  wd' ← mark_channel_free chan (dealloc_led_strip handle wd);
  Done (err, Some handle, wd').

(** The calls of [led_strip_install] that configure the channel, in the
    order of the source; the first that fails stops the sequence. *)
Definition install_calls (config : led_strip_config_t) (handle : led_strip_handle_t)
    (chan : Z) : list rmt_call :=
  [ rmt_config (gpio_output_num config) chan LED_STRIP_CLOCK_DIVIDER;
    rmt_driver_install chan 0 0;
    rmt_translator_init chan;
    rmt_translator_set_context chan handle;
    rmt_set_tx_loop_mode chan false;
    rmt_set_tx_intr_en RMT_CHANNEL_0 false ].

Fixpoint run_install_calls (calls : list rmt_call) (wd : world) : esp_err_t * world :=
  match calls with
  | [] => (ESP_OK, wd)
  | c :: rest =>
      let '(err, wd') := call_rmt c wd in
      if negb (err =? ESP_OK) then (err, wd') else run_install_calls rest wd'
  end.

(** [led_strip_init_config(config)]: the configuration [config] points to
after the call; nothing happens for [NULL]. *)
Definition led_strip_init_config (config : option led_strip_config_t)
  : option led_strip_config_t :=
  match config with
  | None => None
  | Some _ =>
      Some {| timing_config := timing_type LED_STRIP_TYPE_SK6822;
              cfg_color_order := LED_STRIP_COLOR_ORDER_RGBW;
              gpio_output_num := -1;
              cfg_led_count := 0;
              cfg_enable_w_channel := false |}
  end.

(** [led_strip_install(new_handle, config)]. A pointer argument is [None]
    when it is [NULL]; [new_handle] otherwise holds the handle it points
    to. The result is the status, [new_handle] after the call, and the
    world. *)
Definition led_strip_install (new_handle : option led_strip_handle_t)
    (config : option led_strip_config_t) (wd : world)
  : outcome (esp_err_t * option led_strip_handle_t * world) :=
  match new_handle, config with
  | None, _ | _, None => Done (ESP_ERR_INVALID_ARG, new_handle, wd)
  | Some _, Some config =>
      if cfg_led_count config =? 2 then Done (ESP_ERR_NOT_SUPPORTED, new_handle, wd)
      else
        let '(handle, wd) := alloc_led_strip config wd in
        if (handle =? NULL)%N then Done (ESP_ERR_NO_MEM, new_handle, wd)
        else
          strip ← deref wd handle;
          let wd := write_strip wd handle
            {| channel := channel strip;
               led_timing := map_timing (timing_config config);
               color_order := cfg_color_order config;
               pixel_colors := pixel_colors strip;
               led_count := cfg_led_count config;
               enable_w_channel := cfg_enable_w_channel config;
               has_flushed := false |} in
          '(err, chan) ← find_empty_channel wd;
          if negb (err =? ESP_OK) then
            Done (err, Some handle, dealloc_led_strip handle wd)
          else
            wd ← mark_channel_used chan wd;
            let '(err, wd) := run_install_calls (install_calls config handle chan) wd in
            if negb (err =? ESP_OK) then install_rollback handle chan err wd
            else Done (ESP_OK, Some handle, wd)
  end.

Definition led_strip_free (handle : led_strip_handle_t) (wd : world)
  : outcome (esp_err_t * world) :=
  strip ← deref wd handle;
  let '(err, wd) := call_rmt (rmt_driver_uninstall (channel strip)) wd in
  if negb (err =? ESP_OK) then Done (err, wd)
  else
    strip ← deref wd handle;
    wd ← mark_channel_free (channel strip) wd;
    Done (ESP_OK, dealloc_led_strip handle wd).

(** [led_strip_flush_done(handle, done)]: [done] is [None] for [NULL] and
    holds the pointed-to flag otherwise. The result is the status, the
    flag after the call, and the world. *)
Definition led_strip_flush_done (handle : led_strip_handle_t) (done : option bool)
    (wd : world) : outcome (esp_err_t * option bool * world) :=
  if (handle =? NULL)%N || negb (bool_decide (is_Some done)) then
    Done (ESP_ERR_INVALID_ARG, done, wd)
  else
    strip ← deref wd handle;
    if negb (has_flushed strip) then Done (ESP_OK, Some true, wd)
    else
      let '(err, wd) := call_rmt (rmt_wait_tx_done (channel strip) 0) wd in
      let done := Some (err =? ESP_OK) in
      if negb (err =? ESP_OK) && negb (err =? ESP_ERR_TIMEOUT) then Done (err, done, wd)
      else Done (ESP_OK, done, wd).

(** The part [led_strip_flush] and [led_strip_start_flush] share: all of
    [led_strip_flush], whose last argument to [rmt_write_sample] is
    [wait_tx_done]. *)
Definition flush_with (wait_tx_done : bool) (handle : led_strip_handle_t) (wd : world)
  : outcome (esp_err_t * world) :=
  let ready := Some false in
  '(err, ready, wd) ← led_strip_flush_done handle ready wd;
  if negb (err =? ESP_OK) then Done (err, wd)
  else if negb (bool_decide (ready = Some true)) then Done (ESP_ERR_NOT_FINISHED, wd)
  else
    strip ← deref wd handle;
    let data_count :=
      size_t_wrap (led_count strip * CALC_COLOR_SIZE (enable_w_channel strip)) in
    let '(err, wd) :=
      call_rmt (rmt_write_sample (channel strip) (pixel_colors strip) data_count wait_tx_done)
        wd in
    if negb (err =? ESP_OK) then Done (err, wd)
    else
      strip ← deref wd handle;
      Done (ESP_OK, write_strip wd handle (with_has_flushed strip true)).

Definition led_strip_flush (handle : led_strip_handle_t) (wd : world)
  : outcome (esp_err_t * world) :=
  flush_with true handle wd.

Definition led_strip_start_flush (handle : led_strip_handle_t) (wd : world)
  : outcome (esp_err_t * world) :=
  if (handle =? NULL)%N then Done (ESP_ERR_INVALID_ARG, wd)
  else flush_with false handle wd.

Definition led_strip_wait_for_flush_finish (handle : led_strip_handle_t) (wd : world)
  : outcome (esp_err_t * world) :=
  strip ← deref wd handle;
  let '(err, wd) := call_rmt (rmt_wait_tx_done (channel strip) portMAX_DELAY) wd in
  if negb (err =? ESP_OK) then Done (err, wd)
  else Done (ESP_OK, wd).

Definition led_strip_set_pixel_rgb (handle : led_strip_handle_t) (index : Z)
    (r g b : Z) (wd : world) : outcome (esp_err_t * world) :=
  if (handle =? NULL)%N then Done (ESP_ERR_INVALID_ARG, wd)
  else
    strip ← deref wd handle;
    if index >=? led_count strip then Done (ESP_ERR_INVALID_SIZE, wd)
    else
      let color := {| r := r; g := g; b := b; w := 0x00 |} in
      let color := if enable_w_channel strip then convert_from_rgb_to_rgbw color else color in
      strip ← set_color_data strip index color;
      Done (ESP_OK, write_strip wd handle strip).

Definition led_strip_set_pixel_rgbw (handle : led_strip_handle_t) (index : Z)
    (r g b w : Z) (wd : world) : outcome (esp_err_t * world) :=
  if (handle =? NULL)%N then Done (ESP_ERR_INVALID_ARG, wd)
  else
    strip ← deref wd handle;
    if index >=? led_count strip then Done (ESP_ERR_INVALID_SIZE, wd)
    else
      let color := {| r := r; g := g; b := b; w := w |} in
      let color :=
        if negb (enable_w_channel strip) then convert_from_rgbw_to_rgb color else color in
      strip ← set_color_data strip index color;
      Done (ESP_OK, write_strip wd handle strip).

(** The loop of the fill functions: [led_count] is read on every round,
    and [set_color_data] does not change it. *)
Definition fill_loop (strip : led_strip_t) (color : led_strip_color_t) : outcome led_strip_t :=
  for_upto (Z.to_nat (led_count strip)) 0 (fun i strip => set_color_data strip i color) strip.

Definition led_strip_fill_rgb (handle : led_strip_handle_t) (r g b : Z) (wd : world)
  : outcome (esp_err_t * world) :=
  if (handle =? NULL)%N then Done (ESP_ERR_INVALID_ARG, wd)
  else
    strip ← deref wd handle;
    let color := {| r := r; g := g; b := b; w := 0x00 |} in
    let color := if enable_w_channel strip then convert_from_rgb_to_rgbw color else color in
    strip ← fill_loop strip color;
    Done (ESP_OK, write_strip wd handle strip).

Definition led_strip_fill_rgbw (handle : led_strip_handle_t) (r g b w : Z) (wd : world)
  : outcome (esp_err_t * world) :=
  if (handle =? NULL)%N then Done (ESP_ERR_INVALID_ARG, wd)
  else
    strip ← deref wd handle;
    let color := {| r := r; g := g; b := b; w := w |} in
    let color :=
      if negb (enable_w_channel strip) then convert_from_rgbw_to_rgb color else color in
    strip ← fill_loop strip color;
    Done (ESP_OK, write_strip wd handle strip).
End Controller.

(* ===================================================================== *)
(** * The words of the specification *)
(* ===================================================================== *)

(** [ceil(x / p)] for a positive [p]. *)
Definition ceil_div (x p : Z) : Z := - ((- x) / p).

(** The tick period in nanoseconds: a second over the tick frequency, the
    APB clock divided by the fixed divider. *)
Definition tick_period_ns `{EspIdf} : Z :=
  1000000000 / (APB_CLK_FREQ / LED_STRIP_CLOCK_DIVIDER).

(** The published table of a strip type, in ticks of [p] nanoseconds. *)
Definition published_SK6822 (p : Z) : led_strip_manual_timing_t :=
  {| low_on := ceil_div 300 p; low_off := ceil_div 900 p;
     high_on := ceil_div 600 p; high_off := ceil_div 600 p;
     reset_time := ceil_div 80000 p |}.
Definition published_WS281x (p : Z) : led_strip_manual_timing_t :=
  {| low_on := ceil_div 350 p; low_off := ceil_div 900 p;
     high_on := ceil_div 900 p; high_off := ceil_div 350 p;
     reset_time := ceil_div 50000 p |}.

(** The symbol of one bit: high for [duration0], then low for [duration1]. *)
Definition symbol_of_bit (timing : led_strip_manual_timing_t) (bit : bool) : rmt_item32_t :=
  if bit then {| duration0 := high_on timing; level0 := 1;
                 duration1 := high_off timing; level1 := 0 |}
  else {| duration0 := low_on timing; level0 := 1;
          duration1 := low_off timing; level1 := 0 |}.

(** The bits of a byte, most significant first. *)
Definition bits_msb_first (data : Z) : list bool :=
  map (fun i => Z.testbit data (7 - Z.of_nat i)) (seq 0 8).

(** The tick frequencies with a whole number of nanoseconds per tick: the
    divisors of [10^9]. *)
Definition whole_ns_frequencies : list Z :=
  flat_map (fun a => map (fun b => 2 ^ Z.of_nat a * 5 ^ Z.of_nat b) (seq 0 10)) (seq 0 10).

(** [LED_STRIP_NS_PER_TICK] and [LED_STRIP_NS_AS_TICKS] (stored in a 15 bit
    field) as functions of the tick frequency [f]. *)
Definition ns_per_tick_at (f : Z) : double :=
  ddiv LED_STRIP_NS_PER_SECOND (double_of_int f).
Definition ns_as_ticks_at (f x : Z) : Z :=
  to_uint15 (ddiv (LED_STRIP_ROUND_UP x (ns_per_tick_at f)) (ns_per_tick_at f)).

(** The durations the two tables use, in nanoseconds. *)
Definition table_durations : list Z := [300; 350; 600; 900; 50000; 80000].

(** At tick frequency [f], with a period of at least 3 ns, the macro gives
    the ceiling for each duration of the tables. *)
Definition ticks_are_ceilings (f : Z) : bool :=
  let p := 1000000000 / f in
  if 3 <=? p then forallb (fun x => ns_as_ticks_at f x =? ceil_div x p) table_durations
  else true.

(** The symbols of a byte: [bits_msb_first] through [symbol_of_bit]. *)
Definition symbols_of_byte (timing : led_strip_manual_timing_t) (data : Z) : list rmt_item32_t :=
  map (symbol_of_bit timing) (bits_msb_first data).

(** The bit order example as the specification words it: the byte
    [0b10110000] gives the symbols high, high, low, high, high, low, low,
    low. *)
Definition bit_order_example_as_worded (timing : led_strip_manual_timing_t)
    (dest : list rmt_item32_t) : Prop :=
  translate_uint8_to_rmt_samples dest 0 0xB0 timing
  = Done (map (symbol_of_bit timing)
            [true; true; false; true; true; false; false; false]).

(** The bytes of one pixel in buffer order: the first component of the
    colour order, then the third, then the second, then [w] when the strip
    has a W channel. *)
Definition pixel_bytes (strip : led_strip_t) (color : led_strip_color_t) : list Z :=
  let first_three :=
    if color_order strip =? LED_STRIP_COLOR_ORDER_GRBW
    then [g color; b color; r color]
    else [r color; b color; g color] in
  if enable_w_channel strip then first_three ++ [w color] else first_three.

(** The buffer of a strip holds [CALC_COLOR_SIZE] bytes for each pixel. *)
Definition buffer_sized (strip : led_strip_t) : Prop :=
  Z.of_nat (length (pixel_colors strip))
  = led_count strip * CALC_COLOR_SIZE (enable_w_channel strip).

(** The layout of a pixel as the specification words it for GRBW: against
    RGBW, r and b trade places, so r lands at [i*4+1] and b at [i*4+0]. *)
Definition grbw_layout_as_worded (strip : led_strip_t) (index : Z) (color : led_strip_color_t)
  : Prop :=
  ∃ strip',
    set_color_data strip index color = Done strip'
    ∧ load (pixel_colors strip') (index * 4 + 1) = Done (r color)
    ∧ load (pixel_colors strip') (index * 4 + 0) = Done (b color).

(** The operations on a strip that start no transmission and free nothing. *)
Inductive strip_op :=
| op_set_pixel_rgb (index red green blue : Z)
| op_set_pixel_rgbw (index red green blue white : Z)
| op_fill_rgb (red green blue : Z)
| op_fill_rgbw (red green blue white : Z)
| op_flush_done
| op_wait_for_flush_finish.

(** One operation on [handle]; its status is dropped, the world goes on. *)
Definition run_op `{EspIdf} (handle : led_strip_handle_t) (op : strip_op) (wd : world)
  : outcome world :=
  match op with
  | op_set_pixel_rgb index red green blue =>
      '(_, wd') ← led_strip_set_pixel_rgb handle index red green blue wd; Done wd'
  | op_set_pixel_rgbw index red green blue white =>
      '(_, wd') ← led_strip_set_pixel_rgbw handle index red green blue white wd; Done wd'
  | op_fill_rgb red green blue =>
      '(_, wd') ← led_strip_fill_rgb handle red green blue wd; Done wd'
  | op_fill_rgbw red green blue white =>
      '(_, wd') ← led_strip_fill_rgbw handle red green blue white wd; Done wd'
  | op_flush_done =>
      '(_, _, wd') ← led_strip_flush_done handle (Some false) wd; Done wd'
  | op_wait_for_flush_finish =>
      '(_, wd') ← led_strip_wait_for_flush_finish handle wd; Done wd'
  end.

Fixpoint run_ops `{EspIdf} (handle : led_strip_handle_t) (ops : list strip_op) (wd : world)
  : outcome world :=
  match ops with
  | [] => Done wd
  | op :: rest => wd' ← run_op handle op wd; run_ops handle rest wd'
  end.

(** [handle] is a live strip whose [has_flushed] is [flag]. *)
Definition flush_flag (handle : led_strip_handle_t) (wd : world) (flag : bool) : Prop :=
  handle ≠ NULL ∧ ∃ strip, heap wd !! handle = Some strip ∧ has_flushed strip = flag.

(** The world after one call to the RMT driver. *)
Definition after_call (c : rmt_call) (wd : world) : world :=
  {| heap := heap wd; rmt_channel_used := rmt_channel_used wd;
     rmt_calls := c :: rmt_calls wd |}.

(* ===================================================================== *)
(** * A concrete platform: an ESP32 whose transmissions never finish *)
(* ===================================================================== *)

Definition is_write_sample (c : rmt_call) : bool :=
  match c with
  | rmt_write_sample _ _ _ _ => true
  | _ => false
  end.

(** APB clock of 80 MHz, eight channels; the allocator hands out one
    address for structs and succeeds for buffers; the RMT driver accepts
    every call, and once samples have been written a poll with no wait
    finds the transmission still running. *)
Definition esp32_busy : EspIdf := {|
  APB_CLK_FREQ := 80 * 1000000;
  RMT_CHANNEL_MAX := 8;
  sizeof_led_strip_t := 24;
  rmt_driver := fun calls c =>
    match c with
    | rmt_wait_tx_done _ 0 => if existsb is_write_sample calls then ESP_ERR_TIMEOUT else ESP_OK
    | _ => ESP_OK
    end;
  heap_caps_calloc := fun _ _ size => if size =? 1 then 0x3ffb2000%N else 0x3ffb1000%N;
|}.

(** The world before any call: no strip, no channel in use. *)
Definition boot_world : world :=
  {| heap := ∅; rmt_channel_used := replicate 8 false; rmt_calls := [] |}.

(** The SK6822 table in ticks of 100 ns. *)
Definition SK6822_at_100ns : led_strip_manual_timing_t :=
  {| low_on := 3; low_off := 9; high_on := 6; high_off := 6; reset_time := 800 |}.

(** An output buffer of eight symbols, not yet written. *)
Definition blank_items : list rmt_item32_t :=
  replicate 8 {| duration0 := 0; level0 := 0; duration1 := 0; level1 := 0 |}.

(** A GRBW strip of two pixels with a W channel. *)
Definition grbw_strip : led_strip_t :=
  {| channel := 0; led_timing := SK6822_at_100ns;
     color_order := LED_STRIP_COLOR_ORDER_GRBW;
     pixel_colors := replicate 8 0; led_count := 2;
     enable_w_channel := true; has_flushed := false |}.

(** A strip of five pixels without W channel, in RGBW order, as
    [led_strip_install] leaves it, and a world that holds it. *)
Definition rgb_strip_5 : led_strip_t :=
  {| channel := 0; led_timing := SK6822_at_100ns;
     color_order := LED_STRIP_COLOR_ORDER_RGBW;
     pixel_colors := replicate 15 0; led_count := 5;
     enable_w_channel := false; has_flushed := false |}.

Definition rgb_world_5 : world :=
  {| heap := {[ 1%N := rgb_strip_5 ]};
     rmt_channel_used := true :: replicate 7 false; rmt_calls := [] |}.

(** The defaults of [led_strip_init_config], with a pin and a pixel count
    filled in. *)
Definition config_of (gpio count : Z) : led_strip_config_t :=
  {| timing_config := timing_type LED_STRIP_TYPE_SK6822;
     cfg_color_order := LED_STRIP_COLOR_ORDER_RGBW;
     gpio_output_num := gpio;
     cfg_led_count := count;
     cfg_enable_w_channel := false |}.

(** The world a run ends in. *)
Definition world_of {A} (run : outcome (A * world)) : world :=
  match run with
  | Done (_, wd) => wd
  | Fault _ => boot_world
  end.

(** A session on [esp32_busy]: install five pixels, fill and set a pixel,
    start a flush, set another pixel. *)
Definition session_handle : led_strip_handle_t := 0x3ffb1000%N.
Definition session_installed : world :=
  world_of (@led_strip_install esp32_busy (Some NULL) (Some (config_of 18 5)) boot_world).
Definition session_painted : world :=
  match @run_ops esp32_busy session_handle
          [op_fill_rgb 10 20 30; op_set_pixel_rgb 0 1 2 3] session_installed with
  | Done wd => wd
  | Fault _ => boot_world
  end.
Definition session_flushing : world :=
  world_of (@led_strip_start_flush esp32_busy session_handle session_painted).
Definition session_repainted : world :=
  match @run_ops esp32_busy session_handle [op_set_pixel_rgb 1 0 0 0] session_flushing with
  | Done wd => wd
  | Fault _ => boot_world
  end.

(* ===================================================================== *)
(** * More of the code, and more words for its properties *)
(* ===================================================================== *)

(** [led_strip_init()]. [initialized] is the static flag of [led_strip.c];
    the result is the flag after the call, and the world. *)
Definition led_strip_init `{EspIdf} (initialized : bool) (wd : world) : outcome (bool * world) :=
  if initialized then Done (initialized, wd)
  else
    used ← for_upto (Z.to_nat RMT_CHANNEL_MAX) 0 (fun i used => store used i false)
             (rmt_channel_used wd);
    Done (true, with_rmt_channel_used wd used).

(** Every public operation on a handle but [led_strip_free]. *)
Inductive any_op :=
| op_quiet (op : strip_op)
| op_flush
| op_start_flush.

Definition run_any `{EspIdf} (handle : led_strip_handle_t) (op : any_op) (wd : world)
  : outcome world :=
  match op with
  | op_quiet op => run_op handle op wd
  | op_flush => '(_, wd') ← led_strip_flush handle wd; Done wd'
  | op_start_flush => '(_, wd') ← led_strip_start_flush handle wd; Done wd'
  end.

Fixpoint run_anys `{EspIdf} (handle : led_strip_handle_t) (ops : list any_op) (wd : world)
  : outcome world :=
  match ops with
  | [] => Done wd
  | op :: rest => wd' ← run_any handle op wd; run_anys handle rest wd'
  end.

(** What install fixes for the life of a strip. *)
Definition same_config (strip strip' : led_strip_t) : Prop :=
  channel strip' = channel strip
  ∧ led_timing strip' = led_timing strip
  ∧ color_order strip' = color_order strip
  ∧ led_count strip' = led_count strip
  ∧ enable_w_channel strip' = enable_w_channel strip
  ∧ length (pixel_colors strip') = length (pixel_colors strip).

(** The struct [led_strip_install] leaves at the handle: of what
    [alloc_led_strip] made only [channel] and [pixel_colors] are kept. *)
Definition configured_strip `{EspIdf} (config : led_strip_config_t) (strip : led_strip_t)
  : led_strip_t :=
  {| channel := channel strip;
     led_timing := map_timing (timing_config config);
     color_order := cfg_color_order config;
     pixel_colors := pixel_colors strip;
     led_count := cfg_led_count config;
     enable_w_channel := cfg_enable_w_channel config;
     has_flushed := false |}.

(** No strip is live in [wd'] that was not live, and the same, in [wd]. *)
Definition no_new_strip (wd wd' : world) : Prop :=
  ∀ (handle : led_strip_handle_t) (strip : led_strip_t),
    heap wd' !! handle = Some strip → heap wd !! handle = Some strip.

(** A world in which every channel is taken. *)
Definition crowded_world : world :=
  {| heap := ∅; rmt_channel_used := replicate 8 true; rmt_calls := [] |}.

(** [esp32_busy] with a driver whose [rmt_driver_install] fails. *)
Definition esp32_no_driver : EspIdf := {|
  APB_CLK_FREQ := 80 * 1000000;
  RMT_CHANNEL_MAX := 8;
  sizeof_led_strip_t := 24;
  rmt_driver := fun _ c =>
    match c with
    | rmt_driver_install _ _ _ => ESP_ERR_INVALID_STATE
    | _ => ESP_OK
    end;
  heap_caps_calloc := fun _ _ size => if size =? 1 then 0x3ffb2000%N else 0x3ffb1000%N;
|}.

(** The bytes of pixel [j] in the buffer of a strip. *)
Definition pixel_at (strip : led_strip_t) (j : Z) : list Z :=
  let size := CALC_COLOR_SIZE (enable_w_channel strip) in
  take (Z.to_nat size) (drop (Z.to_nat (size * j)) (pixel_colors strip)).

(** A world in which channel 0 is in use and no strip lives. *)
Definition one_taken_world : world :=
  {| heap := ∅; rmt_channel_used := true :: replicate 7 false; rmt_calls := [] |}.

(** [esp32_busy] with a driver that refuses [rmt_driver_uninstall]. *)
Definition esp32_no_uninstall : EspIdf := {|
  APB_CLK_FREQ := 80 * 1000000;
  RMT_CHANNEL_MAX := 8;
  sizeof_led_strip_t := 24;
  rmt_driver := fun _ c =>
    match c with
    | rmt_driver_uninstall _ => ESP_ERR_INVALID_STATE
    | _ => ESP_OK
    end;
  heap_caps_calloc := fun _ _ size => if size =? 1 then 0x3ffb2000%N else 0x3ffb1000%N;
|}.

(** A second strip installed on [esp32_busy] while channel 0 is in use,
    and the world after it is freed. *)
Definition second_installed : world :=
  world_of (@led_strip_install esp32_busy (Some NULL) (Some (config_of 18 5)) one_taken_world).
Definition second_freed : world :=
  world_of (@led_strip_free esp32_busy session_handle second_installed).

(** A pixel index is unsigned. *)
Definition index_unsigned (op : any_op) : Prop :=
  match op with
  | op_quiet (op_set_pixel_rgb index _ _ _) => 0 ≤ index
  | op_quiet (op_set_pixel_rgbw index _ _ _ _) => 0 ≤ index
  | _ => True
  end.

(** From [wd] to [wd'] the strip at [handle] stayed live with its
    configuration, its buffer length and a flush flag that was not
    cleared; no other strip and no channel changed; the driver calls of
    [wd] are a suffix of those of [wd']. *)
Definition strip_kept (handle : led_strip_handle_t) (wd wd' : world) : Prop :=
  ∃ (strip strip' : led_strip_t) (calls : list rmt_call),
    heap wd !! handle = Some strip
    ∧ heap wd' = <[handle := strip']> (heap wd)
    ∧ same_config strip strip'
    ∧ (has_flushed strip = true → has_flushed strip' = true)
    ∧ rmt_channel_used wd' = rmt_channel_used wd
    ∧ rmt_calls wd' = calls ++ rmt_calls wd.

(** How the driver drains a source through the translator: one call of
    [rmt_adapter] for each capacity in [capacities], each on the bytes the
    calls before it left and on a fresh buffer of that capacity; the
    symbols each call reports are collected in order. *)
Fixpoint translate_in_turns (wd : world) (get_context : esp_err_t * led_strip_handle_t)
    (src : list Z) (capacities : list Z) : outcome (list rmt_item32_t) :=
  match capacities with
  | [] => Done []
  | wanted_num :: rest =>
      '(dest, translated_size, item_num) ←
        rmt_adapter wd get_context src
          (replicate (Z.to_nat wanted_num)
             {| duration0 := 0; level0 := 0; duration1 := 0; level1 := 0 |})
          (Z.of_nat (length src)) wanted_num;
      more ← translate_in_turns wd get_context (drop (Z.to_nat translated_size) src) rest;
      Done (take (Z.to_nat item_num) dest ++ more)
  end.

(** The bytes a list of capacities has room for. *)
Definition room_in_bytes (capacities : list Z) : Z :=
  foldr (fun wanted_num total => wanted_num / 8 + total) 0 capacities.

(** Reading a symbol back: it is the symbol of a 1 when its two durations
    are those of a 1. *)
Definition bit_of_symbol (timing : led_strip_manual_timing_t) (symbol : rmt_item32_t) : bool :=
  (duration0 symbol =? high_on timing) && (duration1 symbol =? high_off timing).

(** The byte whose bits, most significant first, are [bits]. *)
Definition byte_of_bits (bits : list bool) : Z :=
  fold_left (fun byte bit => 2 * byte + Z.b2z bit) bits 0.

Definition byte_of_symbols (timing : led_strip_manual_timing_t) (symbols : list rmt_item32_t)
  : Z :=
  byte_of_bits (map (bit_of_symbol timing) symbols).

(** The two symbols of a timing table differ. *)
Definition bits_distinct (timing : led_strip_manual_timing_t) : Prop :=
  low_on timing ≠ high_on timing ∨ low_off timing ≠ high_off timing.

(** The strip after pixel [index] has been overwritten with [color]. *)
Definition with_pixel (strip : led_strip_t) (index : Z) (color : led_strip_color_t)
  : led_strip_t :=
  let size := CALC_COLOR_SIZE (enable_w_channel strip) in
  with_pixel_colors strip
    (take (Z.to_nat (size * index)) (pixel_colors strip)
     ++ pixel_bytes strip color
     ++ drop (Z.to_nat (size * index + size)) (pixel_colors strip)).

(** [esp32_busy] with a driver that answers every call, polls too, with
    [ESP_OK]: transmissions finish at once. *)
Definition esp32_idle : EspIdf := {|
  APB_CLK_FREQ := 80 * 1000000;
  RMT_CHANNEL_MAX := 8;
  sizeof_led_strip_t := 24;
  rmt_driver := fun _ _ => ESP_OK;
  heap_caps_calloc := fun _ _ size => if size =? 1 then 0x3ffb2000%N else 0x3ffb1000%N;
|}.

(** [rgb_world_5] after a first flush has been started. *)
Definition flushed_world_5 : world :=
  {| heap := {[ 1%N := with_has_flushed rgb_strip_5 true ]};
     rmt_channel_used := true :: replicate 7 false;
     rmt_calls := [rmt_write_sample 0 (replicate 15 0) 15 false] |}.

(** The world in which a ready strip sends: after the poll, when the strip
    had flushed before. *)
Definition world_at_send (strip : led_strip_t) (wd : world) : world :=
  if has_flushed strip then after_call (rmt_wait_tx_done (channel strip) 0) wd else wd.

(** The call that hands the buffer to the driver. *)
Definition send_call (strip : led_strip_t) (wait_tx_done : bool) : rmt_call :=
  rmt_write_sample (channel strip) (pixel_colors strip)
    (size_t_wrap (led_count strip * CALC_COLOR_SIZE (enable_w_channel strip))) wait_tx_done.


(** [esp32_busy] with an allocator that hands out a second address for
    structs while the first is live, so that two strips can be installed. *)
Definition esp32_two : EspIdf := {|
  APB_CLK_FREQ := 80 * 1000000;
  RMT_CHANNEL_MAX := 8;
  sizeof_led_strip_t := 24;
  rmt_driver := fun calls c =>
    match c with
    | rmt_wait_tx_done _ 0 => if existsb is_write_sample calls then ESP_ERR_TIMEOUT else ESP_OK
    | _ => ESP_OK
    end;
  heap_caps_calloc := fun wd _ size =>
    if size =? 1 then 0x3ffb2000%N
    else match heap wd !! 0x3ffb1000%N with
         | None => 0x3ffb1000%N
         | Some _ => 0x3ffb1100%N
         end;
|}.

(** The WS281x table in ticks of 100 ns. *)
Definition WS281x_at_100ns : led_strip_manual_timing_t :=
  {| low_on := 4; low_off := 9; high_on := 9; high_off := 4; reset_time := 500 |}.

(** Two installs on [esp32_two]: a WS281x strip of five pixels, which gets
    channel 0, then an SK6822 strip of five pixels, which gets channel 1. *)
Definition first_handle : led_strip_handle_t := 0x3ffb1000%N.
Definition second_handle : led_strip_handle_t := 0x3ffb1100%N.
Definition WS281x_config : led_strip_config_t :=
  {| timing_config := timing_type LED_STRIP_TYPE_WS281x;
     cfg_color_order := LED_STRIP_COLOR_ORDER_RGBW;
     gpio_output_num := 18;
     cfg_led_count := 5;
     cfg_enable_w_channel := false |}.
Definition one_installed : world :=
  world_of (@led_strip_install esp32_two (Some NULL) (Some WS281x_config) boot_world).
Definition two_installed : world :=
  world_of (@led_strip_install esp32_two (Some NULL) (Some (config_of 19 5)) one_installed).

(* ===================================================================== *)
(** * Timing table *)
(* ===================================================================== *)

(** [ceil_div] is the ceiling of the quotient. *)
Lemma ceil_div_spec (x p : Z) :
  0 < p → x ≤ ceil_div x p * p ∧ (ceil_div x p - 1) * p < x.
Proof.
  intros Hp. unfold ceil_div.
  pose proof (Z.div_mod (- x) p ltac:(lia)) as Hdm.
  pose proof (Z.mod_pos_bound (- x) p Hp) as Hb.
  nia.
Qed.

(** ** Divisors of [10^9]

    A tick period is a whole number of nanoseconds when the tick frequency
    divides [10^9]; such a frequency is a product of a power of 2 and a
    power of 5. *)

Lemma prime_5 : Z.prime 5.
Proof.
  split; [lia|]. intros n Hn [k Hk].
  assert (n = 2 ∨ n = 3 ∨ n = 4) as [->|[->| ->]] by lia; lia.
Qed.

Lemma divide_prime_mul (q f m : Z) :
  Z.prime q → 0 < f → (f | q * m) →
  (∃ f', f = q * f' ∧ 0 < f' ∧ (f' | m)) ∨ (f | m).
Proof.
  intros Hq Hf Hdiv.
  pose proof (Z.prime_ge_2 q Hq) as Hq2.
  destruct (Z.eq_dec (f mod q) 0) as [Hz|Hnz].
  - left. exists (f / q).
    pose proof (Z.div_mod f q ltac:(lia)) as Hdm. rewrite Hz, Z.add_0_r in Hdm.
    split; [exact Hdm|]. split; [nia|].
    apply (Z.mul_divide_cancel_l (f / q) m q); [lia|]. now rewrite <- Hdm.
  - right. apply Z.gauss with q; [exact Hdiv|].
    rewrite Z.gcd_comm. apply Z.coprime_prime_l; [exact Hq|].
    intros Hqf. apply Hnz. now apply Z.mod0_divide.
Qed.

Lemma divisor_of_prime_power (q : Z) (n : nat) (f : Z) :
  Z.prime q → 0 < f → (f | q ^ Z.of_nat n) →
  ∃ k : nat, (k ≤ n)%nat ∧ f = q ^ Z.of_nat k.
Proof.
  intros Hq. revert f. induction n as [|n IH]; intros f Hf Hdiv.
  - exists O. split; [lia|]. simpl in *.
    apply Z.divide_1_r_nonneg in Hdiv; lia.
  - rewrite Nat2Z.inj_succ, Z.pow_succ_r in Hdiv by lia.
    destruct (divide_prime_mul q f _ Hq Hf Hdiv) as [(f' & -> & Hf' & Hd)|Hd].
    + destruct (IH f' Hf' Hd) as (k & Hk & ->).
      exists (S k). split; [lia|].
      now rewrite Nat2Z.inj_succ, Z.pow_succ_r by lia.
    + destruct (IH f Hf Hd) as (k & Hk & ->). exists k. split; [lia|easy].
Qed.

Lemma divisor_of_two_prime_powers (n m : nat) (f : Z) :
  0 < f → (f | 2 ^ Z.of_nat n * 5 ^ Z.of_nat m) →
  ∃ a b : nat, (a ≤ n)%nat ∧ (b ≤ m)%nat ∧ f = 2 ^ Z.of_nat a * 5 ^ Z.of_nat b.
Proof.
  revert f. induction n as [|n IH]; intros f Hf Hdiv.
  - rewrite Z.mul_1_l in Hdiv.
    destruct (divisor_of_prime_power 5 m f prime_5 Hf Hdiv) as (k & Hk & ->).
    exists O, k. repeat split; try lia.
  - rewrite Nat2Z.inj_succ, Z.pow_succ_r, <- Z.mul_assoc in Hdiv by lia.
    destruct (divide_prime_mul 2 f _ Z.prime_2 Hf Hdiv) as [(f' & -> & Hf' & Hd)|Hd].
    + destruct (IH f' Hf' Hd) as (a & b & Ha & Hb & ->).
      exists (S a), b. repeat split; try lia.
      rewrite Nat2Z.inj_succ, Z.pow_succ_r by lia. ring.
    + destruct (IH f Hf Hd) as (a & b & Ha & Hb & ->).
      exists a, b. repeat split; try lia.
Qed.

Lemma whole_ns_frequencies_complete (f : Z) :
  0 < f → 1000000000 mod f = 0 → In f whole_ns_frequencies.
Proof.
  intros Hf Hmod.
  assert (f | 2 ^ Z.of_nat 9 * 5 ^ Z.of_nat 9) as Hdiv.
  { exists (1000000000 / f).
    pose proof (Z.div_mod 1000000000 f ltac:(lia)) as Hdm.
    rewrite Hmod, Z.add_0_r in Hdm.
    change (2 ^ Z.of_nat 9 * 5 ^ Z.of_nat 9) with 1000000000. lia. }
  destruct (divisor_of_two_prime_powers 9 9 f Hf Hdiv) as (a & b & Ha & Hb & ->).
  unfold whole_ns_frequencies. apply in_flat_map. exists a. split.
  - apply in_seq. lia.
  - apply in_map_iff. exists b. split; [reflexivity|]. apply in_seq. lia.
Qed.

(** ** The macros, as functions of the tick frequency *)

Lemma LED_STRIP_NS_AS_TICKS_at `{EspIdf} (f x : Z) :
  APB_CLK_FREQ / LED_STRIP_CLOCK_DIVIDER = f →
  to_uint15 (LED_STRIP_NS_AS_TICKS x) = ns_as_ticks_at f x.
Proof.
  intros Hf. unfold LED_STRIP_NS_AS_TICKS, LED_STRIP_NS_PER_TICK, ns_as_ticks_at, ns_per_tick_at.
  now rewrite Hf.
Qed.

Lemma ticks_are_ceilings_everywhere :
  forallb ticks_are_ceilings whole_ns_frequencies = true.
Proof. vm_compute. reflexivity. Qed.

Lemma ns_as_ticks_at_ceil (f x : Z) :
  0 < f → 1000000000 mod f = 0 → 3 ≤ 1000000000 / f → In x table_durations →
  ns_as_ticks_at f x = ceil_div x (1000000000 / f).
Proof.
  intros Hf Hmod Hp Hx.
  pose proof ticks_are_ceilings_everywhere as Hall.
  rewrite forallb_forall in Hall.
  specialize (Hall f (whole_ns_frequencies_complete f Hf Hmod)).
  unfold ticks_are_ceilings in Hall.
  destruct (Z.leb_spec 3 (1000000000 / f)) as [_|Hlt]; [|lia].
  rewrite forallb_forall in Hall. apply Z.eqb_eq. now apply Hall.
Qed.

(** C6. On a platform whose tick period [p] is a whole number of
    nanoseconds (at least 3, so that the reset time fits its 15 bit field),
    the named type SK6822 resolves to the ticks [ceil(300/p)],
    [ceil(900/p)], [ceil(600/p)], [ceil(600/p)] and reset [ceil(80000/p)],
    WS281x to [ceil(350/p)], [ceil(900/p)], [ceil(900/p)], [ceil(350/p)]
    and reset [ceil(50000/p)], and every other named type to the SK6822
    table. *)
Theorem map_timing_published_tables `{EspIdf} :
  0 < APB_CLK_FREQ / LED_STRIP_CLOCK_DIVIDER →
  1000000000 mod (APB_CLK_FREQ / LED_STRIP_CLOCK_DIVIDER) = 0 →
  3 ≤ tick_period_ns →
  map_timing (timing_type LED_STRIP_TYPE_SK6822) = published_SK6822 tick_period_ns
  ∧ map_timing (timing_type LED_STRIP_TYPE_WS281x) = published_WS281x tick_period_ns
  ∧ ∀ type : Z,
      type ≠ LED_STRIP_TYPE_SK6822 → type ≠ LED_STRIP_TYPE_WS281x →
      map_timing (timing_type type) = published_SK6822 tick_period_ns.
Proof.
  intros Hf Hmod Hp. unfold tick_period_ns in *.
  set (f := APB_CLK_FREQ / LED_STRIP_CLOCK_DIVIDER) in *.
  assert (∀ x, In x table_durations →
               to_uint15 (LED_STRIP_NS_AS_TICKS x) = ceil_div x (1000000000 / f)) as Hticks.
  { intros x Hx. rewrite (LED_STRIP_NS_AS_TICKS_at f x eq_refl).
    now apply ns_as_ticks_at_ceil. }
  assert (timing_SK6822 = published_SK6822 (1000000000 / f)) as HSK.
  { unfold timing_SK6822, published_SK6822, LED_STRIP_US_AS_TICKS.
    change (80 * 1000) with 80000.
    rewrite !Hticks by (unfold table_durations; simpl; tauto). reflexivity. }
  assert (timing_WS281x = published_WS281x (1000000000 / f)) as HWS.
  { unfold timing_WS281x, published_WS281x, LED_STRIP_US_AS_TICKS.
    change (50 * 1000) with 50000.
    rewrite !Hticks by (unfold table_durations; simpl; tauto). reflexivity. }
  split; [exact HSK|]. split; [exact HWS|].
  intros type H1 H3. unfold map_timing.
  destruct (Z.eqb_spec type LED_STRIP_TYPE_SK6822); [contradiction|].
  destruct (Z.eqb_spec type LED_STRIP_TYPE_WS281x); [contradiction|].
  exact HSK.
Qed.

Lemma map_timing_published_tables_esp32 :
  @map_timing esp32_busy (timing_type LED_STRIP_TYPE_SK6822) = SK6822_at_100ns.
Proof.
  pose proof (@map_timing_published_tables esp32_busy) as Htab.
  destruct Htab as [HSK _].
  - vm_compute. reflexivity.
  - vm_compute. reflexivity.
  - vm_compute. discriminate.
  - rewrite HSK. vm_compute. reflexivity.
Defined.

(* ===================================================================== *)
(** * Arrays and loops *)
(* ===================================================================== *)

Lemma store_in_range {A} (arr : list A) (i : Z) (x : A) :
  0 ≤ i < Z.of_nat (length arr) → store arr i x = Done (<[Z.to_nat i := x]> arr).
Proof.
  intros Hi. unfold store.
  destruct (Z.leb_spec 0 i); [|lia]. destruct (Z.ltb_spec i (Z.of_nat (length arr))); [|lia].
  reflexivity.
Qed.

Lemma store_out_of_range {A} (arr : list A) (i : Z) (x : A) :
  i < 0 ∨ Z.of_nat (length arr) ≤ i → store arr i x = Fault OutOfBounds.
Proof.
  intros Hi. unfold store.
  destruct (Z.leb_spec 0 i); [|reflexivity].
  destruct (Z.ltb_spec i (Z.of_nat (length arr))); [lia|reflexivity].
Qed.

Lemma load_in_range {A} (arr : list A) (i : Z) (x : A) :
  0 ≤ i → arr !! Z.to_nat i = Some x → load arr i = Done x.
Proof.
  intros Hi Hx. unfold load.
  apply lookup_lt_Some in Hx as Hlt.
  destruct (Z.leb_spec 0 i); [|lia]. destruct (Z.ltb_spec i (Z.of_nat (length arr))); [|lia].
  simpl. now rewrite Hx.
Qed.

Lemma for_upto_ext {St} (body body' : Z → St → outcome St) (n : nat) (i : Z) (s : St) :
  (∀ j s, body j s = body' j s) → for_upto n i body s = for_upto n i body' s.
Proof.
  intros Hext. revert i s. induction n as [|n IH]; intros i s; simpl; [reflexivity|].
  rewrite Hext. destruct (body' i s); simpl; [apply IH|reflexivity].
Qed.

(** A loop that stores [f j] at [base + j] for [j = i, i+1, ..] overwrites
    a window of the array and nothing else. *)
Lemma for_upto_store {A} (f : Z → A) (base : Z) (n : nat) :
  ∀ (i : Z) (arr : list A),
    0 ≤ base + i → base + i + Z.of_nat n ≤ Z.of_nat (length arr) →
    for_upto n i (fun j a => store a (base + j) (f j)) arr
    = Done (take (Z.to_nat (base + i)) arr
            ++ map f (seqZ i (Z.of_nat n))
            ++ drop (Z.to_nat (base + i) + n) arr).
Proof.
  induction n as [|n IH]; intros i arr Hlo Hhi.
  - simpl. rewrite Nat.add_0_r, take_drop. reflexivity.
  - cbn [for_upto]. rewrite store_in_range by lia. cbn [mbind outcome_bind].
    assert (Z.to_nat (base + i) < length arr)%nat as Hlt by lia.
    rewrite IH by (rewrite ?length_insert; lia).
    f_equal.
    replace (Z.to_nat (base + (i + 1))) with (S (Z.to_nat (base + i))) by lia.
    rewrite (take_S_r _ _ (f i)) by (now apply list_lookup_insert_eq).
    rewrite take_insert_ge by lia.
    rewrite drop_insert_lt by lia.
    rewrite (seqZ_cons i (Z.of_nat (S n))) by lia.
    replace (Z.pred (Z.of_nat (S n))) with (Z.of_nat n) by lia.
    replace (Z.succ i) with (i + 1) by lia.
    rewrite <- app_assoc. cbn [map app].
    replace (S (Z.to_nat (base + i)) + n)%nat with (Z.to_nat (base + i) + S n)%nat by lia.
    reflexivity.
Qed.

(* ===================================================================== *)
(** * Symbol translator *)
(* ===================================================================== *)

(** The macro [BIT_SET] reads one bit. *)
Lemma BIT_SET_testbit (val bit : Z) : 0 ≤ bit → BIT_SET val bit = Z.testbit val bit.
Proof.
  intros Hbit. unfold BIT_SET. rewrite Z.shiftl_1_l.
  destruct (Z.testbit val bit) eqn:Hb.
  - apply Z.eqb_eq. apply Z.bits_inj'. intros k Hk.
    rewrite Z.land_spec, Z.pow2_bits_eqb by lia.
    destruct (Z.eqb_spec bit k) as [->|]; [now rewrite Hb|apply andb_false_r].
  - apply Z.eqb_neq. intros Heq.
    apply (f_equal (fun z => Z.testbit z bit)) in Heq.
    rewrite Z.land_spec, Z.pow2_bits_eqb, Hb, Z.eqb_refl in Heq by lia.
    discriminate.
Qed.

Lemma translate_bit_store (items data : Z) (timing : led_strip_manual_timing_t)
    (i : Z) (dest : list rmt_item32_t) :
  translate_bit items data timing i dest
  = store dest (items + i) (symbol_of_bit timing (BIT_SET data (7 - i))).
Proof. unfold translate_bit, symbol_of_bit. now destruct (BIT_SET data (7 - i)). Qed.

Lemma bits_msb_first_BIT_SET (data : Z) :
  map (fun i => BIT_SET data (7 - i)) (seqZ 0 8) = bits_msb_first data.
Proof.
  change (seqZ 0 8) with [0; 1; 2; 3; 4; 5; 6; 7]. cbn [map].
  rewrite !BIT_SET_testbit by lia. reflexivity.
Qed.

Lemma length_symbols_of_byte timing data : length (symbols_of_byte timing data) = 8%nat.
Proof. reflexivity. Qed.

Lemma translate_uint8_to_rmt_samples_window (dest : list rmt_item32_t) (items data : Z)
    (timing : led_strip_manual_timing_t) :
  0 ≤ items → items + 8 ≤ Z.of_nat (length dest) →
  translate_uint8_to_rmt_samples dest items data timing
  = Done (take (Z.to_nat items) dest
          ++ symbols_of_byte timing data
          ++ drop (Z.to_nat items + 8) dest).
Proof.
  intros Hlo Hhi. unfold translate_uint8_to_rmt_samples, symbols_of_byte.
  rewrite (for_upto_ext _ (fun j a => store a (items + j)
             (symbol_of_bit timing (BIT_SET data (7 - j)))))
    by (intros; apply translate_bit_store).
  rewrite (for_upto_store (fun j => symbol_of_bit timing (BIT_SET data (7 - j))) items 8 0 dest)
    by (simpl; lia).
  rewrite Z.add_0_r. do 3 f_equal.
  rewrite <- bits_msb_first_BIT_SET, map_map. reflexivity.
Qed.

(** C2. For every byte and every timing table, the translator writes
    exactly eight symbols, at [items[0..7]] and nowhere else: the symbol of
    bit 7 first, the symbol of bit 0 last; the symbol of a 1 is high for
    [high_on] then low for [high_off], that of a 0 is high for [low_on] then
    low for [low_off]. *)
Theorem translate_uint8_msb_first (dest : list rmt_item32_t) (items data : Z)
    (timing : led_strip_manual_timing_t) :
  0 ≤ items → items + 8 ≤ Z.of_nat (length dest) →
  translate_uint8_to_rmt_samples dest items data timing
  = Done (take (Z.to_nat items) dest
          ++ map (symbol_of_bit timing) (bits_msb_first data)
          ++ drop (Z.to_nat items + 8) dest)
  ∧ (∀ bit, symbol_of_bit timing bit
            = {| duration0 := if bit then high_on timing else low_on timing;
                 level0 := 1;
                 duration1 := if bit then high_off timing else low_off timing;
                 level1 := 0 |})
  ∧ bits_msb_first data = map (Z.testbit data) [7; 6; 5; 4; 3; 2; 1; 0].
Proof.
  intros Hlo Hhi. split; [|split].
  - now apply translate_uint8_to_rmt_samples_window.
  - now intros [].
  - reflexivity.
Qed.

Lemma translate_uint8_msb_first_0xB0 :
  translate_uint8_to_rmt_samples blank_items 0 0xB0 SK6822_at_100ns
  = Done (map (symbol_of_bit SK6822_at_100ns) (bits_msb_first 0xB0)).
Proof.
  destruct (translate_uint8_msb_first blank_items 0 0xB0 SK6822_at_100ns) as [Hrun _].
  - lia.
  - simpl. lia.
  - rewrite Hrun. reflexivity.
Defined.

(** The example fails where the symbols of 0 and 1 differ: the second
    symbol written is that of bit 6 of [0b10110000], a 0. *)
Lemma bit_order_example_as_worded_fails :
  ¬ bit_order_example_as_worded SK6822_at_100ns blank_items.
Proof. unfold bit_order_example_as_worded. vm_compute. discriminate. Qed.

(** C3, amended. Encoding the byte [0b10110000] writes the eight symbols
    high, low, high, high, low, low, low, low: the bits 1, 0, 1, 1, 0, 0,
    0, 0 of the byte from bit 7 down, each the (on, off) pair of the timing
    table for that bit value. *)
Theorem bit_order_example (timing : led_strip_manual_timing_t) (dest : list rmt_item32_t) :
  (8 ≤ length dest)%nat →
  translate_uint8_to_rmt_samples dest 0 0xB0 timing
  = Done (map (symbol_of_bit timing)
            [true; false; true; true; false; false; false; false]
          ++ drop 8 dest).
Proof.
  intros Hlen.
  rewrite translate_uint8_to_rmt_samples_window by lia.
  reflexivity.
Qed.

Lemma bit_order_example_SK6822 :
  translate_uint8_to_rmt_samples blank_items 0 0xB0 SK6822_at_100ns
  = Done [ {| duration0 := 6; level0 := 1; duration1 := 6; level1 := 0 |};
           {| duration0 := 3; level0 := 1; duration1 := 9; level1 := 0 |};
           {| duration0 := 6; level0 := 1; duration1 := 6; level1 := 0 |};
           {| duration0 := 6; level0 := 1; duration1 := 6; level1 := 0 |};
           {| duration0 := 3; level0 := 1; duration1 := 9; level1 := 0 |};
           {| duration0 := 3; level0 := 1; duration1 := 9; level1 := 0 |};
           {| duration0 := 3; level0 := 1; duration1 := 9; level1 := 0 |};
           {| duration0 := 3; level0 := 1; duration1 := 9; level1 := 0 |} ].
Proof.
  rewrite (bit_order_example SK6822_at_100ns blank_items).
  - reflexivity.
  - simpl. lia.
Defined.

(** One round of the loop of [rmt_adapter]. *)
Lemma rmt_adapter_body_step (wd : world) (handle : led_strip_handle_t) (strip : led_strip_t)
    (src : list Z) (i byte : Z) (dest : list rmt_item32_t) (off : Z) :
  deref wd handle = Done strip →
  0 ≤ i → src !! Z.to_nat i = Some byte →
  0 ≤ off → off + 8 ≤ Z.of_nat (length dest) → off + 8 < 2 ^ SIZE_WIDTH →
  rmt_adapter_body wd handle src i (dest, off)
  = Done (take (Z.to_nat off) dest ++ symbols_of_byte (led_timing strip) byte
          ++ drop (Z.to_nat off + 8) dest,
          off + 8).
Proof.
  intros Hderef Hi Hbyte Hoff Hdest Hsz. unfold rmt_adapter_body.
  rewrite (load_in_range src i byte Hi Hbyte). cbn [mbind outcome_bind].
  rewrite Hderef. cbn [mbind outcome_bind].
  rewrite translate_uint8_to_rmt_samples_window by lia. cbn [mbind outcome_bind].
  unfold size_t_wrap. rewrite Z.mod_small by lia. reflexivity.
Qed.

(** The loop of [rmt_adapter]: [m] bytes from [src[i]] on become [8 * m]
    symbols from [dest[off]] on. *)
Lemma rmt_adapter_loop (wd : world) (handle : led_strip_handle_t) (strip : led_strip_t)
    (src : list Z) (m : nat) :
  deref wd handle = Done strip →
  ∀ (i : Z) (dest : list rmt_item32_t) (off : Z),
    0 ≤ i → i + Z.of_nat m ≤ Z.of_nat (length src) →
    0 ≤ off → off + 8 * Z.of_nat m ≤ Z.of_nat (length dest) →
    off + 8 * Z.of_nat m < 2 ^ SIZE_WIDTH →
    for_upto m i (rmt_adapter_body wd handle src) (dest, off)
    = Done (take (Z.to_nat off) dest
            ++ flat_map (symbols_of_byte (led_timing strip)) (take m (drop (Z.to_nat i) src))
            ++ drop (Z.to_nat off + 8 * m) dest,
            off + 8 * Z.of_nat m).
Proof.
  intros Hderef. induction m as [|m IH]; intros i dest off Hi Hsrc Hoff Hdest Hsz.
  - cbn [for_upto flat_map]. rewrite take_0. cbn [flat_map app].
    rewrite Nat.mul_0_r, Nat.add_0_r, take_drop.
    change (Z.of_nat 0) with 0. rewrite Z.mul_0_r, Z.add_0_r. reflexivity.
  - destruct (lookup_lt_is_Some_2 src (Z.to_nat i) ltac:(lia)) as [byte Hbyte].
    cbn [for_upto].
    rewrite (rmt_adapter_body_step wd handle strip src i byte dest off) by (assumption || lia).
    cbn [mbind outcome_bind].
    set (syms := symbols_of_byte (led_timing strip) byte).
    assert (length (take (Z.to_nat off) dest) = Z.to_nat off) as Hlt
      by (apply length_take_le; lia).
    rewrite IH; [|lia|lia|lia| |lia].
    2:{ rewrite !length_app, Hlt, length_drop. subst syms.
        rewrite length_symbols_of_byte. lia. }
    f_equal. f_equal; [|lia].
    rewrite (drop_S src byte (Z.to_nat i) Hbyte).
    rewrite firstn_cons. cbn [flat_map].
    replace (Z.to_nat (i + 1)) with (S (Z.to_nat i)) by lia.
    rewrite (app_assoc (take (Z.to_nat off) dest) syms).
    rewrite take_app_length' by (rewrite length_app, Hlt; subst syms;
                                 rewrite length_symbols_of_byte; lia).
    rewrite drop_app_add' by (rewrite length_app, Hlt; subst syms;
                              rewrite length_symbols_of_byte; lia).
    rewrite drop_drop.
    rewrite <- !app_assoc.
    replace (Z.to_nat off + 8 * S m)%nat with (Z.to_nat off + 8 + 8 * m)%nat by lia.
    reflexivity.
Qed.

Lemma deref_live (wd : world) (handle : led_strip_handle_t) (strip : led_strip_t) :
  handle ≠ NULL → heap wd !! handle = Some strip → deref wd handle = Done strip.
Proof.
  intros Hnn Hlive. unfold deref.
  destruct (N.eqb_spec handle NULL); [contradiction|]. now rewrite Hlive.
Qed.

(** Without a strip as its context the adapter translates nothing. *)
Lemma rmt_adapter_without_context (wd : world) (err : esp_err_t) (user_data : led_strip_handle_t)
    (src : list Z) (dest : list rmt_item32_t) (src_size wanted_num : Z) :
  err ≠ ESP_OK ∨ user_data = NULL →
  rmt_adapter wd (err, user_data) src dest src_size wanted_num = Done (dest, 0, 0).
Proof.
  intros Hctx. unfold rmt_adapter.
  destruct (Z.eqb_spec err ESP_OK); cbn [negb]; [|reflexivity].
  destruct (N.eqb_spec user_data NULL); [reflexivity|].
  destruct Hctx; contradiction.
Qed.

(** Below eight symbols of capacity the adapter translates nothing,
    whatever its context and its source. *)
Lemma rmt_adapter_short_capacity (wd : world) (get_context : esp_err_t * led_strip_handle_t)
    (src : list Z) (dest : list rmt_item32_t) (src_size wanted_num : Z) :
  wanted_num < 8 →
  rmt_adapter wd get_context src dest src_size wanted_num = Done (dest, 0, 0).
Proof.
  intros Hshort. unfold rmt_adapter. destruct get_context as [err user_data].
  destruct (negb (err =? ESP_OK)); [reflexivity|].
  destruct (user_data =? NULL)%N; [reflexivity|].
  destruct (Z.ltb_spec wanted_num 8); [reflexivity|lia].
Qed.

(** C1. With the strip as its context, one call of the adapter on a source
    of [src_size] bytes and a capacity of [wanted_num] symbols consumes
    [min (wanted_num / 8) src_size] bytes and produces eight symbols for
    each of them, the symbols of these bytes in order at the start of the
    output buffer, and reports both counts; below a capacity of eight it
    reports 0 and 0 whatever the source. *)
Theorem rmt_adapter_byte_count (wd : world) (handle : led_strip_handle_t) (strip : led_strip_t)
    (src : list Z) (dest : list rmt_item32_t) (src_size wanted_num : Z) :
  handle ≠ NULL → heap wd !! handle = Some strip →
  0 ≤ src_size ≤ Z.of_nat (length src) →
  0 ≤ wanted_num ≤ Z.of_nat (length dest) →
  wanted_num < 2 ^ SIZE_WIDTH →
  let translated := Z.min (wanted_num / 8) src_size in
  rmt_adapter wd (ESP_OK, handle) src dest src_size wanted_num
  = Done (flat_map (symbols_of_byte (led_timing strip)) (take (Z.to_nat translated) src)
          ++ drop (8 * Z.to_nat translated) dest,
          translated, 8 * translated)
  ∧ (wanted_num < 8 →
     translated = 0
     ∧ ∀ get_context src' src_size',
         rmt_adapter wd get_context src' dest src_size' wanted_num = Done (dest, 0, 0)).
Proof.
  intros Hnn Hlive Hsrc Hcap Hsz translated.
  pose proof (deref_live wd handle strip Hnn Hlive) as Hderef.
  pose proof (Z.div_mod wanted_num 8 ltac:(lia)) as Hdm.
  pose proof (Z.mod_pos_bound wanted_num 8 ltac:(lia)) as Hrem.
  split.
  - destruct (Z.ltb_spec wanted_num 8) as [Hshort|Hlong].
    + rewrite rmt_adapter_short_capacity by exact Hshort.
      assert (translated = 0) as -> by (subst translated; lia).
      reflexivity.
    + unfold rmt_adapter. cbn [negb Z.eqb ESP_OK].
      destruct (N.eqb_spec handle NULL); [contradiction|].
      destruct (Z.ltb_spec wanted_num 8); [lia|].
      assert ((if wanted_num / 8 >? src_size then src_size else wanted_num / 8) = translated) as ->.
      { subst translated. rewrite Z.gtb_ltb. destruct (Z.ltb_spec src_size (wanted_num / 8)); lia. }
      assert (0 ≤ translated) as Hk by (subst translated; lia).
      assert (translated ≤ wanted_num / 8) as Hk8 by (subst translated; lia).
      rewrite (rmt_adapter_loop wd handle strip src (Z.to_nat translated) Hderef 0 dest 0)
        by (subst translated; lia).
      cbn [mbind outcome_bind].
      change (Z.to_nat 0) with 0%nat. rewrite take_0, drop_0. cbn [app Nat.add].
      rewrite Z2Nat.id by lia. rewrite Z.add_0_l. reflexivity.
  - intros Hshort. split; [subst translated; lia|].
    intros get_context src' src_size'. now apply rmt_adapter_short_capacity.
Qed.

Lemma rmt_adapter_byte_count_demo :
  ∃ dest',
    rmt_adapter
      {| heap := {[ 1%N := with_pixel_colors zeroed_strip [0xB0; 0x01; 0xFF] ]};
         rmt_channel_used := replicate 8 false; rmt_calls := [] |}
      (ESP_OK, 1%N) [0xB0; 0x01; 0xFF] (blank_items ++ blank_items ++ blank_items) 3 20
    = Done (dest', 2, 16).
Proof.
  eexists.
  refine (proj1 (rmt_adapter_byte_count _ 1%N
                   (with_pixel_colors zeroed_strip [0xB0; 0x01; 0xFF])
                   [0xB0; 0x01; 0xFF] (blank_items ++ blank_items ++ blank_items) 3 20
                   _ _ _ _ _)).
  - discriminate.
  - reflexivity.
  - simpl. lia.
  - simpl. lia.
  - reflexivity.
Defined.

(* ===================================================================== *)
(** * Pixel buffer *)
(* ===================================================================== *)

Lemma length_pixel_bytes strip color :
  Z.of_nat (length (pixel_bytes strip color)) = CALC_COLOR_SIZE (enable_w_channel strip).
Proof.
  unfold pixel_bytes, CALC_COLOR_SIZE.
  destruct (color_order strip =? LED_STRIP_COLOR_ORDER_GRBW), (enable_w_channel strip);
    reflexivity.
Qed.

(** A store inside a window of an array. *)
Lemma insert_in_window {A} (pre win post : list A) (k j : nat) (x : A) :
  length pre = k → (j < length win)%nat →
  <[(k + j)%nat := x]> (pre ++ win ++ post) = pre ++ <[j := x]> win ++ post.
Proof.
  intros Hk Hj. rewrite insert_app_r_alt by lia.
  replace (k + j - length pre)%nat with j by lia.
  now rewrite insert_app_l.
Qed.

Lemma store_in_window {A} (pre win post : list A) (k : nat) (base j : Z) (x : A) :
  length pre = k → Z.of_nat k = base → 0 ≤ j < Z.of_nat (length win) →
  store (pre ++ win ++ post) (base + j) x = Done (pre ++ <[Z.to_nat j := x]> win ++ post).
Proof.
  intros Hk Hbase Hj.
  rewrite store_in_range by (rewrite !length_app; lia).
  replace (Z.to_nat (base + j)) with (k + Z.to_nat j)%nat by lia.
  rewrite insert_in_window by lia. reflexivity.
Qed.

Lemma store_at_window_start {A} (pre win post : list A) (k : nat) (base : Z) (x : A) :
  length pre = k → Z.of_nat k = base → (0 < length win)%nat →
  store (pre ++ win ++ post) base x = Done (pre ++ <[0%nat := x]> win ++ post).
Proof.
  intros Hk Hbase Hwin. rewrite <- (Z.add_0_r base).
  now rewrite (store_in_window pre win post k base 0 x) by lia.
Qed.

(** One store of [set_color_data], into a window whose bytes are known. *)
Ltac window_store Hpre Hoff :=
  first [ rewrite (store_in_window _ _ _ _ _ _ _ Hpre Hoff) by (simpl; lia)
        | rewrite (store_at_window_start _ _ _ _ _ _ Hpre Hoff) by (simpl; lia) ];
  cbn [mbind outcome_bind insert list_insert Z.to_nat Pos.to_nat Pos.iter_op Nat.add].

(** An array with room for [n] elements from index [k] on splits there. *)
Lemma split_window {A} (arr : list A) (k n : nat) :
  (k + n ≤ length arr)%nat →
  arr = take k arr ++ take n (drop k arr) ++ drop (k + n) arr
  ∧ length (take k arr) = k ∧ length (take n (drop k arr)) = n.
Proof.
  intros Hlen. split; [|split].
  - rewrite <- drop_drop, take_drop, take_drop. reflexivity.
  - rewrite length_take. lia.
  - rewrite length_take, length_drop. lia.
Qed.

(** [set_color_data] overwrites the bytes of pixel [index] with
    [pixel_bytes] and leaves the rest of the buffer. *)
Lemma set_color_data_window (strip : led_strip_t) (index : Z) (color : led_strip_color_t) :
  let size := CALC_COLOR_SIZE (enable_w_channel strip) in
  0 ≤ index → size * index + size ≤ Z.of_nat (length (pixel_colors strip)) →
  set_color_data strip index color
  = Done (with_pixel_colors strip
            (take (Z.to_nat (size * index)) (pixel_colors strip)
             ++ pixel_bytes strip color
             ++ drop (Z.to_nat (size * index + size)) (pixel_colors strip))).
Proof.
  intros size Hindex Hlen. unfold set_color_data, color_offsets, pixel_bytes.
  fold size. set (offset := size * index) in *.
  set (buf := pixel_colors strip) in *.
  assert (0 < size ≤ 4) as Hsize
    by (subst size; unfold CALC_COLOR_SIZE; destruct (enable_w_channel strip); lia).
  destruct (split_window buf (Z.to_nat offset) (Z.to_nat size) ltac:(lia))
    as (Hsplit & Hpre & Hwin).
  replace (Z.to_nat (offset + size)) with (Z.to_nat offset + Z.to_nat size)%nat by lia.
  set (pre := take (Z.to_nat offset) buf) in *.
  set (post := drop (Z.to_nat offset + Z.to_nat size) buf) in *.
  set (win := take (Z.to_nat size) (drop (Z.to_nat offset) buf)) in *.
  clearbody pre post win. rewrite Hsplit.
  assert (Z.of_nat (Z.to_nat offset) = offset) as Hoff by lia.
  subst size. unfold CALC_COLOR_SIZE in *.
  destruct (enable_w_channel strip).
  - destruct win as [|b0 [|b1 [|b2 [|b3 [|]]]]]; try discriminate Hwin.
    destruct (color_order strip =? LED_STRIP_COLOR_ORDER_GRBW);
      cbn [mbind outcome_bind]; repeat window_store Hpre Hoff;
      reflexivity.
  - destruct win as [|b0 [|b1 [|b2 [|]]]]; try discriminate Hwin.
    destruct (color_order strip =? LED_STRIP_COLOR_ORDER_GRBW);
      cbn [mbind outcome_bind]; repeat window_store Hpre Hoff;
      reflexivity.
Qed.

Lemma load_in_window {A} (pre win post : list A) (base : Z) (j : nat) (x : A) :
  Z.of_nat (length pre) = base → win !! j = Some x →
  load (pre ++ win ++ post) (base + Z.of_nat j) = Done x.
Proof.
  intros Hbase Hx. apply load_in_range; [lia|].
  replace (Z.to_nat (base + Z.of_nat j)) with (length pre + j)%nat by lia.
  rewrite lookup_app_r by lia.
  replace (length pre + j - length pre)%nat with j by lia.
  apply lookup_app_l_Some. exact Hx.
Qed.

Lemma load_outside_window {A} (arr win : list A) (k n : nat) (j : Z) :
  length win = n → (k + n ≤ length arr)%nat →
  j < Z.of_nat k ∨ Z.of_nat (k + n) ≤ j →
  load (take k arr ++ win ++ drop (k + n) arr) j = load arr j.
Proof.
  intros Hwin Hlen Hj. unfold load.
  assert (length (take k arr ++ win ++ drop (k + n) arr) = length arr) as ->.
  { rewrite !length_app, length_take, length_drop. lia. }
  destruct ((0 <=? j) && (j <? Z.of_nat (length arr))) eqn:Hin; [|reflexivity].
  apply andb_true_iff in Hin as [H0 Hlt]. apply Z.leb_le in H0. apply Z.ltb_lt in Hlt.
  assert ((take k arr ++ win ++ drop (k + n) arr) !! Z.to_nat j = arr !! Z.to_nat j) as ->;
    [|reflexivity].
  destruct Hj as [Hj|Hj].
  - rewrite lookup_app_l by (rewrite length_take; lia).
    apply lookup_take_lt. lia.
  - rewrite lookup_app_r by (rewrite length_take; lia).
    rewrite lookup_app_r by (rewrite length_take; lia).
    rewrite lookup_drop, length_take. f_equal. lia.
Qed.

(** On [grbw_strip] the colour (1, 2, 3, 4) at pixel 0 gives the bytes
    2, 3, 1, 4: r is at offset 2 and b at offset 1. *)
Lemma grbw_layout_as_worded_fails :
  ¬ grbw_layout_as_worded grbw_strip 0 {| r := 1; g := 2; b := 3; w := 4 |}.
Proof.
  intros (strip' & Hrun & Hr & Hb).
  vm_compute in Hrun. injection Hrun as <-.
  vm_compute in Hr. discriminate Hr.
Qed.

(** C4, amended. On a strip with four bytes per pixel, writing the colour
    (r, g, b, w) at a pixel [i] of the strip puts, under RGBW, r at
    [i*4+0], g at [i*4+2], b at [i*4+1] and w at [i*4+3]; under GRBW it is
    r and g that trade places, g at [i*4+0] and r at [i*4+2], with b at
    [i*4+1] and w at [i*4+3] as before. No other byte changes. *)
Theorem set_color_data_layout (strip : led_strip_t) (index : Z) (color : led_strip_color_t) :
  enable_w_channel strip = true → buffer_sized strip → 0 ≤ index < led_count strip →
  ∃ strip',
    set_color_data strip index color = Done strip'
    ∧ (color_order strip = LED_STRIP_COLOR_ORDER_RGBW →
       load (pixel_colors strip') (index * 4 + 0) = Done (r color)
       ∧ load (pixel_colors strip') (index * 4 + 2) = Done (g color))
    ∧ (color_order strip = LED_STRIP_COLOR_ORDER_GRBW →
       load (pixel_colors strip') (index * 4 + 0) = Done (g color)
       ∧ load (pixel_colors strip') (index * 4 + 2) = Done (r color))
    ∧ load (pixel_colors strip') (index * 4 + 1) = Done (b color)
    ∧ load (pixel_colors strip') (index * 4 + 3) = Done (w color)
    ∧ ∀ j, j < index * 4 ∨ index * 4 + 4 ≤ j →
           load (pixel_colors strip') j = load (pixel_colors strip) j.
Proof.
  intros Hw Hsized Hindex. unfold buffer_sized in Hsized.
  pose proof (set_color_data_window strip index color) as Hrun.
  rewrite Hw in Hsized, Hrun. cbn [CALC_COLOR_SIZE] in Hsized, Hrun.
  specialize (Hrun ltac:(lia) ltac:(lia)).
  eexists. split; [exact Hrun|]. cbn [pixel_colors with_pixel_colors].
  set (buf := pixel_colors strip) in *.
  assert (Z.of_nat (length (take (Z.to_nat (4 * index)) buf)) = index * 4) as Hpre
    by (rewrite length_take; lia).
  assert (∀ k x, pixel_bytes strip color !! k = Some x →
                 load (take (Z.to_nat (4 * index)) buf ++ pixel_bytes strip color
                       ++ drop (Z.to_nat (4 * index + 4)) buf) (index * 4 + Z.of_nat k)
                 = Done x) as Hload.
  { intros k x Hk. now apply load_in_window. }
  unfold pixel_bytes in *. rewrite Hw in *.
  split; [|split; [|split; [|split]]].
  - intros Horder. rewrite Horder in *.
    split; [apply (Hload 0%nat)|apply (Hload 2%nat)]; reflexivity.
  - intros Horder. rewrite Horder in *.
    split; [apply (Hload 0%nat)|apply (Hload 2%nat)]; reflexivity.
  - apply (Hload 1%nat). now destruct (color_order strip =? LED_STRIP_COLOR_ORDER_GRBW).
  - apply (Hload 3%nat). now destruct (color_order strip =? LED_STRIP_COLOR_ORDER_GRBW).
  - intros j Hj.
    replace (Z.to_nat (4 * index + 4)) with (Z.to_nat (4 * index) + 4)%nat by lia.
    apply load_outside_window; [|lia|lia].
    now destruct (color_order strip =? LED_STRIP_COLOR_ORDER_GRBW).
Qed.

Lemma set_color_data_layout_grbw :
  ∃ strip',
    set_color_data grbw_strip 1 {| r := 1; g := 2; b := 3; w := 4 |} = Done strip'
    ∧ load (pixel_colors strip') 4 = Done 2
    ∧ load (pixel_colors strip') 6 = Done 1
    ∧ load (pixel_colors strip') 5 = Done 3
    ∧ load (pixel_colors strip') 7 = Done 4.
Proof.
  destruct (set_color_data_layout grbw_strip 1 {| r := 1; g := 2; b := 3; w := 4 |})
    as (strip' & Hrun & _ & Hgrbw & Hb & Hw & _).
  - reflexivity.
  - reflexivity.
  - cbn. lia.
  - exists strip'. destruct (Hgrbw eq_refl) as [Hg Hr]. repeat split; assumption.
Defined.

Lemma with_pixel_colors_twice strip buf buf' :
  with_pixel_colors (with_pixel_colors strip buf) buf' = with_pixel_colors strip buf'.
Proof. reflexivity. Qed.

(** The fill loop from pixel [i] on: [n] pixels get [pixel_bytes], one
    after the other, and the bytes after them are not written. *)
Lemma fill_from (color : led_strip_color_t) (n : nat) :
  ∀ (i : Z) (strip : led_strip_t),
    let size := CALC_COLOR_SIZE (enable_w_channel strip) in
    0 ≤ i → size * (i + Z.of_nat n) ≤ Z.of_nat (length (pixel_colors strip)) →
    for_upto n i (fun j s => set_color_data s j color) strip
    = Done (with_pixel_colors strip
              (take (Z.to_nat (size * i)) (pixel_colors strip)
               ++ concat (replicate n (pixel_bytes strip color))
               ++ drop (Z.to_nat (size * (i + Z.of_nat n))) (pixel_colors strip))).
Proof.
  induction n as [|n IH]; intros i strip size Hi Hlen.
  - cbn [for_upto replicate concat app].
    replace (i + Z.of_nat 0) with i by lia. rewrite take_drop.
    now destruct strip.
  - assert (0 < size) as Hsize
      by (subst size; unfold CALC_COLOR_SIZE; destruct (enable_w_channel strip); lia).
    cbn [for_upto]. rewrite set_color_data_window by (fold size; nia).
    fold size. cbn [mbind outcome_bind].
    set (buf := pixel_colors strip) in *.
    set (px := pixel_bytes strip color).
    assert (Z.of_nat (length px) = size) as Hpx by apply length_pixel_bytes.
    assert (length (take (Z.to_nat (size * i)) buf) = Z.to_nat (size * i)) as Hpre
      by (rewrite length_take; nia).
    rewrite IH; cbn [enable_w_channel pixel_colors with_pixel_colors]; fold size;
      [|lia|rewrite !length_app, length_drop; nia].
    rewrite with_pixel_colors_twice.
    change (pixel_bytes (with_pixel_colors strip _) color) with px.
    do 2 f_equal.
    rewrite (app_assoc (take (Z.to_nat (size * i)) buf) px).
    rewrite take_app_length' by (rewrite length_app; nia).
    replace (Z.to_nat (size * (i + 1 + Z.of_nat n)))
      with (Z.to_nat (size * (i + 1)) + Z.to_nat (size * Z.of_nat n))%nat by nia.
    rewrite drop_app_add' by (rewrite length_app; nia).
    rewrite drop_drop. cbn [replicate concat].
    rewrite <- !app_assoc.
    replace (Z.to_nat (size * i + size) + Z.to_nat (size * Z.of_nat n))%nat
      with (Z.to_nat (size * (i + Z.of_nat (S n)))) by nia.
    reflexivity.
Qed.

Lemma fill_loop_all (strip : led_strip_t) (color : led_strip_color_t) :
  let size := CALC_COLOR_SIZE (enable_w_channel strip) in
  0 ≤ led_count strip → size * led_count strip ≤ Z.of_nat (length (pixel_colors strip)) →
  fill_loop strip color
  = Done (with_pixel_colors strip
            (concat (replicate (Z.to_nat (led_count strip)) (pixel_bytes strip color))
             ++ drop (Z.to_nat (size * led_count strip)) (pixel_colors strip))).
Proof.
  intros size Hcount Hlen. unfold fill_loop.
  rewrite fill_from by (fold size; lia). fold size.
  rewrite Z.mul_0_r. change (Z.to_nat 0) with 0%nat. rewrite take_0.
  rewrite Z2Nat.id, Z.add_0_l by lia. reflexivity.
Qed.





(* ===================================================================== *)
(** * Strip controller *)
(* ===================================================================== *)

(** C8. On a live strip, for every index at or above [led_count] and every
    colour, [led_strip_set_pixel_rgb] and [led_strip_set_pixel_rgbw] return
    [ESP_ERR_INVALID_SIZE] and leave the world, the pixel buffer with it,
    as it was. *)
Theorem set_pixel_index_bound (wd : world) (handle : led_strip_handle_t) (strip : led_strip_t)
    (index red green blue white : Z) :
  handle ≠ NULL → heap wd !! handle = Some strip → led_count strip ≤ index →
  led_strip_set_pixel_rgb handle index red green blue wd = Done (ESP_ERR_INVALID_SIZE, wd)
  ∧ led_strip_set_pixel_rgbw handle index red green blue white wd
    = Done (ESP_ERR_INVALID_SIZE, wd).
Proof.
  intros Hnn Hlive Hindex.
  unfold led_strip_set_pixel_rgb, led_strip_set_pixel_rgbw.
  destruct (N.eqb_spec handle NULL); [contradiction|].
  rewrite (deref_live wd handle strip Hnn Hlive). cbn [mbind outcome_bind].
  rewrite Z.geb_leb. destruct (Z.leb_spec (led_count strip) index); [|lia].
  split; reflexivity.
Qed.

Lemma set_pixel_index_bound_demo :
  led_strip_set_pixel_rgb 1%N 5 255 255 255 rgb_world_5 = Done (ESP_ERR_INVALID_SIZE, rgb_world_5)
  ∧ led_strip_set_pixel_rgbw 1%N 5 255 255 255 255 rgb_world_5
    = Done (ESP_ERR_INVALID_SIZE, rgb_world_5).
Proof.
  apply (set_pixel_index_bound rgb_world_5 1%N rgb_strip_5 5 255 255 255 255).
  - discriminate.
  - reflexivity.
  - simpl. lia.
Defined.

(** C9. For every configuration with [led_count == 2], and a place to put
    the handle, [led_strip_install] returns [ESP_ERR_NOT_SUPPORTED]; the
    world is as before (nothing allocated, no channel marked, no call to
    the RMT driver) and so is [*new_handle]. *)
Theorem install_two_leds_not_supported `{EspIdf} (wd : world)
    (new_handle : led_strip_handle_t) (config : led_strip_config_t) :
  cfg_led_count config = 2 →
  led_strip_install (Some new_handle) (Some config) wd
  = Done (ESP_ERR_NOT_SUPPORTED, Some new_handle, wd).
Proof.
  intros Hcount. unfold led_strip_install. rewrite Hcount. reflexivity.
Qed.

Lemma install_two_leds_not_supported_esp32 :
  @led_strip_install esp32_busy (Some NULL) (Some (config_of 18 2)) boot_world
  = Done (ESP_ERR_NOT_SUPPORTED, Some NULL, boot_world).
Proof.
  apply (@install_two_leds_not_supported esp32_busy). reflexivity.
Defined.

(** The functions that check their handle return [ESP_ERR_INVALID_ARG]
    for [NULL] and touch nothing. *)
Lemma null_handle_checked `{EspIdf} (wd : world) (index red green blue white : Z)
    (done : option bool) :
  led_strip_flush NULL wd = Done (ESP_ERR_INVALID_ARG, wd)
  ∧ led_strip_flush_done NULL done wd = Done (ESP_ERR_INVALID_ARG, done, wd)
  ∧ led_strip_start_flush NULL wd = Done (ESP_ERR_INVALID_ARG, wd)
  ∧ led_strip_set_pixel_rgb NULL index red green blue wd = Done (ESP_ERR_INVALID_ARG, wd)
  ∧ led_strip_set_pixel_rgbw NULL index red green blue white wd
    = Done (ESP_ERR_INVALID_ARG, wd)
  ∧ led_strip_fill_rgb NULL red green blue wd = Done (ESP_ERR_INVALID_ARG, wd)
  ∧ led_strip_fill_rgbw NULL red green blue white wd = Done (ESP_ERR_INVALID_ARG, wd).
Proof. repeat split; reflexivity. Qed.

(** C10, at the failing inputs. [led_strip_free(NULL)] and
    [led_strip_wait_for_flush_finish(NULL)] read [handle->channel] before
    any check: a dereference of [NULL], not a return of
    [ESP_ERR_INVALID_ARG]. *)
Theorem free_and_wait_dereference_null `{EspIdf} (wd : world) :
  led_strip_free NULL wd = Fault NullDeref
  ∧ led_strip_wait_for_flush_finish NULL wd = Fault NullDeref.
Proof. split; reflexivity. Qed.

(** ** The flush flag *)

Lemma flush_flag_write_strip handle wd strip :
  handle ≠ NULL → flush_flag handle (write_strip wd handle strip) (has_flushed strip).
Proof.
  intros Hnn. split; [exact Hnn|]. exists strip. split; [|reflexivity].
  cbn. apply lookup_insert_eq.
Qed.

Lemma set_color_data_has_flushed strip index color strip' :
  set_color_data strip index color = Done strip' → has_flushed strip' = has_flushed strip.
Proof.
  unfold set_color_data.
  destruct (color_offsets _ _) as [[[r_offset g_offset] b_offset] w_offset].
  destruct (if enable_w_channel strip then _ else _) as [buf0|]; cbn; [|discriminate].
  destruct (store buf0 r_offset _) as [buf1|]; cbn; [|discriminate].
  destruct (store buf1 g_offset _) as [buf2|]; cbn; [|discriminate].
  destruct (store buf2 b_offset _) as [buf3|]; cbn; [|discriminate].
  now intros [= <-].
Qed.

Lemma for_upto_preserves {St} (P : St → Prop) (body : Z → St → outcome St) :
  (∀ i s s', P s → body i s = Done s' → P s') →
  ∀ n i s s', P s → for_upto n i body s = Done s' → P s'.
Proof.
  intros Hbody. induction n as [|n IH]; intros i s s' Hs Hrun; cbn in Hrun.
  - now injection Hrun as <-.
  - destruct (body i s) as [s1|] eqn:Hstep; cbn in Hrun; [|discriminate].
    eapply IH; [|exact Hrun]. eapply Hbody; eauto.
Qed.

Lemma fill_loop_has_flushed strip color strip' :
  fill_loop strip color = Done strip' → has_flushed strip' = has_flushed strip.
Proof.
  unfold fill_loop.
  apply (for_upto_preserves (fun s => has_flushed s = has_flushed strip)); [|reflexivity].
  intros i s s' Hs Hstep. rewrite <- Hs. eapply set_color_data_has_flushed, Hstep.
Qed.

(** The operations of [strip_op] keep the flush flag. *)
Lemma run_op_flush_flag `{EspIdf} handle op wd wd' flag :
  flush_flag handle wd flag → run_op handle op wd = Done wd' → flush_flag handle wd' flag.
Proof.
  intros (Hnn & strip & Hlive & Hflag) Hrun.
  pose proof (deref_live wd handle strip Hnn Hlive) as Hderef.
  assert (flush_flag handle wd flag) as Hsame by (split; eauto).
  destruct op; cbn [run_op] in Hrun.
  - unfold led_strip_set_pixel_rgb in Hrun.
    destruct (N.eqb_spec handle NULL); [contradiction|].
    rewrite Hderef in Hrun. cbn in Hrun.
    destruct (index >=? led_count strip); cbn in Hrun; [now injection Hrun as <-|].
    destruct (set_color_data strip index _) as [s'|] eqn:Hset; cbn in Hrun; [|discriminate].
    injection Hrun as <-. rewrite <- Hflag, <- (set_color_data_has_flushed _ _ _ _ Hset).
    now apply flush_flag_write_strip.
  - unfold led_strip_set_pixel_rgbw in Hrun.
    destruct (N.eqb_spec handle NULL); [contradiction|].
    rewrite Hderef in Hrun. cbn in Hrun.
    destruct (index >=? led_count strip); cbn in Hrun; [now injection Hrun as <-|].
    destruct (set_color_data strip index _) as [s'|] eqn:Hset; cbn in Hrun; [|discriminate].
    injection Hrun as <-. rewrite <- Hflag, <- (set_color_data_has_flushed _ _ _ _ Hset).
    now apply flush_flag_write_strip.
  - unfold led_strip_fill_rgb in Hrun.
    destruct (N.eqb_spec handle NULL); [contradiction|].
    rewrite Hderef in Hrun. cbn in Hrun.
    destruct (fill_loop strip _) as [s'|] eqn:Hfill; cbn in Hrun; [|discriminate].
    injection Hrun as <-. rewrite <- Hflag, <- (fill_loop_has_flushed _ _ _ Hfill).
    now apply flush_flag_write_strip.
  - unfold led_strip_fill_rgbw in Hrun.
    destruct (N.eqb_spec handle NULL); [contradiction|].
    rewrite Hderef in Hrun. cbn in Hrun.
    destruct (fill_loop strip _) as [s'|] eqn:Hfill; cbn in Hrun; [|discriminate].
    injection Hrun as <-. rewrite <- Hflag, <- (fill_loop_has_flushed _ _ _ Hfill).
    now apply flush_flag_write_strip.
  - unfold led_strip_flush_done in Hrun.
    destruct (N.eqb_spec handle NULL); [contradiction|].
    cbn in Hrun. rewrite Hderef in Hrun. cbn in Hrun.
    destruct (has_flushed strip) eqn:Hf; cbn in Hrun; [|now injection Hrun as <-].
    destruct (negb _ && negb _); cbn in Hrun; injection Hrun as <-;
      (split; [exact Hnn|exists strip; split; [exact Hlive|congruence]]).
  - unfold led_strip_wait_for_flush_finish in Hrun.
    rewrite Hderef in Hrun. cbn in Hrun.
    destruct (negb _); cbn in Hrun; injection Hrun as <-;
      (split; [exact Hnn|exists strip; split; [exact Hlive|exact Hflag]]).
Qed.

Lemma run_ops_flush_flag `{EspIdf} handle ops :
  ∀ wd wd' flag,
    flush_flag handle wd flag → run_ops handle ops wd = Done wd' → flush_flag handle wd' flag.
Proof.
  induction ops as [|op rest IH]; intros wd wd' flag Hflag Hrun; cbn in Hrun.
  - now injection Hrun as <-.
  - destruct (run_op handle op wd) as [wd1|] eqn:Hop; cbn in Hrun; [|discriminate].
    eapply IH; [|exact Hrun]. eapply run_op_flush_flag; eauto.
Qed.

Lemma mark_channel_heap `{EspIdf} flag chan wd wd' :
  mark_channel flag chan wd = Done wd' → heap wd' = heap wd.
Proof.
  unfold mark_channel. destruct (negb (chan =? RMT_CHANNEL_MAX)).
  - destruct (store _ chan flag) as [used|]; cbn; [|discriminate]. now intros [= <-].
  - now intros [= <-].
Qed.

Lemma run_install_calls_heap `{EspIdf} calls :
  ∀ wd, heap (snd (run_install_calls calls wd)) = heap wd.
Proof.
  induction calls as [|c rest IH]; intros wd; cbn; [reflexivity|].
  destruct (negb (_ =? ESP_OK)); [reflexivity|]. now rewrite IH.
Qed.

(** A successful [led_strip_install] hands out a live strip that has not
    flushed. *)
Lemma install_flush_flag `{EspIdf} new_handle config wd handle wd' :
  led_strip_install new_handle config wd = Done (ESP_OK, Some handle, wd') →
  flush_flag handle wd' false.
Proof.
  unfold led_strip_install.
  destruct new_handle as [h0|], config as [cfg|]; try discriminate.
  destruct (cfg_led_count cfg =? 2); [discriminate|].
  destruct (alloc_led_strip cfg wd) as [h wd1].
  destruct (N.eqb_spec h NULL) as [|Hnn]; [discriminate|].
  destruct (deref wd1 h) as [strip|]; cbn [mbind outcome_bind]; [|discriminate].
  destruct (find_empty_channel _) as [[err chan]|]; cbn [mbind outcome_bind]; [|discriminate].
  destruct (Z.eqb_spec err ESP_OK) as [->|Herr]; cbn [negb].
  2:{ intros [= -> _ _]. contradiction. }
  destruct (mark_channel_used chan _) as [wd3|] eqn:Hmark; cbn [mbind outcome_bind];
    [|discriminate].
  pose proof (run_install_calls_heap (install_calls cfg h chan) wd3) as Hheap.
  destruct (run_install_calls _ wd3) as [err2 wd4]. cbn [snd] in Hheap.
  destruct (Z.eqb_spec err2 ESP_OK) as [->|Herr2]; cbn [negb].
  2:{ unfold install_rollback. destruct (mark_channel_free _ _); cbn [mbind outcome_bind];
      [|discriminate]. intros [= -> _ _]. contradiction. }
  intros [= <- <-]. split; [exact Hnn|].
  rewrite Hheap, (mark_channel_heap _ _ _ _ Hmark). cbn [heap write_strip with_heap].
  eexists. split; [apply lookup_insert_eq|reflexivity].
Qed.

(** On a strip that has not flushed, [led_strip_flush_done] asks no one. *)
Lemma flush_done_not_flushed `{EspIdf} handle wd done :
  flush_flag handle wd false →
  led_strip_flush_done handle (Some done) wd = Done (ESP_OK, Some true, wd).
Proof.
  intros (Hnn & strip & Hlive & Hflag). unfold led_strip_flush_done.
  destruct (N.eqb_spec handle NULL); [contradiction|]. cbn.
  rewrite (deref_live wd handle strip Hnn Hlive). cbn. now rewrite Hflag.
Qed.

(** A successful [led_strip_start_flush] sets the flag. *)
Lemma start_flush_sets_flag `{EspIdf} handle wd wd' :
  led_strip_start_flush handle wd = Done (ESP_OK, wd') → flush_flag handle wd' true.
Proof.
  unfold led_strip_start_flush, flush_with.
  destruct (N.eqb_spec handle NULL) as [|Hnn]; [discriminate|].
  destruct (led_strip_flush_done handle (Some false) wd) as [[[err ready] wd1]|];
    cbn [mbind outcome_bind]; [|discriminate].
  destruct (Z.eqb_spec err ESP_OK) as [->|Herr]; cbn [negb].
  2:{ intros [= -> _]. contradiction. }
  destruct (bool_decide (ready = Some true)); cbn [negb]; [|discriminate].
  destruct (deref wd1 handle) as [strip|]; cbn [mbind outcome_bind]; [|discriminate].
  destruct (call_rmt _ wd1) as [err2 wd2].
  destruct (Z.eqb_spec err2 ESP_OK) as [->|Herr2]; cbn [negb].
  2:{ intros [= -> _]. contradiction. }
  destruct (deref wd2 handle) as [strip2|]; cbn [mbind outcome_bind]; [|discriminate].
  intros [= <-]. change true with (has_flushed (with_has_flushed strip2 true)).
  now apply flush_flag_write_strip.
Qed.

(** While the driver answers the poll with a timeout, a strip that has
    flushed starts nothing: the poll is all that reaches the driver. *)
Lemma start_flush_while_busy `{EspIdf} handle wd strip :
  handle ≠ NULL → heap wd !! handle = Some strip → has_flushed strip = true →
  rmt_driver (rmt_calls wd) (rmt_wait_tx_done (channel strip) 0) = ESP_ERR_TIMEOUT →
  led_strip_start_flush handle wd
  = Done (ESP_ERR_NOT_FINISHED, after_call (rmt_wait_tx_done (channel strip) 0) wd).
Proof.
  intros Hnn Hlive Hflag Hbusy.
  unfold led_strip_start_flush, flush_with, led_strip_flush_done.
  destruct (N.eqb_spec handle NULL); [contradiction|]. cbn.
  rewrite (deref_live wd handle strip Hnn Hlive). cbn.
  rewrite Hflag. cbn. rewrite Hbusy. reflexivity.
Qed.

(** C7. After a successful install and any run of operations other than
    flush, start_flush and free, [led_strip_flush_done] reports done.
    After a successful [led_strip_start_flush], and any such run of
    operations, a second [led_strip_start_flush] that finds the
    transmission running (the driver answers the poll without wait by
    [ESP_ERR_TIMEOUT]) returns [ESP_ERR_NOT_FINISHED], and the poll is its
    only call to the driver: no [rmt_write_sample]. *)
Theorem flush_state_law `{EspIdf} (handle : led_strip_handle_t)
    (new_handle : option led_strip_handle_t) (config : option led_strip_config_t)
    (ops ops' : list strip_op) (done : bool) (wd0 wd1 wd2 wd3 wd4 wd5 : world) :
  (led_strip_install new_handle config wd0 = Done (ESP_OK, Some handle, wd1) →
   run_ops handle ops wd1 = Done wd2 →
   led_strip_flush_done handle (Some done) wd2 = Done (ESP_OK, Some true, wd2))
  ∧ (led_strip_start_flush handle wd3 = Done (ESP_OK, wd4) →
     run_ops handle ops' wd4 = Done wd5 →
     ∃ strip,
       heap wd5 !! handle = Some strip
       ∧ (rmt_driver (rmt_calls wd5) (rmt_wait_tx_done (channel strip) 0) = ESP_ERR_TIMEOUT →
          led_strip_start_flush handle wd5
          = Done (ESP_ERR_NOT_FINISHED,
                  after_call (rmt_wait_tx_done (channel strip) 0) wd5))).
Proof.
  split.
  - intros Hinstall Hops. apply flush_done_not_flushed.
    eapply run_ops_flush_flag; [|exact Hops].
    eapply install_flush_flag, Hinstall.
  - intros Hstart Hops.
    assert (flush_flag handle wd5 true) as (Hnn & strip & Hlive & Hflag).
    { eapply run_ops_flush_flag; [|exact Hops]. eapply start_flush_sets_flag, Hstart. }
    exists strip. split; [exact Hlive|]. intros Hbusy.
    now apply start_flush_while_busy.
Qed.

Lemma flush_state_law_esp32 :
  @led_strip_flush_done esp32_busy session_handle (Some false) session_painted
  = Done (ESP_OK, Some true, session_painted)
  ∧ @led_strip_start_flush esp32_busy session_handle session_repainted
    = Done (ESP_ERR_NOT_FINISHED, after_call (rmt_wait_tx_done 0 0) session_repainted).
Proof.
  destruct (@flush_state_law esp32_busy session_handle (Some NULL) (Some (config_of 18 5))
              [op_fill_rgb 10 20 30; op_set_pixel_rgb 0 1 2 3] [op_set_pixel_rgb 1 0 0 0]
              false boot_world session_installed session_painted
              session_painted session_flushing session_repainted) as [Hidle Hbusy].
  split.
  - apply Hidle; vm_compute; reflexivity.
  - destruct Hbusy as (strip & Hlive & Hsecond); [vm_compute; reflexivity ..|].
    vm_compute in Hlive. injection Hlive as <-.
    apply Hsecond. reflexivity.
Defined.

(** ** The strip a successful install hands out *)

Lemma alloc_led_strip_zeroed `{EspIdf} config wd handle wd' :
  alloc_led_strip config wd = (handle, wd') → handle ≠ NULL →
  deref wd' handle
  = Done (with_pixel_colors zeroed_strip
            (replicate
               (Z.to_nat (size_t_wrap (cfg_led_count config
                                       * CALC_COLOR_SIZE (cfg_enable_w_channel config))))
               0)).
Proof.
  unfold alloc_led_strip.
  destruct (N.eqb_spec (heap_caps_calloc wd 1 sizeof_led_strip_t) NULL) as [|Hstruct].
  { intros [= <- _] Hnn. contradiction. }
  destruct (heap_caps_calloc _ _ 1 =? NULL)%N.
  { intros [= <- _] Hnn. contradiction. }
  intros [= <- <-] Hnn. unfold deref.
  destruct (N.eqb_spec (heap_caps_calloc wd 1 sizeof_led_strip_t) NULL); [contradiction|].
  cbn [heap write_strip with_heap]. now rewrite lookup_insert_eq.
Qed.

(** After a successful install the strip is live, sized for its pixels,
    dark, and has not flushed. *)
Lemma install_strip `{EspIdf} new_handle config wd handle wd' :
  0 ≤ cfg_led_count config < 2 ^ 16 →
  led_strip_install new_handle (Some config) wd = Done (ESP_OK, Some handle, wd') →
  handle ≠ NULL
  ∧ ∃ strip,
      heap wd' !! handle = Some strip
      ∧ led_count strip = cfg_led_count config
      ∧ enable_w_channel strip = cfg_enable_w_channel config
      ∧ color_order strip = cfg_color_order config
      ∧ led_timing strip = map_timing (timing_config config)
      ∧ has_flushed strip = false
      ∧ buffer_sized strip
      ∧ Forall (fun byte => byte = 0) (pixel_colors strip).
Proof.
  intros Hcount. unfold led_strip_install.
  destruct new_handle as [h0|]; [|discriminate].
  destruct (cfg_led_count config =? 2); [discriminate|].
  destruct (alloc_led_strip config wd) as [h wd1] eqn:Halloc.
  destruct (N.eqb_spec h NULL) as [|Hnn]; [discriminate|].
  rewrite (alloc_led_strip_zeroed config wd h wd1 Halloc Hnn). cbn [mbind outcome_bind].
  destruct (find_empty_channel _) as [[err chan]|]; cbn [mbind outcome_bind]; [|discriminate].
  destruct (Z.eqb_spec err ESP_OK) as [->|Herr]; cbn [negb].
  2:{ intros [= -> _ _]. contradiction. }
  destruct (mark_channel_used chan _) as [wd3|] eqn:Hmark; cbn [mbind outcome_bind];
    [|discriminate].
  pose proof (run_install_calls_heap (install_calls config h chan) wd3) as Hheap.
  destruct (run_install_calls _ wd3) as [err2 wd4]. cbn [snd] in Hheap.
  destruct (Z.eqb_spec err2 ESP_OK) as [->|Herr2]; cbn [negb].
  2:{ unfold install_rollback. destruct (mark_channel_free _ _); cbn [mbind outcome_bind];
      [|discriminate]. intros [= -> _ _]. contradiction. }
  intros [= <- <-]. split; [exact Hnn|].
  rewrite Hheap, (mark_channel_heap _ _ _ _ Hmark). cbn [heap write_strip with_heap].
  eexists. split; [apply lookup_insert_eq|].
  cbn [led_count enable_w_channel color_order led_timing has_flushed pixel_colors
       with_pixel_colors].
  repeat split.
  - unfold buffer_sized.
    cbn [led_count enable_w_channel pixel_colors with_pixel_colors].
    rewrite length_replicate. unfold size_t_wrap, SIZE_WIDTH.
    assert (0 ≤ cfg_led_count config * CALC_COLOR_SIZE (cfg_enable_w_channel config) < 2 ^ 32)
      by (unfold CALC_COLOR_SIZE; destruct (cfg_enable_w_channel config); lia).
    rewrite Z.mod_small by lia. lia.
  - apply Forall_replicate. reflexivity.
Qed.

(* ===================================================================== *)
(** * Channel table *)
(* ===================================================================== *)

(** The loop of [find_empty_channel] stops at the first entry that is
    [false]. *)
Lemma find_empty_channel_from_spec `{EspIdf} (used : list bool) (n : nat) :
  ∀ i : Z,
    0 ≤ i → i + Z.of_nat n ≤ Z.of_nat (length used) →
    (∃ chan,
        i ≤ chan < i + Z.of_nat n
        ∧ used !! Z.to_nat chan = Some false
        ∧ (∀ k, i ≤ k < chan → used !! Z.to_nat k = Some true)
        ∧ find_empty_channel_from n i used = Done (ESP_OK, chan))
    ∨ ((∀ k, i ≤ k < i + Z.of_nat n → used !! Z.to_nat k = Some true)
       ∧ find_empty_channel_from n i used = Done (ESP_ERR_NOT_FOUND, RMT_CHANNEL_MAX)).
Proof.
  induction n as [|n IH]; intros i Hi Hlen.
  - right. split; [intros k Hk; lia|reflexivity].
  - destruct (lookup_lt_is_Some_2 used (Z.to_nat i) ltac:(lia)) as [in_use Hin_use].
    cbn [find_empty_channel_from]. rewrite (load_in_range used i in_use Hi Hin_use).
    cbn [mbind outcome_bind]. destruct in_use; cbn [negb].
    + destruct (IH (i + 1) ltac:(lia) ltac:(lia)) as [(chan & Hchan & Hfree & Hbefore & Hrun)|[Hall Hrun]].
      * left. exists chan. split; [lia|]. split; [exact Hfree|]. split; [|exact Hrun].
        intros k Hk. destruct (Z.eq_dec k i) as [->|]; [exact Hin_use|apply Hbefore; lia].
      * right. split; [|exact Hrun].
        intros k Hk. destruct (Z.eq_dec k i) as [->|]; [exact Hin_use|apply Hall; lia].
    + left. exists i. split; [lia|]. split; [exact Hin_use|]. split; [|reflexivity].
      intros k Hk. lia.
Qed.

(** X1. On a table of [RMT_CHANNEL_MAX] entries [find_empty_channel]
    answers [ESP_OK] with the lowest channel not in use, or, when every
    channel is in use, [ESP_ERR_NOT_FOUND] with the channel left at
    [RMT_CHANNEL_MAX]. *)
Theorem find_empty_channel_lowest `{EspIdf} (wd : world) :
  Z.of_nat (length (rmt_channel_used wd)) = RMT_CHANNEL_MAX →
  (∃ chan,
      0 ≤ chan < RMT_CHANNEL_MAX
      ∧ rmt_channel_used wd !! Z.to_nat chan = Some false
      ∧ (∀ k, 0 ≤ k < chan → rmt_channel_used wd !! Z.to_nat k = Some true)
      ∧ find_empty_channel wd = Done (ESP_OK, chan))
  ∨ ((∀ k, 0 ≤ k < RMT_CHANNEL_MAX → rmt_channel_used wd !! Z.to_nat k = Some true)
     ∧ find_empty_channel wd = Done (ESP_ERR_NOT_FOUND, RMT_CHANNEL_MAX)).
Proof.
  intros Hlen. unfold find_empty_channel.
  destruct (find_empty_channel_from_spec (rmt_channel_used wd) (Z.to_nat RMT_CHANNEL_MAX) 0)
    as [(chan & Hchan & Hrest)|[Hall Hrun]]; [lia|lia| |].
  - left. exists chan. split; [lia|exact Hrest].
  - right. split; [|exact Hrun]. intros k Hk. apply Hall. lia.
Qed.

Lemma find_empty_channel_lowest_demo :
  ∃ chan, @find_empty_channel esp32_busy rgb_world_5 = Done (ESP_OK, chan) ∧ chan = 1.
Proof.
  destruct (@find_empty_channel_lowest esp32_busy rgb_world_5 eq_refl)
    as [(chan & Hchan & Hfree & Hbefore & Hrun)|[Hall Hrun]].
  - exists chan. split; [exact Hrun|]. vm_compute in Hrun. now injection Hrun as <-.
  - vm_compute in Hrun. discriminate Hrun.
Defined.

(* ===================================================================== *)
(** * Install and free *)
(* ===================================================================== *)

Lemma find_empty_channel_from_found `{EspIdf} (used : list bool) (n : nat) :
  ∀ (i chan : Z),
    0 ≤ i → find_empty_channel_from n i used = Done (ESP_OK, chan) →
    i ≤ chan < i + Z.of_nat n ∧ used !! Z.to_nat chan = Some false.
Proof.
  induction n as [|n IH]; intros i chan Hi Hrun; cbn [find_empty_channel_from] in Hrun.
  - discriminate Hrun.
  - unfold load in Hrun.
    destruct ((0 <=? i) && (i <? Z.of_nat (length used))); [|discriminate Hrun].
    destruct (used !! Z.to_nat i) as [in_use|] eqn:Hin_use; [|discriminate Hrun].
    cbn [mbind outcome_bind] in Hrun. destruct in_use; cbn [negb] in Hrun.
    + destruct (IH (i + 1) chan ltac:(lia) Hrun) as [Hchan Hfree]. split; [lia|exact Hfree].
    + injection Hrun as <-. split; [lia|exact Hin_use].
Qed.

Lemma find_empty_channel_from_status `{EspIdf} (used : list bool) (n : nat) :
  ∀ (i : Z) (err : esp_err_t) (chan : Z),
    find_empty_channel_from n i used = Done (err, chan) →
    err = ESP_OK ∨ err = ESP_ERR_NOT_FOUND.
Proof.
  induction n as [|n IH]; intros i err chan Hrun; cbn [find_empty_channel_from] in Hrun.
  - injection Hrun as <- _. now right.
  - destruct (load used i) as [in_use|]; cbn [mbind outcome_bind] in Hrun; [|discriminate Hrun].
    destruct in_use; cbn [negb] in Hrun; [exact (IH _ _ _ Hrun)|].
    injection Hrun as <- _. now left.
Qed.

(** Marking a channel and freeing it again restores a table in which it
    was free. *)
Lemma mark_used_then_free `{EspIdf} (chan : Z) (wd wd1 wd2 wd3 : world) :
  0 ≤ chan → rmt_channel_used wd !! Z.to_nat chan = Some false →
  mark_channel_used chan wd = Done wd1 →
  rmt_channel_used wd2 = rmt_channel_used wd1 →
  mark_channel_free chan wd2 = Done wd3 →
  rmt_channel_used wd3 = rmt_channel_used wd ∧ heap wd3 = heap wd2
  ∧ rmt_calls wd3 = rmt_calls wd2.
Proof.
  intros Hchan Hfree Hused Hsame Hfreed.
  unfold mark_channel_used, mark_channel_free, mark_channel in *.
  destruct (negb (chan =? RMT_CHANNEL_MAX)).
  - unfold store in *. rewrite Hsame in Hfreed.
    destruct ((0 <=? chan) && (chan <? Z.of_nat (length (rmt_channel_used wd))));
      cbn [mbind outcome_bind] in Hused; [|discriminate Hused].
    injection Hused as <-. cbn [rmt_channel_used with_rmt_channel_used] in Hfreed.
    rewrite length_insert in Hfreed.
    destruct ((0 <=? chan) && (chan <? Z.of_nat (length (rmt_channel_used wd))));
      cbn [mbind outcome_bind] in Hfreed; [|discriminate Hfreed].
    injection Hfreed as <-. cbn [rmt_channel_used with_rmt_channel_used heap rmt_calls].
    split; [|split; reflexivity].
    rewrite list_insert_insert_eq. now apply list_insert_id.
  - injection Hused as <-. injection Hfreed as <-. now rewrite Hsame.
Qed.

Lemma mark_channel_calls `{EspIdf} flag chan wd wd' :
  mark_channel flag chan wd = Done wd' → rmt_calls wd' = rmt_calls wd.
Proof.
  unfold mark_channel. destruct (negb (chan =? RMT_CHANNEL_MAX)).
  - destruct (store _ chan flag) as [used|]; cbn; [|discriminate]. now intros [= <-].
  - now intros [= <-].
Qed.

Lemma mark_channel_used_table `{EspIdf} chan wd wd' :
  0 ≤ chan < RMT_CHANNEL_MAX →
  mark_channel_used chan wd = Done wd' →
  rmt_channel_used wd' = <[Z.to_nat chan := true]> (rmt_channel_used wd).
Proof.
  intros Hchan. unfold mark_channel_used, mark_channel.
  destruct (Z.eqb_spec chan RMT_CHANNEL_MAX); [lia|]. cbn [negb]. unfold store.
  destruct ((0 <=? chan) && _); cbn [mbind outcome_bind]; [|discriminate].
  now intros [= <-].
Qed.

Lemma run_install_calls_table `{EspIdf} calls :
  ∀ wd, rmt_channel_used (snd (run_install_calls calls wd)) = rmt_channel_used wd.
Proof.
  induction calls as [|c rest IH]; intros wd; cbn; [reflexivity|].
  destruct (negb (_ =? ESP_OK)); [reflexivity|]. now rewrite IH.
Qed.

(** When all calls succeed each one reaches the driver, in order. *)
Lemma run_install_calls_ok `{EspIdf} calls :
  ∀ wd wd', run_install_calls calls wd = (ESP_OK, wd') →
            rmt_calls wd' = rev calls ++ rmt_calls wd.
Proof.
  induction calls as [|c rest IH]; intros wd wd' Hrun; cbn in Hrun.
  - now injection Hrun as <-.
  - destruct (Z.eqb_spec (rmt_driver (rmt_calls wd) c) ESP_OK) as [Hok|Hfail];
      cbn [negb] in Hrun.
    + rewrite (IH _ _ Hrun). cbn [rmt_calls rev]. now rewrite <- app_assoc.
    + injection Hrun as Herr _. contradiction.
Qed.

(** What [alloc_led_strip] does to the world. *)
Lemma alloc_led_strip_world `{EspIdf} config wd handle wd' :
  alloc_led_strip config wd = (handle, wd') →
  rmt_channel_used wd' = rmt_channel_used wd
  ∧ rmt_calls wd' = rmt_calls wd
  ∧ (handle = NULL → no_new_strip wd wd')
  ∧ (handle ≠ NULL → ∃ strip, heap wd' = <[handle := strip]> (heap wd)).
Proof.
  unfold alloc_led_strip.
  destruct (N.eqb_spec (heap_caps_calloc wd 1 sizeof_led_strip_t) NULL) as [|Hstruct].
  { intros [= <- <-]. repeat split; [now intros ? ? ?|contradiction]. }
  destruct (heap_caps_calloc _ _ 1 =? NULL)%N.
  - intros [= <- <-]. repeat split; [|contradiction].
    intros _ a s. cbn [heap with_heap write_strip].
    intros Ha. apply lookup_delete_Some in Ha as [Hne Ha].
    now rewrite lookup_insert_ne in Ha.
  - intros [= <- <-]. repeat split; [contradiction|].
    intros _. eexists. cbn [heap with_heap write_strip].
    now rewrite insert_insert_eq.
Qed.

(** The ways [led_strip_install] returns: an argument is refused; an
    allocation fails; no channel is free; a call to the driver fails and
    the channel is given back; or all succeed. *)
Lemma install_inv `{EspIdf} new_handle config wd err nh wd' :
  led_strip_install new_handle config wd = Done (err, nh, wd') →
  (nh = new_handle ∧ wd' = wd ∧ err ≠ ESP_OK)
  ∨ (∃ cfg, config = Some cfg ∧ alloc_led_strip cfg wd = (NULL, wd')
            ∧ nh = new_handle ∧ err = ESP_ERR_NO_MEM)
  ∨ (∃ cfg h wd1 strip0 chan e0,
        config = Some cfg ∧ alloc_led_strip cfg wd = (h, wd1) ∧ h ≠ NULL
        ∧ deref wd1 h = Done strip0 ∧ nh = Some h
        ∧ find_empty_channel (write_strip wd1 h (configured_strip cfg strip0)) = Done (e0, chan)
        ∧ ((e0 ≠ ESP_OK ∧ err = e0
            ∧ wd' = dealloc_led_strip h (write_strip wd1 h (configured_strip cfg strip0)))
           ∨ (e0 = ESP_OK
              ∧ ∃ wd3 err2 wd4,
                  mark_channel_used chan (write_strip wd1 h (configured_strip cfg strip0))
                  = Done wd3
                  ∧ run_install_calls (install_calls cfg h chan) wd3 = (err2, wd4)
                  ∧ ((err2 = ESP_OK ∧ err = ESP_OK ∧ wd' = wd4)
                     ∨ (err2 ≠ ESP_OK ∧ err = err2
                        ∧ mark_channel_free chan (dealloc_led_strip h wd4) = Done wd'))))).
Proof.
  unfold led_strip_install.
  destruct new_handle as [h0|], config as [cfg|];
    try (intros [= <- <- <-]; left; repeat split; discriminate).
  destruct (cfg_led_count cfg =? 2).
  { intros [= <- <- <-]. left. repeat split. discriminate. }
  destruct (alloc_led_strip cfg wd) as [h wd1] eqn:Halloc.
  destruct (N.eqb_spec h NULL) as [->|Hnn].
  { intros [= <- <- <-]. right. left. exists cfg. repeat split. exact Halloc. }
  destruct (deref wd1 h) as [strip0|] eqn:Hderef; cbn [mbind outcome_bind]; [|discriminate].
  change {| channel := channel strip0;
            led_timing := map_timing (timing_config cfg);
            color_order := cfg_color_order cfg;
            pixel_colors := pixel_colors strip0;
            led_count := cfg_led_count cfg;
            enable_w_channel := cfg_enable_w_channel cfg;
            has_flushed := false |} with (configured_strip cfg strip0).
  set (wd2 := write_strip wd1 h (configured_strip cfg strip0)).
  destruct (find_empty_channel wd2) as [[e0 chan]|] eqn:Hfind; cbn [mbind outcome_bind];
    [|discriminate].
  intros Hrun. right. right. exists cfg, h, wd1, strip0, chan, e0.
  destruct (Z.eqb_spec e0 ESP_OK) as [->|He0]; cbn [negb] in Hrun.
  - destruct (mark_channel_used chan wd2) as [wd3|] eqn:Hmark; cbn [mbind outcome_bind] in Hrun;
      [|discriminate Hrun].
    destruct (run_install_calls (install_calls cfg h chan) wd3) as [err2 wd4] eqn:Hcalls.
    destruct (Z.eqb_spec err2 ESP_OK) as [->|Herr2]; cbn [negb] in Hrun.
    + injection Hrun as <- <- <-. repeat split; try assumption.
      right. split; [reflexivity|]. exists wd3, ESP_OK, wd4. repeat split; try assumption.
      now left.
    + unfold install_rollback in Hrun.
      destruct (mark_channel_free chan (dealloc_led_strip h wd4)) as [wd5|] eqn:Hfree;
        cbn [mbind outcome_bind] in Hrun; [|discriminate Hrun].
      injection Hrun as <- <- <-. repeat split; try assumption.
      right. split; [reflexivity|]. exists wd3, err2, wd4. repeat split; try assumption.
      right. repeat split; assumption.
  - injection Hrun as <- <- <-. repeat split; try assumption.
    left. repeat split; assumption.
Qed.

Lemma dealloc_led_strip_live handle wd :
  handle ≠ NULL →
  heap (dealloc_led_strip handle wd) = delete handle (heap wd)
  ∧ rmt_channel_used (dealloc_led_strip handle wd) = rmt_channel_used wd
  ∧ rmt_calls (dealloc_led_strip handle wd) = rmt_calls wd.
Proof.
  intros Hnn. unfold dealloc_led_strip.
  destruct (N.eqb_spec handle NULL); [contradiction|]. repeat split.
Qed.

(** What a failed install leaves behind. *)
Lemma install_failure_world `{EspIdf} new_handle config wd err nh wd' :
  led_strip_install new_handle config wd = Done (err, nh, wd') → err ≠ ESP_OK →
  rmt_channel_used wd' = rmt_channel_used wd
  ∧ no_new_strip wd wd'
  ∧ (nh = new_handle ∨ ∃ handle, nh = Some handle ∧ handle ≠ NULL ∧ heap wd' !! handle = None).
Proof.
  intros Hrun Herr.
  destruct (install_inv _ _ _ _ _ _ Hrun)
    as [(-> & -> & _)|[(cfg & -> & Halloc & -> & ->)
                      |(cfg & h & wd1 & strip0 & chan & e0 & -> & Halloc & Hnn & Hderef & ->
                        & Hfind & Hpath)]].
  - repeat split; [now intros ? ? ?|now left].
  - destruct (alloc_led_strip_world _ _ _ _ Halloc) as (Htable & _ & Hnull & _).
    repeat split; [exact Htable|now apply Hnull|now left].
  - destruct (alloc_led_strip_world _ _ _ _ Halloc) as (Htable & _ & _ & Hlive).
    destruct (Hlive Hnn) as [strip1 Hheap].
    set (wd2 := write_strip wd1 h (configured_strip cfg strip0)) in *.
    assert (∀ wdx, heap wdx = heap wd2 →
                   no_new_strip wd (dealloc_led_strip h wdx)
                   ∧ heap (dealloc_led_strip h wdx) !! h = None) as Hfreed.
    { intros wdx Hx. unfold no_new_strip.
      destruct (dealloc_led_strip_live h wdx Hnn) as (-> & _ & _). rewrite Hx.
      subst wd2. cbn [heap write_strip with_heap]. rewrite Hheap.
      split; [|apply lookup_delete_eq].
      intros a s Ha. apply lookup_delete_Some in Ha as [Hne Ha].
      now rewrite !lookup_insert_ne in Ha. }
    destruct Hpath as [(He0 & -> & ->)|(-> & wd3 & err2 & wd4 & Hmark & Hcalls & Hend)].
    + destruct (Hfreed wd2 eq_refl) as [Hnone Hgone].
      destruct (dealloc_led_strip_live h wd2 Hnn) as (_ & Htab & _).
      repeat split; [now rewrite Htab|exact Hnone|].
      right. exists h. repeat split; assumption.
    + destruct Hend as [(_ & -> & _)|(Herr2 & -> & Hfree)]; [contradiction|].
      pose proof (run_install_calls_heap (install_calls cfg h chan) wd3) as Hheap4.
      pose proof (run_install_calls_table (install_calls cfg h chan) wd3) as Htab4.
      rewrite Hcalls in Hheap4, Htab4. cbn [snd] in Hheap4, Htab4.
      destruct (find_empty_channel_from_found _ _ _ _ (Z.le_refl 0) Hfind) as [Hchan Hwasfree].
      destruct (dealloc_led_strip_live h wd4 Hnn) as (_ & Htabd & _).
      destruct (mark_used_then_free chan wd2 wd3 (dealloc_led_strip h wd4) wd'
                  ltac:(lia) Hwasfree Hmark ltac:(now rewrite Htabd) Hfree)
        as (Htab' & Hheap' & _).
      destruct (Hfreed wd4) as [Hnone Hgone].
      { rewrite Hheap4. exact (mark_channel_heap _ _ _ _ Hmark). }
      repeat split.
      * rewrite Htab'. exact Htable.
      * intros a s. rewrite Hheap'. apply Hnone.
      * right. exists h. repeat split; [exact Hnn|]. now rewrite Hheap'.
Qed.

(** X2. An install that fails, for whatever reason, gives back what it
    took: the channel table is as before the call, and no strip is live
    that was not live before. *)
Theorem install_failure_releases `{EspIdf} (new_handle : option led_strip_handle_t)
    (config : option led_strip_config_t) (wd wd' : world) (err : esp_err_t)
    (nh : option led_strip_handle_t) :
  led_strip_install new_handle config wd = Done (err, nh, wd') → err ≠ ESP_OK →
  rmt_channel_used wd' = rmt_channel_used wd ∧ no_new_strip wd wd'.
Proof.
  intros Hrun Herr.
  destruct (install_failure_world _ _ _ _ _ _ Hrun Herr) as (Htable & Hheap & _).
  now split.
Qed.

Lemma install_failure_releases_demo :
  ∃ wd',
    @led_strip_install esp32_no_driver (Some NULL) (Some (config_of 18 5)) boot_world
    = Done (ESP_ERR_INVALID_STATE, Some 0x3ffb1000%N, wd')
    ∧ rmt_channel_used wd' = rmt_channel_used boot_world ∧ no_new_strip boot_world wd'.
Proof.
  eexists. split; [vm_compute; reflexivity|].
  eapply (@install_failure_releases esp32_no_driver (Some NULL) (Some (config_of 18 5))).
  - vm_compute. reflexivity.
  - discriminate.
Defined.

(** X3. When install fails after it has allocated the strip (no channel
    free, or a driver call failed), [*new_handle] has already been written:
    it holds a handle that is not live any more. Before that point
    [*new_handle] is untouched. *)
Theorem install_failure_handle `{EspIdf} (new_handle : option led_strip_handle_t)
    (config : option led_strip_config_t) (wd wd' : world) (err : esp_err_t)
    (nh : option led_strip_handle_t) :
  led_strip_install new_handle config wd = Done (err, nh, wd') → err ≠ ESP_OK →
  nh = new_handle
  ∨ ∃ handle, nh = Some handle ∧ handle ≠ NULL ∧ heap wd' !! handle = None
              ∧ ∀ index red green blue,
                  led_strip_set_pixel_rgb handle index red green blue wd'
                  = Fault DanglingDeref.
Proof.
  intros Hrun Herr.
  destruct (install_failure_world _ _ _ _ _ _ Hrun Herr) as (_ & _ & [Hsame|Hdangling]).
  - now left.
  - right. destruct Hdangling as (handle & -> & Hnn & Hgone).
    exists handle. repeat split; try assumption.
    intros index red green blue. unfold led_strip_set_pixel_rgb, deref.
    destruct (N.eqb_spec handle NULL); [contradiction|]. now rewrite Hgone.
Qed.

Lemma install_failure_handle_demo :
  ∃ wd',
    @led_strip_install esp32_busy (Some NULL) (Some (config_of 18 5)) crowded_world
    = Done (ESP_ERR_NOT_FOUND, Some 0x3ffb1000%N, wd')
    ∧ heap wd' !! 0x3ffb1000%N = None.
Proof.
  eexists. split; [vm_compute; reflexivity|].
  destruct (@install_failure_handle esp32_busy (Some NULL) (Some (config_of 18 5))
              crowded_world
              (world_of (@led_strip_install esp32_busy (Some NULL) (Some (config_of 18 5))
                           crowded_world))
              ESP_ERR_NOT_FOUND (Some 0x3ffb1000%N))
    as [Hsame|(handle & Hhandle & _ & Hgone & _)].
  - vm_compute. reflexivity.
  - discriminate.
  - discriminate Hsame.
  - injection Hhandle as <-. vm_compute. reflexivity.
Defined.

(** What a successful install leaves: the channel it found, marked and
    configured, and a strip whose [channel] is still the 0 of calloc. *)
Lemma install_success_world `{EspIdf} new_handle config wd handle wd' :
  led_strip_install new_handle (Some config) wd = Done (ESP_OK, Some handle, wd') →
  ∃ chan strip,
    find_empty_channel wd = Done (ESP_OK, chan)
    ∧ 0 ≤ chan < RMT_CHANNEL_MAX
    ∧ rmt_channel_used wd !! Z.to_nat chan = Some false
    ∧ rmt_channel_used wd' = <[Z.to_nat chan := true]> (rmt_channel_used wd)
    ∧ rmt_calls wd' = rev (install_calls config handle chan) ++ rmt_calls wd
    ∧ heap wd' !! handle = Some strip
    ∧ channel strip = 0.
Proof.
  intros Hrun.
  destruct (install_inv _ _ _ _ _ _ Hrun)
    as [(_ & _ & Hne)|[(cfg & _ & _ & _ & [=])
                      |(cfg & h & wd1 & strip0 & chan & e0 & [= <-] & Halloc & Hnn & Hderef
                        & [= <-] & Hfind & Hpath)]]; [contradiction|].
  destruct Hpath as [(He0 & <- & _)|(-> & wd3 & err2 & wd4 & Hmark & Hcalls & Hend)];
    [contradiction|].
  destruct Hend as [(-> & _ & ->)|(Herr2 & <- & _)]; [|contradiction].
  destruct (alloc_led_strip_world _ _ _ _ Halloc) as (Htable & Hlog & _ & _).
  rewrite (alloc_led_strip_zeroed _ _ _ _ Halloc Hnn) in Hderef. injection Hderef as <-.
  set (wd2 := write_strip wd1 handle _) in *.
  assert (find_empty_channel wd = Done (ESP_OK, chan)) as Hfind0.
  { unfold find_empty_channel in *. now rewrite <- Htable. }
  destruct (find_empty_channel_from_found _ _ _ _ (Z.le_refl 0) Hfind0) as [Hchan Hwasfree].
  pose proof (run_install_calls_heap (install_calls config handle chan) wd3) as Hheap4.
  pose proof (run_install_calls_table (install_calls config handle chan) wd3) as Htab4.
  rewrite Hcalls in Hheap4, Htab4. cbn [snd] in Hheap4, Htab4.
  assert (0 ≤ chan < RMT_CHANNEL_MAX) as Hrange by lia.
  eexists chan, _. split; [exact Hfind0|]. split; [exact Hrange|]. split; [exact Hwasfree|].
  split; [|split; [|split]].
  - rewrite Htab4, (mark_channel_used_table chan wd2 wd3 Hrange Hmark).
    subst wd2. cbn [rmt_channel_used write_strip with_heap]. now rewrite Htable.
  - rewrite (run_install_calls_ok _ _ _ Hcalls), (mark_channel_calls _ _ _ _ Hmark).
    subst wd2. cbn [rmt_calls write_strip with_heap]. now rewrite Hlog.
  - rewrite Hheap4, (mark_channel_heap _ _ _ _ Hmark).
    subst wd2. cbn [heap write_strip with_heap]. apply lookup_insert_eq.
  - reflexivity.
Qed.

(** X5. A successful install takes the channel [find_empty_channel]
    finds, the lowest free one: it marks it in the table and makes its six
    driver calls for it, in the order of the source. The struct's own [channel] field is never assigned: it stays
    0, so it differs from the channel configured whenever channel 0 was
    already in use. *)
Theorem install_takes_lowest_channel `{EspIdf} (new_handle : option led_strip_handle_t)
    (config : led_strip_config_t) (wd wd' : world) (handle : led_strip_handle_t) :
  led_strip_install new_handle (Some config) wd = Done (ESP_OK, Some handle, wd') →
  ∃ chan strip,
    find_empty_channel wd = Done (ESP_OK, chan)
    ∧ rmt_channel_used wd' = <[Z.to_nat chan := true]> (rmt_channel_used wd)
    ∧ rmt_calls wd'
      = [ rmt_set_tx_intr_en RMT_CHANNEL_0 false;
          rmt_set_tx_loop_mode chan false;
          rmt_translator_set_context chan handle;
          rmt_translator_init chan;
          rmt_driver_install chan 0 0;
          rmt_config (gpio_output_num config) chan LED_STRIP_CLOCK_DIVIDER ]
        ++ rmt_calls wd
    ∧ heap wd' !! handle = Some strip
    ∧ channel strip = 0
    ∧ (rmt_channel_used wd !! 0%nat = Some true → chan ≠ channel strip).
Proof.
  intros Hrun.
  destruct (install_success_world _ _ _ _ _ Hrun)
    as (chan & strip & Hfind & Hchan & Hwasfree & Htable & Hlog & Hlive & Hzero).
  exists chan, strip. repeat split; try assumption.
  intros Htaken Heq. rewrite Hzero in Heq. subst chan.
  change (Z.to_nat 0) with 0%nat in Hwasfree. congruence.
Qed.

(** X6. The channel a successful install took is not handed out again:
    the next search of the table passes it by. *)
Theorem install_channel_not_reused `{EspIdf} (new_handle : option led_strip_handle_t)
    (config : led_strip_config_t) (wd wd' : world) (handle : led_strip_handle_t) :
  led_strip_install new_handle (Some config) wd = Done (ESP_OK, Some handle, wd') →
  ∃ chan,
    find_empty_channel wd = Done (ESP_OK, chan)
    ∧ ∀ chan', find_empty_channel wd' = Done (ESP_OK, chan') → chan' ≠ chan.
Proof.
  intros Hrun.
  destruct (install_success_world _ _ _ _ _ Hrun)
    as (chan & strip & Hfind & Hchan & Hwasfree & Htable & _).
  exists chan. split; [exact Hfind|]. intros chan' Hfind' ->.
  destruct (find_empty_channel_from_found _ _ _ _ (Z.le_refl 0) Hfind') as [_ Hfree'].
  rewrite Htable, list_lookup_insert_eq in Hfree'; [discriminate|].
  now apply lookup_lt_Some in Hwasfree.
Qed.

Lemma install_takes_lowest_channel_demo :
  ∃ wd' strip,
    @led_strip_install esp32_busy (Some NULL) (Some (config_of 18 5)) one_taken_world
    = Done (ESP_OK, Some session_handle, wd')
    ∧ @find_empty_channel esp32_busy one_taken_world = Done (ESP_OK, 1)
    ∧ heap wd' !! session_handle = Some strip ∧ channel strip = 0.
Proof.
  destruct (@install_takes_lowest_channel esp32_busy (Some NULL) (config_of 18 5)
              one_taken_world
              (world_of (@led_strip_install esp32_busy (Some NULL) (Some (config_of 18 5))
                           one_taken_world))
              session_handle)
    as (chan & strip & Hfind & _ & _ & Hlive & Hzero & _).
  - vm_compute. reflexivity.
  - eexists _, strip. split; [vm_compute; reflexivity|].
    split; [vm_compute; reflexivity|]. split; [exact Hlive|exact Hzero].
Defined.

Lemma install_channel_not_reused_demo :
  ∃ chan,
    @find_empty_channel esp32_busy boot_world = Done (ESP_OK, chan)
    ∧ ∀ chan', @find_empty_channel esp32_busy session_installed = Done (ESP_OK, chan') →
               chan' ≠ chan.
Proof.
  apply (@install_channel_not_reused esp32_busy (Some NULL) (config_of 18 5)
           boot_world session_installed session_handle).
  vm_compute. reflexivity.
Defined.

Lemma deref_inv (wd : world) (handle : led_strip_handle_t) (strip : led_strip_t) :
  deref wd handle = Done strip → handle ≠ NULL ∧ heap wd !! handle = Some strip.
Proof.
  unfold deref. destruct (N.eqb_spec handle NULL); [discriminate|].
  destruct (heap wd !! handle); [|discriminate]. now intros [= ->].
Qed.

(** The ways [led_strip_free] returns. *)
Lemma free_inv `{EspIdf} handle wd err wd' :
  led_strip_free handle wd = Done (err, wd') →
  handle ≠ NULL
  ∧ ∃ strip,
      heap wd !! handle = Some strip
      ∧ let uninstall := rmt_driver_uninstall (channel strip) in
        (rmt_driver (rmt_calls wd) uninstall ≠ ESP_OK
         ∧ err = rmt_driver (rmt_calls wd) uninstall
         ∧ wd' = after_call uninstall wd)
        ∨ (rmt_driver (rmt_calls wd) uninstall = ESP_OK
           ∧ err = ESP_OK
           ∧ ∃ wdm, mark_channel_free (channel strip) (after_call uninstall wd) = Done wdm
                    ∧ wd' = dealloc_led_strip handle wdm).
Proof.
  unfold led_strip_free.
  destruct (deref wd handle) as [strip|] eqn:Hderef; cbn [mbind outcome_bind]; [|discriminate].
  destruct (deref_inv _ _ _ Hderef) as [Hnn Hlive].
  unfold call_rmt. fold (after_call (rmt_driver_uninstall (channel strip)) wd).
  intros Hrun. split; [exact Hnn|]. exists strip. split; [exact Hlive|]. cbn zeta.
  destruct (Z.eqb_spec (rmt_driver (rmt_calls wd) (rmt_driver_uninstall (channel strip))) ESP_OK)
    as [Hok|Hfail]; cbn [negb] in Hrun.
  - right. split; [exact Hok|].
    assert (deref (after_call (rmt_driver_uninstall (channel strip)) wd) handle = Done strip)
      as Hderef' by exact Hderef.
    rewrite Hderef' in Hrun. cbn [mbind outcome_bind] in Hrun.
    destruct (mark_channel_free _ _) as [wdm|] eqn:Hmark; cbn [mbind outcome_bind] in Hrun;
      [|discriminate Hrun].
    injection Hrun as <- <-. split; [reflexivity|]. now exists wdm.
  - left. injection Hrun as <- <-. repeat split. exact Hfail.
Qed.

(** X7. When the driver refuses the uninstall, [led_strip_free] returns the
    driver's status and releases nothing: the strip is still live with its
    pixels, and the channel table is as it was, so the call can be
    repeated. *)
Theorem free_failure_keeps_strip `{EspIdf} (handle : led_strip_handle_t) (wd wd' : world)
    (err : esp_err_t) :
  led_strip_free handle wd = Done (err, wd') → err ≠ ESP_OK →
  heap wd' = heap wd
  ∧ rmt_channel_used wd' = rmt_channel_used wd
  ∧ ∃ strip, heap wd' !! handle = Some strip
             ∧ rmt_calls wd' = rmt_driver_uninstall (channel strip) :: rmt_calls wd
             ∧ err = rmt_driver (rmt_calls wd) (rmt_driver_uninstall (channel strip)).
Proof.
  intros Hrun Herr.
  destruct (free_inv _ _ _ _ Hrun) as (Hnn & strip & Hlive & [(Hfail & -> & ->)|(_ & -> & _)]);
    [|contradiction].
  repeat split. exists strip. repeat split. exact Hlive.
Qed.

(** X8. Install, then free. The free uninstalls the driver of channel 0
    and clears entry 0 of the table, whichever channel the install had
    taken, since [handle->channel] is 0: the table is back as it was when
    that channel was 0, and otherwise the channel taken stays marked and
    entry 0, another strip's, is cleared. The strip is gone: a later
    operation on the handle dereferences freed memory. *)
Theorem install_then_free `{EspIdf} (new_handle : option led_strip_handle_t)
    (config : led_strip_config_t) (wd wd1 wd2 : world) (handle : led_strip_handle_t) :
  led_strip_install new_handle (Some config) wd = Done (ESP_OK, Some handle, wd1) →
  led_strip_free handle wd1 = Done (ESP_OK, wd2) →
  ∃ chan,
    find_empty_channel wd = Done (ESP_OK, chan)
    ∧ rmt_calls wd2 = rmt_driver_uninstall 0 :: rmt_calls wd1
    ∧ rmt_channel_used wd2
      = <[0%nat := false]> (<[Z.to_nat chan := true]> (rmt_channel_used wd))
    ∧ (chan = 0 → rmt_channel_used wd2 = rmt_channel_used wd)
    ∧ (chan ≠ 0 → rmt_channel_used wd2 !! Z.to_nat chan = Some true
                  ∧ rmt_channel_used wd2 !! 0%nat = Some false)
    ∧ heap wd2 = delete handle (heap wd1)
    ∧ (∀ index red green blue,
         led_strip_set_pixel_rgb handle index red green blue wd2 = Fault DanglingDeref)
    ∧ led_strip_free handle wd2 = Fault DanglingDeref.
Proof.
  intros Hinstall Hfree.
  destruct (install_success_world _ _ _ _ _ Hinstall)
    as (chan & strip & Hfind & Hchan & Hwasfree & Htable & _ & Hlive & Hzero).
  destruct (free_inv _ _ _ _ Hfree) as (Hnn & strip' & Hlive' & Hpath).
  rewrite Hlive in Hlive'. injection Hlive' as <-. rewrite Hzero in Hpath. cbn zeta in Hpath.
  destruct Hpath as [(Hfail & Herr & _)|(_ & _ & wdm & Hmark & ->)]; [congruence|].
  apply lookup_lt_Some in Hwasfree as Hlt.
  unfold mark_channel_free, mark_channel in Hmark.
  destruct (Z.eqb_spec 0 RMT_CHANNEL_MAX); [lia|]. cbn [negb] in Hmark.
  rewrite store_in_range in Hmark
    by (cbn [rmt_channel_used after_call]; rewrite Htable, length_insert; lia).
  cbn [mbind outcome_bind] in Hmark. injection Hmark as Hwdm.
  assert (rmt_channel_used wdm = <[0%nat := false]> (rmt_channel_used wd1)
          ∧ heap wdm = heap wd1
          ∧ rmt_calls wdm = rmt_driver_uninstall 0 :: rmt_calls wd1) as (Hwt & Hwh & Hwl)
    by (subst wdm; repeat split).
  clear Hwdm.
  destruct (dealloc_led_strip_live handle wdm Hnn) as (Hheap & Htab & Hlog).
  assert (heap (dealloc_led_strip handle wdm) !! handle = None) as Hgone
    by (rewrite Hheap; apply lookup_delete_eq).
  exists chan. split; [exact Hfind|]. split; [now rewrite Hlog|].
  rewrite Htab, Hwt, Htable.
  split; [reflexivity|]. split; [|split; [|split; [|split]]].
  - intros ->. change (Z.to_nat 0) with 0%nat in *.
    rewrite list_insert_insert_eq. now apply list_insert_id.
  - intros Hne. split.
    + rewrite list_lookup_insert_ne by lia. apply list_lookup_insert_eq. exact Hlt.
    + apply list_lookup_insert_eq. rewrite length_insert. lia.
  - now rewrite Hheap, Hwh.
  - intros index red green blue. unfold led_strip_set_pixel_rgb, deref.
    destruct (N.eqb_spec handle NULL); [contradiction|]. now rewrite Hgone.
  - unfold led_strip_free, deref.
    destruct (N.eqb_spec handle NULL); [contradiction|]. now rewrite Hgone.
Qed.

Lemma free_failure_keeps_strip_demo :
  ∃ wd',
    @led_strip_free esp32_no_uninstall 1%N rgb_world_5 = Done (ESP_ERR_INVALID_STATE, wd')
    ∧ heap wd' = heap rgb_world_5
    ∧ rmt_channel_used wd' = rmt_channel_used rgb_world_5.
Proof.
  eexists. split; [vm_compute; reflexivity|].
  destruct (@free_failure_keeps_strip esp32_no_uninstall 1%N rgb_world_5
              (world_of (@led_strip_free esp32_no_uninstall 1%N rgb_world_5))
              ESP_ERR_INVALID_STATE) as (Hheap & Htable & _).
  - vm_compute. reflexivity.
  - discriminate.
  - split; [exact Hheap|exact Htable].
Defined.

Lemma install_then_free_demo :
  rmt_channel_used one_taken_world = true :: replicate 7 false
  ∧ rmt_channel_used second_freed = false :: true :: replicate 6 false.
Proof.
  split; [reflexivity|].
  destruct (@install_then_free esp32_busy (Some NULL) (config_of 18 5)
              one_taken_world second_installed second_freed session_handle)
    as (chan & Hfind & _ & Htable & _).
  - vm_compute. reflexivity.
  - vm_compute. reflexivity.
  - rewrite Htable. vm_compute in Hfind. injection Hfind as <-. reflexivity.
Defined.

(* ===================================================================== *)
(** * Setting and filling pixels *)
(* ===================================================================== *)

Lemma lookup_outside_window {A} (arr win : list A) (k n j : nat) :
  length win = n → (k + n ≤ length arr)%nat → (j < k ∨ k + n ≤ j)%nat →
  (take k arr ++ win ++ drop (k + n) arr) !! j = arr !! j.
Proof.
  intros Hwin Hlen [Hj|Hj].
  - rewrite lookup_app_l by (rewrite length_take; lia). apply lookup_take_lt. lia.
  - rewrite lookup_app_r by (rewrite length_take; lia).
    rewrite lookup_app_r by (rewrite length_take; lia).
    rewrite lookup_drop, length_take. f_equal. lia.
Qed.

Lemma lookup_take_drop {A} (l : list A) (k n i : nat) :
  take n (drop k l) !! i = if decide (i < n)%nat then l !! (k + i)%nat else None.
Proof.
  destruct (decide (i < n)%nat).
  - rewrite lookup_take_lt by lia. apply lookup_drop.
  - apply lookup_take_ge. lia.
Qed.

(** A slice of the array away from an overwritten window is unchanged. *)
Lemma slice_outside_window {A} (arr win : list A) (a n k m : nat) :
  length win = n → (a + n ≤ length arr)%nat → (k + m ≤ a ∨ a + n ≤ k)%nat →
  take m (drop k (take a arr ++ win ++ drop (a + n) arr)) = take m (drop k arr).
Proof.
  intros Hwin Hlen Hk. apply list_eq. intros i. rewrite !lookup_take_drop.
  destruct (decide (i < m)%nat); [|reflexivity].
  apply lookup_outside_window; [exact Hwin|exact Hlen|lia].
Qed.

(** The slice at an overwritten window is the window. *)
Lemma slice_at_window {A} (arr win : list A) (a n : nat) :
  length win = n → (a + n ≤ length arr)%nat →
  take n (drop a (take a arr ++ win ++ drop (a + n) arr)) = win.
Proof.
  intros Hwin Hlen.
  rewrite drop_app_length' by (rewrite length_take; lia).
  now apply take_app_length'.
Qed.

(** The bytes of a pixel do not depend on [w] on a strip without W
    channel. *)
Lemma pixel_bytes_no_w (strip : led_strip_t) (color color' : led_strip_color_t) :
  r color' = r color → g color' = g color → b color' = b color →
  (enable_w_channel strip = true → w color' = w color) →
  pixel_bytes strip color' = pixel_bytes strip color.
Proof.
  intros Hr Hg Hb Hw. unfold pixel_bytes. rewrite Hr, Hg, Hb.
  destruct (enable_w_channel strip); [|reflexivity]. now rewrite Hw.
Qed.

Lemma set_pixel_rgbw_in_range (wd : world) (handle : led_strip_handle_t) (strip : led_strip_t)
    (index red green blue white : Z) :
  handle ≠ NULL → heap wd !! handle = Some strip → buffer_sized strip →
  0 ≤ index < led_count strip →
  led_strip_set_pixel_rgbw handle index red green blue white wd
  = Done (ESP_OK,
          write_strip wd handle
            (with_pixel strip index {| r := red; g := green; b := blue; w := white |})).
Proof.
  intros Hnn Hlive Hsized Hindex. unfold led_strip_set_pixel_rgbw, buffer_sized in *.
  destruct (N.eqb_spec handle NULL); [contradiction|].
  rewrite (deref_live wd handle strip Hnn Hlive). cbn [mbind outcome_bind].
  rewrite Z.geb_leb. destruct (Z.leb_spec (led_count strip) index); [lia|].
  assert (0 < CALC_COLOR_SIZE (enable_w_channel strip))
    by (unfold CALC_COLOR_SIZE; destruct (enable_w_channel strip); lia).
  rewrite set_color_data_window by nia. cbn [mbind outcome_bind].
  unfold with_pixel.
  rewrite (pixel_bytes_no_w strip {| r := red; g := green; b := blue; w := white |}
             (if negb (enable_w_channel strip)
              then convert_from_rgbw_to_rgb {| r := red; g := green; b := blue; w := white |}
              else {| r := red; g := green; b := blue; w := white |}));
    [reflexivity|..]; destruct (enable_w_channel strip); try reflexivity; discriminate.
Qed.

Lemma set_pixel_rgb_as_rgbw (wd : world) (handle : led_strip_handle_t)
    (index red green blue : Z) :
  led_strip_set_pixel_rgb handle index red green blue wd
  = led_strip_set_pixel_rgbw handle index red green blue 0 wd.
Proof.
  unfold led_strip_set_pixel_rgb, led_strip_set_pixel_rgbw.
  destruct (handle =? NULL)%N; [reflexivity|].
  destruct (deref wd handle) as [strip|]; cbn [mbind outcome_bind]; [|reflexivity].
  destruct (index >=? led_count strip); [reflexivity|].
  now destruct (enable_w_channel strip).
Qed.

Lemma CALC_COLOR_SIZE_pos (enable_w : bool) : 0 < CALC_COLOR_SIZE enable_w.
Proof. destruct enable_w; reflexivity. Qed.

(** X9. On a live strip whose buffer has its size, setting a pixel in range
    returns [ESP_OK] and changes the bytes of that pixel and nothing else:
    the pixel reads back the colour in buffer order, every other pixel
    keeps its bytes, the buffer keeps its length, and configuration and
    flush flag are untouched. *)
Theorem set_pixel_writes_one_pixel (wd : world) (handle : led_strip_handle_t)
    (strip : led_strip_t) (index red green blue white : Z) :
  handle ≠ NULL → heap wd !! handle = Some strip → buffer_sized strip →
  0 ≤ index < led_count strip →
  ∃ strip',
    led_strip_set_pixel_rgbw handle index red green blue white wd
    = Done (ESP_OK, write_strip wd handle strip')
    ∧ pixel_at strip' index
      = pixel_bytes strip {| r := red; g := green; b := blue; w := white |}
    ∧ (∀ j, 0 ≤ j → j ≠ index → pixel_at strip' j = pixel_at strip j)
    ∧ same_config strip strip'
    ∧ has_flushed strip' = has_flushed strip
    ∧ buffer_sized strip'.
Proof.
  intros Hnn Hlive Hsized Hindex.
  eexists. split; [apply (set_pixel_rgbw_in_range wd handle strip); assumption|].
  set (color := {| r := red; g := green; b := blue; w := white |}).
  pose proof (CALC_COLOR_SIZE_pos (enable_w_channel strip)) as Hsize.
  pose proof (length_pixel_bytes strip color) as Hpx.
  unfold buffer_sized in Hsized.
  unfold pixel_at, with_pixel. cbn [enable_w_channel pixel_colors with_pixel_colors].
  set (size := CALC_COLOR_SIZE (enable_w_channel strip)) in *.
  replace (Z.to_nat (size * index + size)) with (Z.to_nat (size * index) + Z.to_nat size)%nat
    by lia.
  assert (Z.to_nat (size * index) + Z.to_nat size ≤ length (pixel_colors strip))%nat by nia.
  split; [|split; [|split; [|split]]].
  - apply slice_at_window; lia.
  - intros j Hj Hne. apply slice_outside_window; [lia|lia|nia].
  - unfold same_config. cbn. repeat split.
    rewrite !length_app, length_take, length_drop. lia.
  - reflexivity.
  - unfold buffer_sized. cbn [enable_w_channel pixel_colors with_pixel_colors led_count].
    rewrite !length_app, length_take, length_drop. fold size. lia.
Qed.

Lemma set_pixel_writes_one_pixel_demo :
  ∃ strip',
    led_strip_set_pixel_rgbw 1%N 2 7 8 9 200 rgb_world_5
    = Done (ESP_OK, write_strip rgb_world_5 1%N strip')
    ∧ pixel_at strip' 2 = [7; 9; 8].
Proof.
  destruct (set_pixel_writes_one_pixel rgb_world_5 1%N rgb_strip_5 2 7 8 9 200)
    as (strip' & Hrun & Hpixel & _).
  - discriminate.
  - reflexivity.
  - reflexivity.
  - cbn. lia.
  - exists strip'. split; [exact Hrun|exact Hpixel].
Defined.

Lemma length_concat_replicate {A} (n : nat) (l : list A) :
  length (concat (replicate n l)) = (n * length l)%nat.
Proof. induction n as [|n IH]; cbn; [reflexivity|]. rewrite length_app, IH. lia. Qed.

Lemma slice_of_replicate {A} (n j : nat) (l : list A) :
  (j < n)%nat →
  take (length l) (drop (j * length l) (concat (replicate n l))) = l.
Proof.
  intros Hj. replace n with (j + S (n - S j))%nat by lia.
  rewrite replicate_add, concat_app. cbn [replicate concat].
  rewrite drop_app_length' by (now rewrite length_concat_replicate).
  now apply take_app_length'.
Qed.

Lemma fill_rgbw_sized (wd : world) (handle : led_strip_handle_t) (strip : led_strip_t)
    (red green blue white : Z) :
  handle ≠ NULL → heap wd !! handle = Some strip → buffer_sized strip →
  led_strip_fill_rgbw handle red green blue white wd
  = Done (ESP_OK,
          write_strip wd handle
            (with_pixel_colors strip
               (concat (replicate (Z.to_nat (led_count strip))
                          (pixel_bytes strip
                             {| r := red; g := green; b := blue; w := white |}))))).
Proof.
  intros Hnn Hlive Hsized. unfold led_strip_fill_rgbw, buffer_sized in *.
  destruct (N.eqb_spec handle NULL); [contradiction|].
  rewrite (deref_live wd handle strip Hnn Hlive). cbn [mbind outcome_bind].
  pose proof (CALC_COLOR_SIZE_pos (enable_w_channel strip)) as Hsize.
  rewrite fill_loop_all by nia. cbn [mbind outcome_bind].
  rewrite drop_ge by nia. rewrite app_nil_r.
  rewrite (pixel_bytes_no_w strip {| r := red; g := green; b := blue; w := white |}
             (if negb (enable_w_channel strip)
              then convert_from_rgbw_to_rgb {| r := red; g := green; b := blue; w := white |}
              else {| r := red; g := green; b := blue; w := white |}));
    [reflexivity|..]; destruct (enable_w_channel strip); try reflexivity; discriminate.
Qed.

(** X10. On a live strip whose buffer has its size, a fill returns [ESP_OK]
    and leaves the buffer as [led_count] copies of the colour in buffer
    order: every pixel reads back the colour, whatever the buffer held
    before; configuration and flush flag are untouched. *)
Theorem fill_paints_every_pixel (wd : world) (handle : led_strip_handle_t)
    (strip : led_strip_t) (red green blue white : Z) :
  handle ≠ NULL → heap wd !! handle = Some strip → buffer_sized strip →
  let color := {| r := red; g := green; b := blue; w := white |} in
  ∃ strip',
    led_strip_fill_rgbw handle red green blue white wd
    = Done (ESP_OK, write_strip wd handle strip')
    ∧ pixel_colors strip'
      = concat (replicate (Z.to_nat (led_count strip)) (pixel_bytes strip color))
    ∧ (∀ j, 0 ≤ j < led_count strip → pixel_at strip' j = pixel_bytes strip color)
    ∧ same_config strip strip'
    ∧ has_flushed strip' = has_flushed strip.
Proof.
  intros Hnn Hlive Hsized color.
  eexists. split; [apply (fill_rgbw_sized wd handle strip); assumption|].
  pose proof (CALC_COLOR_SIZE_pos (enable_w_channel strip)) as Hsize.
  pose proof (length_pixel_bytes strip color) as Hpx.
  fold color. cbn [pixel_colors with_pixel_colors].
  split; [reflexivity|]. split; [|split].
  - intros j Hj. unfold pixel_at. cbn [enable_w_channel pixel_colors with_pixel_colors].
    rewrite <- Hpx, Nat2Z.id.
    replace (Z.to_nat (Z.of_nat (length (pixel_bytes strip color)) * j))
      with (Z.to_nat j * length (pixel_bytes strip color))%nat by nia.
    apply slice_of_replicate. lia.
  - unfold same_config, buffer_sized in *. cbn. repeat split.
    rewrite length_concat_replicate. nia.
  - reflexivity.
Qed.

Lemma fill_paints_every_pixel_demo :
  ∃ strip',
    led_strip_fill_rgbw 1%N 1 2 3 4 rgb_world_5 = Done (ESP_OK, write_strip rgb_world_5 1%N strip')
    ∧ pixel_at strip' 4 = [1; 3; 2].
Proof.
  destruct (fill_paints_every_pixel rgb_world_5 1%N rgb_strip_5 1 2 3 4)
    as (strip' & Hrun & _ & Hpixel & _).
  - discriminate.
  - reflexivity.
  - reflexivity.
  - exists strip'. split; [exact Hrun|]. apply Hpixel. cbn. lia.
Defined.

(** X11. The RGB functions are the RGBW functions with white 0, on every
    strip and every handle; and on a strip without W channel the RGBW
    functions do not look at white at all. *)
Theorem rgb_is_rgbw_without_white (wd : world) (handle : led_strip_handle_t)
    (index red green blue : Z) :
  led_strip_set_pixel_rgb handle index red green blue wd
  = led_strip_set_pixel_rgbw handle index red green blue 0 wd
  ∧ led_strip_fill_rgb handle red green blue wd
    = led_strip_fill_rgbw handle red green blue 0 wd
  ∧ ∀ strip white,
      heap wd !! handle = Some strip → enable_w_channel strip = false →
      led_strip_set_pixel_rgbw handle index red green blue white wd
      = led_strip_set_pixel_rgb handle index red green blue wd
      ∧ led_strip_fill_rgbw handle red green blue white wd
        = led_strip_fill_rgb handle red green blue wd.
Proof.
  split; [apply set_pixel_rgb_as_rgbw|]. split.
  - unfold led_strip_fill_rgb, led_strip_fill_rgbw.
    destruct (handle =? NULL)%N; [reflexivity|].
    destruct (deref wd handle) as [strip|]; cbn [mbind outcome_bind]; [|reflexivity].
    now destruct (enable_w_channel strip).
  - intros strip white Hlive Hw.
    unfold led_strip_set_pixel_rgb, led_strip_set_pixel_rgbw,
      led_strip_fill_rgb, led_strip_fill_rgbw, deref.
    destruct (handle =? NULL)%N; [split; reflexivity|].
    rewrite Hlive. cbn [mbind outcome_bind]. rewrite Hw. cbn [negb].
    split; reflexivity.
Qed.

Lemma rgb_is_rgbw_without_white_demo :
  led_strip_set_pixel_rgbw 1%N 2 7 8 9 200 rgb_world_5
  = led_strip_set_pixel_rgb 1%N 2 7 8 9 rgb_world_5
  ∧ led_strip_fill_rgbw 1%N 7 8 9 200 rgb_world_5 = led_strip_fill_rgb 1%N 7 8 9 rgb_world_5.
Proof.
  destruct (rgb_is_rgbw_without_white rgb_world_5 1%N 2 7 8 9) as (_ & _ & Hwhite).
  apply (Hwhite rgb_strip_5 200); reflexivity.
Defined.

(* ===================================================================== *)
(** * Flushing *)
(* ===================================================================== *)

Lemma flush_done_polled `{EspIdf} (handle : led_strip_handle_t) (wd : world)
    (strip : led_strip_t) (done : bool) :
  handle ≠ NULL → heap wd !! handle = Some strip → has_flushed strip = true →
  let poll := rmt_wait_tx_done (channel strip) 0 in
  let answer := rmt_driver (rmt_calls wd) poll in
  led_strip_flush_done handle (Some done) wd
  = (if negb (answer =? ESP_OK) && negb (answer =? ESP_ERR_TIMEOUT)
     then Done (answer, Some (answer =? ESP_OK), after_call poll wd)
     else Done (ESP_OK, Some (answer =? ESP_OK), after_call poll wd)).
Proof.
  intros Hnn Hlive Hflag. cbn zeta. unfold led_strip_flush_done.
  destruct (N.eqb_spec handle NULL); [contradiction|]. cbn [orb negb bool_decide].
  rewrite (deref_live wd handle strip Hnn Hlive). cbn [mbind outcome_bind].
  rewrite Hflag. reflexivity.
Qed.

(** X12. On a strip that has flushed, [led_strip_flush_done] asks the
    driver once, without waiting, and reports its answer: [ESP_OK] is done,
    [ESP_ERR_TIMEOUT] is not done and no error, and any other status is
    returned as the error, with done false. The strip is not touched. *)
Theorem flush_done_reports_poll `{EspIdf} (handle : led_strip_handle_t) (wd : world)
    (strip : led_strip_t) (done : bool) :
  handle ≠ NULL → heap wd !! handle = Some strip → has_flushed strip = true →
  let poll := rmt_wait_tx_done (channel strip) 0 in
  let answer := rmt_driver (rmt_calls wd) poll in
  (answer = ESP_OK →
   led_strip_flush_done handle (Some done) wd = Done (ESP_OK, Some true, after_call poll wd))
  ∧ (answer = ESP_ERR_TIMEOUT →
     led_strip_flush_done handle (Some done) wd
     = Done (ESP_OK, Some false, after_call poll wd))
  ∧ (answer ≠ ESP_OK → answer ≠ ESP_ERR_TIMEOUT →
     led_strip_flush_done handle (Some done) wd
     = Done (answer, Some false, after_call poll wd)).
Proof.
  intros Hnn Hlive Hflag poll answer.
  rewrite (flush_done_polled handle wd strip done Hnn Hlive Hflag). fold poll answer.
  repeat split.
  - intros ->. reflexivity.
  - intros ->. reflexivity.
  - intros Hok Htimeout.
    destruct (Z.eqb_spec answer ESP_OK); [contradiction|].
    destruct (Z.eqb_spec answer ESP_ERR_TIMEOUT); [contradiction|]. reflexivity.
Qed.

Lemma flush_done_reports_poll_demo :
  @led_strip_flush_done esp32_busy 1%N (Some true) flushed_world_5
  = Done (ESP_OK, Some false, after_call (rmt_wait_tx_done 0 0) flushed_world_5)
  ∧ @led_strip_flush_done esp32_idle 1%N (Some false) flushed_world_5
    = Done (ESP_OK, Some true, after_call (rmt_wait_tx_done 0 0) flushed_world_5).
Proof.
  split.
  - apply (@flush_done_reports_poll esp32_busy 1%N flushed_world_5
             (with_has_flushed rgb_strip_5 true) true); try reflexivity. discriminate.
  - apply (@flush_done_reports_poll esp32_idle 1%N flushed_world_5
             (with_has_flushed rgb_strip_5 true) false); try reflexivity. discriminate.
Defined.

(** A flush of a strip that is ready. *)
Lemma flush_with_ready `{EspIdf} (wait_tx_done : bool) (handle : led_strip_handle_t)
    (wd : world) (strip : led_strip_t) :
  handle ≠ NULL → heap wd !! handle = Some strip →
  (has_flushed strip = true →
   rmt_driver (rmt_calls wd) (rmt_wait_tx_done (channel strip) 0) = ESP_OK) →
  let wd_r := world_at_send strip wd in
  let send := send_call strip wait_tx_done in
  let answer := rmt_driver (rmt_calls wd_r) send in
  flush_with wait_tx_done handle wd
  = Done (answer,
          if answer =? ESP_OK
          then write_strip (after_call send wd_r) handle (with_has_flushed strip true)
          else after_call send wd_r).
Proof.
  intros Hnn Hlive Hready. cbn zeta. unfold flush_with, world_at_send.
  assert (∀ wdx, heap wdx = heap wd → deref wdx handle = Done strip) as Hderef.
  { intros wdx Hx. apply deref_live; [exact Hnn|now rewrite Hx]. }
  destruct (has_flushed strip) eqn:Hflag.
  - rewrite (flush_done_polled handle wd strip false Hnn Hlive Hflag).
    rewrite (Hready eq_refl). cbn [Z.eqb negb andb ESP_OK mbind outcome_bind bool_decide].
    change (bool_decide (Some true = Some true)) with true. cbn [negb].
    rewrite Hderef by reflexivity. cbn [mbind outcome_bind]. unfold call_rmt.
    fold (send_call strip wait_tx_done).
    fold (after_call (send_call strip wait_tx_done)
            (after_call (rmt_wait_tx_done (channel strip) 0) wd)).
    destruct (Z.eqb_spec (rmt_driver (rmt_calls (after_call (rmt_wait_tx_done (channel strip) 0) wd))
                            (send_call strip wait_tx_done)) ESP_OK) as [Hok|Hfail];
      cbn [negb]; [|reflexivity].
    rewrite Hderef by reflexivity. cbn [mbind outcome_bind]. now rewrite Hok.
  - rewrite (flush_done_not_flushed handle wd false) by (split; eauto).
    cbn [Z.eqb negb andb ESP_OK mbind outcome_bind].
    change (bool_decide (Some true = Some true)) with true. cbn [negb].
    rewrite (Hderef wd eq_refl). cbn [mbind outcome_bind]. unfold call_rmt.
    fold (send_call strip wait_tx_done). fold (after_call (send_call strip wait_tx_done) wd).
    destruct (Z.eqb_spec (rmt_driver (rmt_calls wd) (send_call strip wait_tx_done)) ESP_OK)
      as [Hok|Hfail]; cbn [negb]; [|reflexivity].
    rewrite Hderef by reflexivity. cbn [mbind outcome_bind]. now rewrite Hok.
Qed.

(** X13. A flush of a ready strip (one that has not flushed, or whose poll
    the driver answers with [ESP_OK]) hands the driver the whole pixel
    buffer with its length in bytes, on the strip's channel, waiting for
    the end in [led_strip_flush] and not in [led_strip_start_flush]. If the
    driver accepts, the result is [ESP_OK] and the flush flag is set; if
    not, the driver's status is returned and the flag is left. The pixels
    are only read. *)
Theorem flush_sends_whole_buffer `{EspIdf} (handle : led_strip_handle_t) (wd : world)
    (strip : led_strip_t) :
  handle ≠ NULL → heap wd !! handle = Some strip →
  buffer_sized strip → 0 ≤ led_count strip < 2 ^ 16 →
  (has_flushed strip = true →
   rmt_driver (rmt_calls wd) (rmt_wait_tx_done (channel strip) 0) = ESP_OK) →
  let wd_r := world_at_send strip wd in
  let send wait :=
    rmt_write_sample (channel strip) (pixel_colors strip)
      (Z.of_nat (length (pixel_colors strip))) wait in
  let answer wait := rmt_driver (rmt_calls wd_r) (send wait) in
  let world_after wait :=
    if answer wait =? ESP_OK
    then write_strip (after_call (send wait) wd_r) handle (with_has_flushed strip true)
    else after_call (send wait) wd_r in
  led_strip_flush handle wd = Done (answer true, world_after true)
  ∧ led_strip_start_flush handle wd = Done (answer false, world_after false).
Proof.
  intros Hnn Hlive Hsized Hcount Hready. cbn zeta.
  assert (∀ wait,
             rmt_write_sample (channel strip) (pixel_colors strip)
               (Z.of_nat (length (pixel_colors strip))) wait
             = send_call strip wait) as Hsend.
  { intros wait. unfold send_call, size_t_wrap, SIZE_WIDTH. rewrite Hsized.
    pose proof (CALC_COLOR_SIZE_pos (enable_w_channel strip)).
    assert (CALC_COLOR_SIZE (enable_w_channel strip) ≤ 4)
      by (destruct (enable_w_channel strip); cbn; lia).
    rewrite Z.mod_small by nia. reflexivity. }
  cbn beta. rewrite !Hsend. split.
  - unfold led_strip_flush. now apply flush_with_ready.
  - unfold led_strip_start_flush. destruct (N.eqb_spec handle NULL); [contradiction|].
    now apply flush_with_ready.
Qed.

Lemma flush_sends_whole_buffer_demo :
  @led_strip_start_flush esp32_busy 1%N rgb_world_5
  = Done (ESP_OK,
          write_strip (after_call (rmt_write_sample 0 (replicate 15 0) 15 false) rgb_world_5)
            1%N (with_has_flushed rgb_strip_5 true)).
Proof.
  destruct (@flush_sends_whole_buffer esp32_busy 1%N rgb_world_5 rgb_strip_5) as [_ Hstart].
  - discriminate.
  - reflexivity.
  - reflexivity.
  - cbn. lia.
  - discriminate.
  - exact Hstart.
Defined.

(* ===================================================================== *)
(** * What no operation does *)
(* ===================================================================== *)

Lemma same_config_refl strip : same_config strip strip.
Proof. repeat split. Qed.

Lemma same_config_trans s1 s2 s3 : same_config s1 s2 → same_config s2 s3 → same_config s1 s3.
Proof. unfold same_config. intros (?&?&?&?&?&?) (?&?&?&?&?&?). repeat split; congruence. Qed.

Lemma same_config_sized s1 s2 : same_config s1 s2 → buffer_sized s1 → buffer_sized s2.
Proof. unfold same_config, buffer_sized. intros (?&?&?&?&?&?) Hs. congruence. Qed.

Lemma strip_kept_quiet handle wd wd' strip calls :
  heap wd !! handle = Some strip → heap wd' = heap wd →
  rmt_channel_used wd' = rmt_channel_used wd → rmt_calls wd' = calls ++ rmt_calls wd →
  strip_kept handle wd wd'.
Proof.
  intros Hlive Hheap Htable Hlog. exists strip, strip, calls.
  split; [exact Hlive|]. split; [rewrite Hheap; symmetry; now apply insert_id|].
  split; [apply same_config_refl|]. split; [tauto|]. split; assumption.
Qed.

Lemma strip_kept_write handle wd wdx strip strip' calls :
  heap wd !! handle = Some strip → heap wdx = heap wd →
  rmt_channel_used wdx = rmt_channel_used wd → rmt_calls wdx = calls ++ rmt_calls wd →
  same_config strip strip' → (has_flushed strip = true → has_flushed strip' = true) →
  strip_kept handle wd (write_strip wdx handle strip').
Proof.
  intros Hlive Hheap Htable Hlog Hconfig Hflag. exists strip, strip', calls.
  cbn [heap rmt_channel_used rmt_calls write_strip with_heap].
  split; [exact Hlive|]. split; [now rewrite Hheap|].
  split; [exact Hconfig|]. split; [exact Hflag|]. split; assumption.
Qed.

Lemma strip_kept_trans handle wd1 wd2 wd3 :
  strip_kept handle wd1 wd2 → strip_kept handle wd2 wd3 → strip_kept handle wd1 wd3.
Proof.
  intros (s1 & s2 & calls & Hlive & Hheap & Hconfig & Hflag & Htable & Hlog)
         (s2' & s3 & calls' & Hlive' & Hheap' & Hconfig' & Hflag' & Htable' & Hlog').
  rewrite Hheap, lookup_insert_eq in Hlive'. injection Hlive' as <-.
  exists s1, s3, (calls' ++ calls).
  split; [exact Hlive|]. split; [rewrite Hheap', Hheap; apply insert_insert_eq|].
  split; [apply (same_config_trans _ _ _ Hconfig Hconfig')|].
  split; [intros Hset; apply Hflag', Hflag, Hset|].
  split; [congruence|]. rewrite Hlog', Hlog. apply app_assoc.
Qed.

(** A flush of a live strip, ready or not, returns and keeps the strip. *)
Lemma flush_with_kept `{EspIdf} wait_tx_done handle wd strip :
  handle ≠ NULL → heap wd !! handle = Some strip →
  ∃ err wd', flush_with wait_tx_done handle wd = Done (err, wd') ∧ strip_kept handle wd wd'.
Proof.
  intros Hnn Hlive.
  set (poll := rmt_wait_tx_done (channel strip) 0).
  assert (has_flushed strip = true → rmt_driver (rmt_calls wd) poll ≠ ESP_OK →
          ∃ err, flush_with wait_tx_done handle wd = Done (err, after_call poll wd)) as Hbusy.
  { intros Hflag Hanswer. unfold flush_with.
    rewrite (flush_done_polled handle wd strip false Hnn Hlive Hflag). fold poll.
    destruct (Z.eqb_spec (rmt_driver (rmt_calls wd) poll) ESP_OK); [contradiction|].
    cbn [negb andb]. destruct (negb (_ =? ESP_ERR_TIMEOUT)); cbn [mbind outcome_bind].
    - destruct (Z.eqb_spec (rmt_driver (rmt_calls wd) poll) ESP_OK); [contradiction|].
      cbn [negb]. eauto.
    - cbn [Z.eqb ESP_OK negb]. change (bool_decide (Some false = Some true)) with false.
      cbn [negb]. eauto. }
  destruct (has_flushed strip) eqn:Hflag.
  - destruct (Z.eq_dec (rmt_driver (rmt_calls wd) poll) ESP_OK) as [Hok|Hnot].
    + rewrite (flush_with_ready wait_tx_done handle wd strip Hnn Hlive (fun _ => Hok)).
      unfold world_at_send. rewrite Hflag. fold poll.
      eexists _, _. split; [reflexivity|].
      destruct (_ =? ESP_OK).
      * eapply (strip_kept_write _ _ _ strip _ [_; _]); try reflexivity; try exact Hlive.
        repeat split.
      * eapply (strip_kept_quiet _ _ _ strip [_; _]); try reflexivity. exact Hlive.
    + destruct (Hbusy eq_refl Hnot) as [err Hrun]. exists err, (after_call poll wd).
      split; [exact Hrun|].
      eapply (strip_kept_quiet _ _ _ strip [_]); try reflexivity. exact Hlive.
  - rewrite (flush_with_ready wait_tx_done handle wd strip Hnn Hlive)
      by (rewrite Hflag; discriminate).
    unfold world_at_send. rewrite Hflag.
    eexists _, _. split; [reflexivity|].
    destruct (_ =? ESP_OK).
    + eapply (strip_kept_write _ _ _ strip _ [_]); try reflexivity; try exact Hlive.
      repeat split.
    + eapply (strip_kept_quiet _ _ _ strip [_]); try reflexivity. exact Hlive.
Qed.

(** Each operation of [any_op] on a live strip with a sized buffer returns
    and keeps the strip. *)
Lemma run_any_kept `{EspIdf} handle op wd strip :
  handle ≠ NULL → heap wd !! handle = Some strip → buffer_sized strip →
  index_unsigned op →
  ∃ wd', run_any handle op wd = Done wd' ∧ strip_kept handle wd wd'.
Proof.
  intros Hnn Hlive Hsized Hindex.
  pose proof (deref_live wd handle strip Hnn Hlive) as Hderef.
  assert (strip_kept handle wd wd) as Hsame
    by (eapply (strip_kept_quiet _ _ _ strip []); try reflexivity; exact Hlive).
  assert (∀ index red green blue white,
             0 ≤ index →
             ∃ err wd', led_strip_set_pixel_rgbw handle index red green blue white wd
                        = Done (err, wd') ∧ strip_kept handle wd wd') as Hset.
  { intros index red green blue white Hi.
    destruct (Z_lt_le_dec index (led_count strip)) as [Hin|Hout].
    - rewrite (set_pixel_rgbw_in_range wd handle strip) by (assumption || lia).
      eexists _, _. split; [reflexivity|].
      eapply (strip_kept_write _ _ _ strip _ []); try reflexivity; try exact Hlive;
        [|intros Hf; exact Hf].
      unfold same_config, with_pixel. cbn. repeat split.
      pose proof (CALC_COLOR_SIZE_pos (enable_w_channel strip)).
      pose proof (length_pixel_bytes strip {| r := red; g := green; b := blue; w := white |}).
      unfold buffer_sized in Hsized.
      rewrite !length_app, length_take, length_drop. nia.
    - exists ESP_ERR_INVALID_SIZE, wd. split; [|exact Hsame].
      unfold led_strip_set_pixel_rgbw. destruct (N.eqb_spec handle NULL); [contradiction|].
      rewrite Hderef. cbn [mbind outcome_bind]. rewrite Z.geb_leb.
      destruct (Z.leb_spec (led_count strip) index); [reflexivity|lia]. }
  assert (∀ red green blue white,
             ∃ err wd', led_strip_fill_rgbw handle red green blue white wd
                        = Done (err, wd') ∧ strip_kept handle wd wd') as Hfill.
  { intros red green blue white.
    rewrite (fill_rgbw_sized wd handle strip) by assumption.
    eexists _, _. split; [reflexivity|].
    eapply (strip_kept_write _ _ _ strip _ []); try reflexivity; try exact Hlive;
      [|intros Hf; exact Hf].
    unfold same_config, buffer_sized in *. cbn. repeat split.
    pose proof (CALC_COLOR_SIZE_pos (enable_w_channel strip)).
    pose proof (length_pixel_bytes strip {| r := red; g := green; b := blue; w := white |}).
    rewrite length_concat_replicate. nia. }
  destruct op as [[index red green blue|index red green blue white|red green blue
                  |red green blue white| |]| |]; cbn [run_any run_op].
  - rewrite set_pixel_rgb_as_rgbw.
    destruct (Hset index red green blue 0 Hindex) as (err & wd' & -> & Hkept). eauto.
  - destruct (Hset index red green blue white Hindex) as (err & wd' & -> & Hkept). eauto.
  - assert (led_strip_fill_rgb handle red green blue wd
            = led_strip_fill_rgbw handle red green blue 0 wd) as ->.
    { unfold led_strip_fill_rgb, led_strip_fill_rgbw.
      destruct (handle =? NULL)%N; [reflexivity|]. rewrite Hderef. cbn [mbind outcome_bind].
      now destruct (enable_w_channel strip). }
    destruct (Hfill red green blue 0) as (err & wd' & -> & Hkept). eauto.
  - destruct (Hfill red green blue white) as (err & wd' & -> & Hkept). eauto.
  - destruct (has_flushed strip) eqn:Hflag.
    + rewrite (flush_done_polled handle wd strip false Hnn Hlive Hflag).
      destruct (negb _ && negb _); cbn [mbind outcome_bind];
        (eexists; split; [reflexivity|]);
        eapply (strip_kept_quiet _ _ _ strip [_]); try reflexivity; exact Hlive.
    + rewrite (flush_done_not_flushed handle wd false) by (split; eauto).
      cbn [mbind outcome_bind]. eauto.
  - unfold led_strip_wait_for_flush_finish. rewrite Hderef. cbn [mbind outcome_bind].
    unfold call_rmt. destruct (negb _); cbn [mbind outcome_bind];
      (eexists; split; [reflexivity|]);
      eapply (strip_kept_quiet _ _ _ strip [_]); try reflexivity; exact Hlive.
  - unfold led_strip_flush.
    destruct (flush_with_kept true handle wd strip Hnn Hlive) as (err & wd' & -> & Hkept).
    eauto.
  - unfold led_strip_start_flush. destruct (N.eqb_spec handle NULL); [contradiction|].
    destruct (flush_with_kept false handle wd strip Hnn Hlive) as (err & wd' & -> & Hkept).
    eauto.
Qed.

(** X14. No run of operations other than [led_strip_free], on a live strip
    with a sized buffer, faults, changes the strip's channel, timing,
    colour order, pixel count or buffer length, clears a flush flag that
    was set, touches another strip or the channel table, or forgets a
    driver call. *)
Theorem operations_keep_strip `{EspIdf} (handle : led_strip_handle_t) (ops : list any_op)
    (wd : world) (strip : led_strip_t) :
  handle ≠ NULL → heap wd !! handle = Some strip → buffer_sized strip →
  Forall index_unsigned ops →
  ∃ wd' strip' calls,
    run_anys handle ops wd = Done wd'
    ∧ heap wd' = <[handle := strip']> (heap wd)
    ∧ same_config strip strip'
    ∧ buffer_sized strip'
    ∧ (has_flushed strip = true → has_flushed strip' = true)
    ∧ rmt_channel_used wd' = rmt_channel_used wd
    ∧ rmt_calls wd' = calls ++ rmt_calls wd.
Proof.
  intros Hnn Hlive Hsized Hops.
  assert (∃ wd', run_anys handle ops wd = Done wd' ∧ strip_kept handle wd wd')
    as (wd' & Hrun & Hkept).
  { revert wd strip Hlive Hsized. induction Hops as [|op ops Hop Hops IH];
      intros wd strip Hlive Hsized; cbn [run_anys].
    - exists wd. split; [reflexivity|].
      eapply (strip_kept_quiet _ _ _ strip []); try reflexivity; exact Hlive.
    - destruct (run_any_kept handle op wd strip Hnn Hlive Hsized Hop) as (wd1 & -> & Hkept1).
      cbn [mbind outcome_bind].
      pose proof Hkept1 as (s & s1 & calls & Hlive0 & Hheap1 & Hconfig1 & _).
      rewrite Hlive in Hlive0. injection Hlive0 as <-.
      destruct (IH wd1 s1) as (wd2 & Hrun2 & Hkept2).
      + rewrite Hheap1. apply lookup_insert_eq.
      + exact (same_config_sized _ _ Hconfig1 Hsized).
      + exists wd2. split; [exact Hrun2|]. exact (strip_kept_trans _ _ _ _ Hkept1 Hkept2). }
  destruct Hkept as (s & strip' & calls & Hlive0 & Hheap & Hconfig & Hflag & Htable & Hlog).
  rewrite Hlive in Hlive0. injection Hlive0 as <-.
  exists wd', strip', calls. repeat split; try assumption.
  - apply Hconfig.
  - apply Hconfig.
  - apply Hconfig.
  - apply Hconfig.
  - apply Hconfig.
  - apply Hconfig.
  - exact (same_config_sized _ _ Hconfig Hsized).
Qed.

(* ===================================================================== *)
(** * More on the translator *)
(* ===================================================================== *)

Lemma length_flat_map_symbols timing (bytes : list Z) :
  length (flat_map (symbols_of_byte timing) bytes) = (8 * length bytes)%nat.
Proof.
  induction bytes as [|byte bytes IH]; [reflexivity|].
  cbn [flat_map]. rewrite length_app, IH, length_symbols_of_byte. cbn [length]. lia.
Qed.

(** One call of the adapter with the strip as its context. *)
Lemma rmt_adapter_run (wd : world) (handle : led_strip_handle_t) (strip : led_strip_t)
    (src : list Z) (dest : list rmt_item32_t) (src_size wanted_num : Z) :
  handle ≠ NULL → heap wd !! handle = Some strip →
  0 ≤ src_size ≤ Z.of_nat (length src) →
  0 ≤ wanted_num ≤ Z.of_nat (length dest) →
  wanted_num < 2 ^ SIZE_WIDTH →
  let translated := Z.min (wanted_num / 8) src_size in
  rmt_adapter wd (ESP_OK, handle) src dest src_size wanted_num
  = Done (flat_map (symbols_of_byte (led_timing strip)) (take (Z.to_nat translated) src)
          ++ drop (8 * Z.to_nat translated) dest,
          translated, 8 * translated).
Proof.
  intros Hnn Hlive Hsrc Hcap Hsz translated.
  pose proof (deref_live wd handle strip Hnn Hlive) as Hderef.
  pose proof (Z.div_mod wanted_num 8 ltac:(lia)) as Hdm.
  pose proof (Z.mod_pos_bound wanted_num 8 ltac:(lia)) as Hrem.
  destruct (Z.ltb_spec wanted_num 8) as [Hshort|Hlong].
  - rewrite rmt_adapter_short_capacity by exact Hshort.
    assert (translated = 0) as -> by (subst translated; lia).
    reflexivity.
  - unfold rmt_adapter. cbn [negb Z.eqb ESP_OK].
    destruct (N.eqb_spec handle NULL); [contradiction|].
    destruct (Z.ltb_spec wanted_num 8); [lia|].
    assert ((if wanted_num / 8 >? src_size then src_size else wanted_num / 8) = translated) as ->.
    { subst translated. rewrite Z.gtb_ltb. destruct (Z.ltb_spec src_size (wanted_num / 8)); lia. }
    assert (0 ≤ translated ≤ wanted_num / 8) as Hk by (subst translated; lia).
    rewrite (rmt_adapter_loop wd handle strip src (Z.to_nat translated) Hderef 0 dest 0)
      by (subst translated; lia).
    cbn [mbind outcome_bind].
    change (Z.to_nat 0) with 0%nat. rewrite take_0, drop_0. cbn [app Nat.add].
    rewrite Z2Nat.id by lia. rewrite Z.add_0_l. reflexivity.
Qed.

(** X15. With the strip as its context the adapter stays in its bounds: it
    consumes no more bytes than the source has, reports eight symbols a
    byte and no more symbols than were asked for, leaves the output buffer
    untouched from there on, and consumes nothing only when the capacity
    is below eight or the source is empty. *)
Theorem rmt_adapter_bounds (wd : world) (handle : led_strip_handle_t) (strip : led_strip_t)
    (src : list Z) (dest : list rmt_item32_t) (src_size wanted_num : Z) :
  handle ≠ NULL → heap wd !! handle = Some strip →
  0 ≤ src_size ≤ Z.of_nat (length src) →
  0 ≤ wanted_num ≤ Z.of_nat (length dest) →
  wanted_num < 2 ^ SIZE_WIDTH →
  ∃ dest' translated_size item_num,
    rmt_adapter wd (ESP_OK, handle) src dest src_size wanted_num
    = Done (dest', translated_size, item_num)
    ∧ 0 ≤ translated_size ≤ src_size
    ∧ item_num = 8 * translated_size
    ∧ item_num ≤ wanted_num
    ∧ length dest' = length dest
    ∧ (∀ j : nat, item_num ≤ Z.of_nat j → dest' !! j = dest !! j)
    ∧ (translated_size = 0 ↔ wanted_num < 8 ∨ src_size = 0).
Proof.
  intros Hnn Hlive Hsrc Hcap Hsz.
  set (translated := Z.min (wanted_num / 8) src_size).
  pose proof (Z.div_mod wanted_num 8 ltac:(lia)) as Hdm.
  pose proof (Z.mod_pos_bound wanted_num 8 ltac:(lia)) as Hrem.
  assert (0 ≤ translated ≤ src_size ∧ 8 * translated ≤ wanted_num) as [Hk Hk8]
    by (subst translated; lia).
  exists (flat_map (symbols_of_byte (led_timing strip)) (take (Z.to_nat translated) src)
          ++ drop (8 * Z.to_nat translated) dest), translated, (8 * translated).
  split; [apply (rmt_adapter_run wd handle strip); assumption|].
  assert (length (flat_map (symbols_of_byte (led_timing strip))
                    (take (Z.to_nat translated) src)) = (8 * Z.to_nat translated)%nat) as Hlen.
  { rewrite length_flat_map_symbols, length_take. lia. }
  split; [exact Hk|]. split; [reflexivity|]. split; [exact Hk8|].
  split; [|split].
  - rewrite length_app, Hlen, length_drop. lia.
  - intros j Hj. rewrite lookup_app_r by lia.
    rewrite lookup_drop, Hlen. f_equal. lia.
  - subst translated. lia.
Qed.

Lemma rmt_adapter_bounds_demo :
  ∃ dest' translated_size item_num,
    rmt_adapter rgb_world_5 (ESP_OK, 1%N) (replicate 15 0) (blank_items ++ blank_items)
      15 12
    = Done (dest', translated_size, item_num)
    ∧ translated_size = 1 ∧ item_num = 8.
Proof.
  destruct (rmt_adapter_bounds rgb_world_5 1%N rgb_strip_5 (replicate 15 0)
              (blank_items ++ blank_items) 15 12)
    as (dest' & translated_size & item_num & Hrun & _ & Hitems & _).
  - discriminate.
  - reflexivity.
  - cbn. lia.
  - cbn. lia.
  - reflexivity.
  - exists dest', translated_size, item_num. split; [exact Hrun|].
    vm_compute in Hrun. injection Hrun as _ <- <-. split; reflexivity.
Defined.

Lemma room_in_bytes_nonneg (capacities : list Z) :
  Forall (fun wanted_num => 0 ≤ wanted_num < 2 ^ SIZE_WIDTH) capacities →
  0 ≤ room_in_bytes capacities.
Proof.
  induction 1 as [|wanted_num rest Hc _ IH]; cbn [room_in_bytes foldr]; [lia|].
  fold (room_in_bytes rest).
  pose proof (Z.div_pos wanted_num 8 ltac:(lia) ltac:(lia)). lia.
Qed.

Lemma translate_in_turns_prefix (wd : world) (handle : led_strip_handle_t)
    (strip : led_strip_t) (capacities : list Z) :
  handle ≠ NULL → heap wd !! handle = Some strip →
  Forall (fun wanted_num => 0 ≤ wanted_num < 2 ^ SIZE_WIDTH) capacities →
  ∀ src : list Z,
    translate_in_turns wd (ESP_OK, handle) src capacities
    = Done (flat_map (symbols_of_byte (led_timing strip))
              (take (Z.to_nat (Z.min (room_in_bytes capacities) (Z.of_nat (length src)))) src)).
Proof.
  intros Hnn Hlive Hcaps.
  induction Hcaps as [|wanted_num rest Hc Hrest IH]; intros src.
  - cbn [translate_in_turns room_in_bytes foldr].
    replace (Z.to_nat (Z.min 0 (Z.of_nat (length src)))) with 0%nat by lia.
    now rewrite take_0.
  - cbn [translate_in_turns room_in_bytes foldr]. fold (room_in_bytes rest).
    pose proof (room_in_bytes_nonneg rest Hrest) as Hroom.
    pose proof (Z.div_pos wanted_num 8 ltac:(lia) ltac:(lia)) as Hdiv.
    rewrite (rmt_adapter_run wd handle strip) by (rewrite ?length_replicate; assumption || lia).
    cbn [mbind outcome_bind].
    set (k := Z.min (wanted_num / 8) (Z.of_nat (length src))).
    assert (0 ≤ k ≤ Z.of_nat (length src)) as Hk by (subst k; lia).
    rewrite IH. cbn [mbind outcome_bind]. f_equal.
    rewrite take_app_length'
      by (rewrite length_flat_map_symbols, length_take; lia).
    rewrite <- flat_map_app, take_take_drop. do 2 f_equal.
    rewrite length_drop. subst k. lia.
Qed.

(** X16. Draining a source through the adapter in turns, whatever the
    capacities of the turns, gives the symbols of the source bytes in
    order, none twice and none skipped, as far as the capacities reach:
    [wanted_num / 8] bytes a turn. When they reach the end of the source,
    the symbols are those of the whole source. *)
Theorem translate_in_turns_in_order (wd : world) (handle : led_strip_handle_t)
    (strip : led_strip_t) (src : list Z) (capacities : list Z) :
  handle ≠ NULL → heap wd !! handle = Some strip →
  Forall (fun wanted_num => 0 ≤ wanted_num < 2 ^ SIZE_WIDTH) capacities →
  let reached := Z.min (room_in_bytes capacities) (Z.of_nat (length src)) in
  translate_in_turns wd (ESP_OK, handle) src capacities
  = Done (flat_map (symbols_of_byte (led_timing strip)) (take (Z.to_nat reached) src))
  ∧ (Z.of_nat (length src) ≤ room_in_bytes capacities →
     translate_in_turns wd (ESP_OK, handle) src capacities
     = Done (flat_map (symbols_of_byte (led_timing strip)) src)).
Proof.
  intros Hnn Hlive Hcaps reached.
  pose proof (translate_in_turns_prefix wd handle strip capacities Hnn Hlive Hcaps src) as Hrun.
  split; [exact Hrun|]. intros Hroom. rewrite Hrun.
  rewrite take_ge by lia. reflexivity.
Qed.

Lemma translate_in_turns_in_order_demo :
  translate_in_turns rgb_world_5 (ESP_OK, 1%N) [0xB0; 0x01; 0xFF] [20; 7; 64]
  = Done (flat_map (symbols_of_byte SK6822_at_100ns) [0xB0; 0x01; 0xFF]).
Proof.
  apply (translate_in_turns_in_order rgb_world_5 1%N rgb_strip_5 [0xB0; 0x01; 0xFF] [20; 7; 64]).
  - discriminate.
  - reflexivity.
  - repeat constructor; cbn; lia.
  - vm_compute. discriminate.
Defined.

Lemma bit_of_symbol_of_bit (timing : led_strip_manual_timing_t) (bit : bool) :
  bits_distinct timing → bit_of_symbol timing (symbol_of_bit timing bit) = bit.
Proof.
  intros Hdistinct. unfold bit_of_symbol, symbol_of_bit.
  destruct bit; cbn [duration0 duration1].
  - now rewrite !Z.eqb_refl.
  - destruct Hdistinct as [Hon|Hoff].
    + destruct (Z.eqb_spec (low_on timing) (high_on timing)); [contradiction|reflexivity].
    + destruct (Z.eqb_spec (low_off timing) (high_off timing)); [contradiction|].
      apply andb_false_r.
Qed.

Lemma for_all_bytes (check : Z → bool) :
  forallb check (seqZ 0 256) = true → ∀ data, 0 ≤ data < 256 → check data = true.
Proof.
  intros Hall data Hdata. rewrite forallb_forall in Hall. apply Hall.
  apply list_elem_of_In, elem_of_seqZ. lia.
Qed.

Lemma byte_of_bits_msb_first (data : Z) :
  0 ≤ data < 256 → byte_of_bits (bits_msb_first data) = data.
Proof.
  intros Hdata. apply Z.eqb_eq.
  apply (for_all_bytes (fun d => byte_of_bits (bits_msb_first d) =? d)); [|exact Hdata].
  vm_compute. reflexivity.
Qed.

(** X17. What the translator writes for a byte can be read back: where
    the timing table tells a 1 from a 0, the eight symbols at [items]
    decode, most significant bit first, to the byte that was translated.
    Where the table does not, every byte is written as the same eight
    symbols. *)
Theorem translate_round_trip (dest : list rmt_item32_t) (items data : Z)
    (timing : led_strip_manual_timing_t) :
  0 ≤ items → items + 8 ≤ Z.of_nat (length dest) → 0 ≤ data < 256 →
  ∃ dest',
    translate_uint8_to_rmt_samples dest items data timing = Done dest'
    ∧ (bits_distinct timing →
       byte_of_symbols timing (take 8 (drop (Z.to_nat items) dest')) = data)
    ∧ (¬ bits_distinct timing →
       ∀ data', translate_uint8_to_rmt_samples dest items data' timing = Done dest').
Proof.
  intros Hitems Hlen Hdata.
  eexists. split; [now apply translate_uint8_to_rmt_samples_window|]. split.
  - intros Hdistinct.
    rewrite drop_app_length' by (rewrite length_take; lia).
    rewrite take_app_length' by reflexivity.
    unfold byte_of_symbols, symbols_of_byte. rewrite map_map.
    rewrite (map_ext _ (fun bit => bit)) by (intros bit; now apply bit_of_symbol_of_bit).
    rewrite map_id. now apply byte_of_bits_msb_first.
  - intros Hsame data'. rewrite translate_uint8_to_rmt_samples_window by assumption.
    do 3 f_equal. unfold symbols_of_byte.
    assert (∀ bit, symbol_of_bit timing bit = symbol_of_bit timing true) as Hsymbol.
    { intros [|]; [reflexivity|]. unfold symbol_of_bit, bits_distinct in *.
      destruct (Z.eq_dec (low_on timing) (high_on timing)) as [->|]; [|tauto].
      destruct (Z.eq_dec (low_off timing) (high_off timing)) as [->|]; [|tauto].
      reflexivity. }
    rewrite (map_ext _ (fun _ => symbol_of_bit timing true)) by exact Hsymbol.
    symmetry. rewrite (map_ext _ (fun _ => symbol_of_bit timing true)) by exact Hsymbol.
    reflexivity.
Qed.

Lemma translate_round_trip_demo :
  ∃ dest',
    translate_uint8_to_rmt_samples (blank_items ++ blank_items) 8 0xA5 SK6822_at_100ns
    = Done dest'
    ∧ byte_of_symbols SK6822_at_100ns (take 8 (drop 8 dest')) = 0xA5.
Proof.
  destruct (translate_round_trip (blank_items ++ blank_items) 8 0xA5 SK6822_at_100ns)
    as (dest' & Hrun & Hback & _).
  - lia.
  - cbn. lia.
  - lia.
  - exists dest'. split; [exact Hrun|]. apply Hback. left. discriminate.
Defined.

(* ===================================================================== *)
(** * Initialisation *)
(* ===================================================================== *)

Lemma map_const_seqZ {A} (x : A) (n : nat) :
  ∀ m : Z, map (fun _ : Z => x) (seqZ m (Z.of_nat n)) = replicate n x.
Proof.
  induction n as [|n IH]; intros m; [reflexivity|].
  rewrite seqZ_cons by lia. replace (Z.pred (Z.of_nat (S n))) with (Z.of_nat n) by lia.
  cbn [map replicate]. now rewrite IH.
Qed.

(** X18. The first [led_strip_init] marks every channel free, whatever the
    table held; every later call changes nothing, so the channels strips
    have taken since stay taken. *)
Theorem led_strip_init_once `{EspIdf} (wd : world) :
  Z.of_nat (length (rmt_channel_used wd)) = RMT_CHANNEL_MAX →
  led_strip_init false wd
  = Done (true, with_rmt_channel_used wd (replicate (Z.to_nat RMT_CHANNEL_MAX) false))
  ∧ ∀ wd', led_strip_init true wd' = Done (true, wd').
Proof.
  intros Hlen. split; [|reflexivity]. unfold led_strip_init.
  rewrite (for_upto_ext _ (fun j used => store used (0 + j) false)) by reflexivity.
  rewrite (for_upto_store (fun _ => false) 0 (Z.to_nat RMT_CHANNEL_MAX) 0) by lia.
  cbn [mbind outcome_bind]. change (Z.to_nat (0 + 0)) with 0%nat.
  rewrite take_0, map_const_seqZ, drop_ge, app_nil_r by lia. reflexivity.
Qed.

Lemma led_strip_init_once_demo :
  @led_strip_init esp32_busy false rgb_world_5
  = Done (true, with_rmt_channel_used rgb_world_5 (replicate 8 false)).
Proof.
  apply (@led_strip_init_once esp32_busy rgb_world_5). reflexivity.
Defined.

(* ===================================================================== *)
(** * More on the timing table *)
(* ===================================================================== *)

Lemma ceil_div_gap (x y p : Z) : 0 < p → x + p ≤ y → ceil_div x p < ceil_div y p.
Proof.
  intros Hp Hgap.
  destruct (ceil_div_spec x p Hp) as [_ Hx]. destruct (ceil_div_spec y p Hp) as [Hy _].
  nia.
Qed.

(** X19. On a platform whose tick period is a whole number of nanoseconds
    between 3 and 300, every named type resolves to a table that tells a 1
    from a 0: the high phase of a 1 is longer, in ticks, than that of a 0. *)
Theorem named_tables_tell_bits_apart `{EspIdf} (type : Z) :
  0 < APB_CLK_FREQ / LED_STRIP_CLOCK_DIVIDER →
  1000000000 mod (APB_CLK_FREQ / LED_STRIP_CLOCK_DIVIDER) = 0 →
  3 ≤ tick_period_ns ≤ 300 →
  low_on (map_timing (timing_type type)) < high_on (map_timing (timing_type type))
  ∧ bits_distinct (map_timing (timing_type type)).
Proof.
  intros Hf Hmod Hp. unfold tick_period_ns in Hp.
  set (f := APB_CLK_FREQ / LED_STRIP_CLOCK_DIVIDER) in *.
  assert (∀ x, In x table_durations →
               to_uint15 (LED_STRIP_NS_AS_TICKS x) = ceil_div x (1000000000 / f)) as Hticks.
  { intros x Hx. rewrite (LED_STRIP_NS_AS_TICKS_at f x eq_refl).
    apply ns_as_ticks_at_ceil; (assumption || lia). }
  assert (low_on (map_timing (timing_type type)) < high_on (map_timing (timing_type type)))
    as Hlt.
  { unfold map_timing.
    destruct (type =? LED_STRIP_TYPE_SK6822);
      [|destruct (type =? LED_STRIP_TYPE_WS281x)];
      cbn [low_on high_on timing_SK6822 timing_WS281x];
      rewrite !Hticks by (unfold table_durations; simpl; tauto);
      apply ceil_div_gap; lia. }
  split; [exact Hlt|]. left. lia.
Qed.

Lemma named_tables_tell_bits_apart_esp32 :
  bits_distinct (@map_timing esp32_busy (timing_type LED_STRIP_TYPE_WS281x)).
Proof.
  apply (@named_tables_tell_bits_apart esp32_busy LED_STRIP_TYPE_WS281x).
  - vm_compute. reflexivity.
  - vm_compute. reflexivity.
  - vm_compute. split; discriminate.
Defined.



(* ===================================================================== *)
(** * More on install and flush *)
(* ===================================================================== *)

(** X4. A successful install, for a pixel count that fits its 16 bit type,
    hands out a live strip with the configuration asked for and the timing
    [map_timing] resolves, a buffer of [led_count] times 3 or 4 bytes, all
    zero, and the flush flag clear. *)
Theorem install_hands_out_dark_strip `{EspIdf} (new_handle : option led_strip_handle_t)
    (config : led_strip_config_t) (wd wd' : world) (handle : led_strip_handle_t) :
  0 ≤ cfg_led_count config < 2 ^ 16 →
  led_strip_install new_handle (Some config) wd = Done (ESP_OK, Some handle, wd') →
  handle ≠ NULL
  ∧ ∃ strip,
      heap wd' !! handle = Some strip
      ∧ led_count strip = cfg_led_count config
      ∧ enable_w_channel strip = cfg_enable_w_channel config
      ∧ color_order strip = cfg_color_order config
      ∧ led_timing strip = map_timing (timing_config config)
      ∧ has_flushed strip = false
      ∧ pixel_colors strip
        = replicate (Z.to_nat (cfg_led_count config
                               * CALC_COLOR_SIZE (cfg_enable_w_channel config))) 0.
Proof.
  intros Hcount Hrun.
  destruct (install_strip new_handle config wd handle wd' Hcount Hrun)
    as (Hnn & strip & Hlive & Hn & Hw & Horder & Htiming & Hflag & Hsized & Hzero).
  split; [exact Hnn|]. exists strip. repeat split; try assumption.
  unfold buffer_sized in Hsized. rewrite Hn, Hw in Hsized. rewrite <- Hsized, Nat2Z.id.
  clear Hsized. induction Hzero as [|byte bytes -> _ IH]; [reflexivity|].
  cbn [length replicate]. now rewrite <- IH.
Qed.

Lemma install_hands_out_dark_strip_esp32 :
  ∃ strip,
    heap session_installed !! session_handle = Some strip
    ∧ pixel_colors strip = replicate 15 0
    ∧ led_timing strip = SK6822_at_100ns.
Proof.
  destruct (@install_hands_out_dark_strip esp32_busy (Some NULL) (config_of 18 5)
              boot_world session_installed session_handle)
    as (_ & strip & Hlive & _ & _ & _ & Htiming & _ & Hpixels).
  - cbn. lia.
  - vm_compute. reflexivity.
  - exists strip. split; [exact Hlive|]. split; [exact Hpixels|].
    rewrite Htiming. vm_compute. reflexivity.
Defined.

(** A flush of a strip that has flushed and whose poll is not answered
    with [ESP_OK]. *)
Lemma flush_with_not_ready `{EspIdf} (wait_tx_done : bool) (handle : led_strip_handle_t)
    (wd : world) (strip : led_strip_t) :
  handle ≠ NULL → heap wd !! handle = Some strip → has_flushed strip = true →
  let poll := rmt_wait_tx_done (channel strip) 0 in
  let answer := rmt_driver (rmt_calls wd) poll in
  answer ≠ ESP_OK →
  flush_with wait_tx_done handle wd
  = Done (if answer =? ESP_ERR_TIMEOUT then ESP_ERR_NOT_FINISHED else answer,
          after_call poll wd).
Proof.
  intros Hnn Hlive Hflag poll answer Hanswer. unfold flush_with.
  rewrite (flush_done_polled handle wd strip false Hnn Hlive Hflag). fold poll answer.
  destruct (Z.eqb_spec answer ESP_OK); [contradiction|]. cbn [negb andb].
  destruct (Z.eqb_spec answer ESP_ERR_TIMEOUT); cbn [negb mbind outcome_bind].
  - cbn [Z.eqb ESP_OK negb]. change (bool_decide (Some false = Some true)) with false.
    reflexivity.
  - destruct (Z.eqb_spec answer ESP_OK); [contradiction|]. reflexivity.
Qed.

(** X20. While a transmission is running, or when the poll fails, neither
    [led_strip_flush] nor [led_strip_start_flush] sends anything: the poll
    is their only driver call and the strip is untouched. A timeout of the
    poll is reported as [ESP_ERR_NOT_FINISHED], any other status as
    itself. *)
Theorem flush_refused_when_not_ready `{EspIdf} (handle : led_strip_handle_t) (wd : world)
    (strip : led_strip_t) :
  handle ≠ NULL → heap wd !! handle = Some strip → has_flushed strip = true →
  let poll := rmt_wait_tx_done (channel strip) 0 in
  let answer := rmt_driver (rmt_calls wd) poll in
  answer ≠ ESP_OK →
  let status := if answer =? ESP_ERR_TIMEOUT then ESP_ERR_NOT_FINISHED else answer in
  led_strip_flush handle wd = Done (status, after_call poll wd)
  ∧ led_strip_start_flush handle wd = Done (status, after_call poll wd)
  ∧ heap (after_call poll wd) = heap wd
  ∧ rmt_calls (after_call poll wd) = poll :: rmt_calls wd.
Proof.
  intros Hnn Hlive Hflag poll answer Hanswer status.
  split; [|split; [|split; reflexivity]].
  - unfold led_strip_flush. now apply flush_with_not_ready.
  - unfold led_strip_start_flush. destruct (N.eqb_spec handle NULL); [contradiction|].
    now apply flush_with_not_ready.
Qed.

Lemma flush_refused_when_not_ready_demo :
  @led_strip_flush esp32_busy 1%N flushed_world_5
  = Done (ESP_ERR_NOT_FINISHED, after_call (rmt_wait_tx_done 0 0) flushed_world_5).
Proof.
  destruct (@flush_refused_when_not_ready esp32_busy 1%N flushed_world_5
              (with_has_flushed rgb_strip_5 true)) as [Hflush _].
  - discriminate.
  - reflexivity.
  - reflexivity.
  - discriminate.
  - exact Hflush.
Defined.

Lemma with_pixel_facts (strip : led_strip_t) (index : Z) (color : led_strip_color_t) :
  buffer_sized strip → 0 ≤ index < led_count strip →
  pixel_at (with_pixel strip index color) index = pixel_bytes strip color
  ∧ buffer_sized (with_pixel strip index color).
Proof.
  intros Hsized Hindex.
  pose proof (CALC_COLOR_SIZE_pos (enable_w_channel strip)) as Hsize.
  pose proof (length_pixel_bytes strip color) as Hpx.
  unfold buffer_sized in *.
  unfold pixel_at, with_pixel. cbn [enable_w_channel pixel_colors with_pixel_colors led_count].
  set (size := CALC_COLOR_SIZE (enable_w_channel strip)) in *.
  replace (Z.to_nat (size * index + size)) with (Z.to_nat (size * index) + Z.to_nat size)%nat
    by lia.
  assert (Z.to_nat (size * index) + Z.to_nat size ≤ length (pixel_colors strip))%nat by nia.
  split.
  - apply slice_at_window; lia.
  - rewrite !length_app, length_take, length_drop. lia.
Qed.

(** X21. What is set is what is sent, under the timing of the translator
    context. On a live strip that has not flushed, setting a pixel and
    starting a flush the driver accepts hands the driver, on
    [handle->channel], the buffer with that pixel in it. Draining that
    buffer through the adapter, in turns that reach its end, gives the
    symbols of its bytes in order under the timing of the strip the
    driver hands the adapter as context: the strip's own timing when
    that context is the strip itself, another strip's when it is not. *)
Theorem set_pixel_then_flush `{EspIdf} (handle : led_strip_handle_t) (wd : world)
    (strip : led_strip_t) (index red green blue white : Z) (capacities : list Z)
    (context : led_strip_handle_t) (owner : led_strip_t) :
  handle ≠ NULL → heap wd !! handle = Some strip → buffer_sized strip →
  has_flushed strip = false → 0 ≤ index < led_count strip → led_count strip < 2 ^ 16 →
  context ≠ NULL → heap wd !! context = Some owner →
  let color := {| r := red; g := green; b := blue; w := white |} in
  let painted := with_pixel strip index color in
  let send :=
    rmt_write_sample (channel strip) (pixel_colors painted)
      (Z.of_nat (length (pixel_colors painted))) false in
  rmt_driver (rmt_calls wd) send = ESP_OK →
  Forall (fun wanted_num => 0 ≤ wanted_num < 2 ^ SIZE_WIDTH) capacities →
  Z.of_nat (length (pixel_colors painted)) ≤ room_in_bytes capacities →
  ∃ wd1 wd2,
    led_strip_set_pixel_rgbw handle index red green blue white wd = Done (ESP_OK, wd1)
    ∧ led_strip_start_flush handle wd1 = Done (ESP_OK, wd2)
    ∧ rmt_calls wd2 = send :: rmt_calls wd
    ∧ pixel_at painted index = pixel_bytes strip color
    ∧ translate_in_turns wd2 (ESP_OK, context) (pixel_colors painted) capacities
      = Done (flat_map (symbols_of_byte (led_timing owner)) (pixel_colors painted))
    ∧ (context = handle → led_timing owner = led_timing strip).
Proof.
  intros Hnn Hlive Hsized Hflag Hindex Hcount Hcnn Howner color painted send
    Haccept Hcaps Hroom.
  pose proof (set_pixel_rgbw_in_range wd handle strip index red green blue white
                Hnn Hlive Hsized Hindex) as Hset.
  destruct (with_pixel_facts strip index color Hsized Hindex) as [Hpixel Hsized'].
  fold color painted in Hset, Hpixel, Hsized'.
  set (wd1 := write_strip wd handle painted).
  assert (heap wd1 !! handle = Some painted) as Hlive1 by apply lookup_insert_eq.
  assert (send = send_call painted false) as Hsend.
  { unfold send, send_call, size_t_wrap, SIZE_WIDTH.
    unfold buffer_sized in Hsized'. rewrite Hsized'.
    pose proof (CALC_COLOR_SIZE_pos (enable_w_channel painted)).
    assert (CALC_COLOR_SIZE (enable_w_channel painted) ≤ 4)
      by (destruct (enable_w_channel painted); cbn; lia).
    assert (led_count painted = led_count strip) as Hn by reflexivity.
    rewrite Z.mod_small by nia. reflexivity. }
  pose proof (flush_with_ready false handle wd1 painted Hnn Hlive1
                ltac:(intros Hf; cbn in Hf; congruence)) as Hstart.
  cbn zeta in Hstart. unfold world_at_send in Hstart.
  assert (has_flushed painted = false) as Hflag1 by exact Hflag.
  rewrite Hflag1, <- Hsend in Hstart.
  assert (rmt_calls wd1 = rmt_calls wd) as Hlog1 by reflexivity.
  rewrite Hlog1, Haccept in Hstart. cbn [Z.eqb ESP_OK] in Hstart.
  eexists wd1, _. split; [exact Hset|]. split.
  { unfold led_strip_start_flush. destruct (N.eqb_spec handle NULL); [contradiction|].
    exact Hstart. }
  split; [reflexivity|]. split; [exact Hpixel|]. split.
  - destruct (decide (context = handle)) as [->|Hother].
    + rewrite Hlive in Howner. injection Howner as <-.
      rewrite (translate_in_turns_prefix _ handle (with_has_flushed painted true)
                 capacities Hnn)
        by (assumption || (cbn [heap write_strip with_heap]; apply lookup_insert_eq)).
      rewrite take_ge by lia. reflexivity.
    + assert (heap (write_strip (after_call send wd1) handle (with_has_flushed painted true))
              !! context = Some owner) as Hctx.
      { unfold wd1. cbn. rewrite !lookup_insert_ne by congruence. exact Howner. }
      rewrite (translate_in_turns_prefix _ context owner capacities Hcnn Hctx Hcaps).
      rewrite take_ge by lia. reflexivity.
  - intros ->. rewrite Hlive in Howner. now injection Howner as <-.
Qed.

Lemma set_pixel_then_flush_demo :
  ∃ wd1 wd2,
    led_strip_set_pixel_rgbw second_handle 2 7 8 9 0 two_installed = Done (ESP_OK, wd1)
    ∧ @led_strip_start_flush esp32_two second_handle wd1 = Done (ESP_OK, wd2)
    ∧ rmt_calls wd2
      = rmt_write_sample 0 [0; 0; 0; 0; 0; 0; 7; 9; 8; 0; 0; 0; 0; 0; 0] 15 false
        :: rmt_calls two_installed
    ∧ In (rmt_translator_set_context 0 first_handle) (rmt_calls two_installed)
    ∧ In (rmt_translator_set_context 1 second_handle) (rmt_calls two_installed)
    ∧ translate_in_turns wd2 (ESP_OK, first_handle)
        [0; 0; 0; 0; 0; 0; 7; 9; 8; 0; 0; 0; 0; 0; 0] [64; 64]
      = Done (flat_map (symbols_of_byte WS281x_at_100ns)
                [0; 0; 0; 0; 0; 0; 7; 9; 8; 0; 0; 0; 0; 0; 0]).
Proof.
  destruct (@set_pixel_then_flush esp32_two second_handle two_installed
              (configured_strip (H := esp32_two) (config_of 19 5)
                 (with_pixel_colors zeroed_strip (replicate 15 0)))
              2 7 8 9 0 [64; 64] first_handle
              (configured_strip (H := esp32_two) WS281x_config
                 (with_pixel_colors zeroed_strip (replicate 15 0))))
    as (wd1 & wd2 & Hset & Hstart & Hlog & _ & Hsymbols & _).
  - discriminate.
  - vm_compute. reflexivity.
  - reflexivity.
  - reflexivity.
  - cbn. lia.
  - cbn. lia.
  - discriminate.
  - vm_compute. reflexivity.
  - reflexivity.
  - repeat constructor; cbn; lia.
  - vm_compute. discriminate.
  - exists wd1, wd2. split; [exact Hset|]. split; [exact Hstart|].
    split; [exact Hlog|]. split; [vm_compute; tauto|]. split; [vm_compute; tauto|].
    refine (eq_trans Hsymbols _). vm_compute. reflexivity.
Defined.

Lemma operations_keep_strip_demo :
  ∃ wd' strip',
    @run_anys esp32_busy 1%N
      [op_quiet (op_fill_rgb 10 20 30); op_start_flush;
       op_quiet (op_set_pixel_rgb 9 1 2 3); op_flush; op_quiet op_flush_done]
      rgb_world_5
    = Done wd'
    ∧ heap wd' = <[1%N := strip']> (heap rgb_world_5)
    ∧ buffer_sized strip'
    ∧ rmt_channel_used wd' = rmt_channel_used rgb_world_5.
Proof.
  destruct (@operations_keep_strip esp32_busy 1%N
              [op_quiet (op_fill_rgb 10 20 30); op_start_flush;
               op_quiet (op_set_pixel_rgb 9 1 2 3); op_flush; op_quiet op_flush_done]
              rgb_world_5 rgb_strip_5)
    as (wd' & strip' & calls & Hrun & Hheap & _ & Hsized & _ & Htable & _).
  - discriminate.
  - reflexivity.
  - reflexivity.
  - repeat constructor; cbn; lia.
  - exists wd', strip'. repeat split; assumption.
Defined.

(** X22. The first flush of a freshly installed strip sends its buffer,
    all zero, on channel 0, whichever channel the install found and
    installed the driver on: [handle->channel] is still the 0 of calloc.
    For a strip installed while channel 0 was in use the frame goes to a
    channel other than its own. *)
Theorem first_flush_goes_to_channel_0 `{EspIdf} (new_handle : option led_strip_handle_t)
    (config : led_strip_config_t) (wd wd1 : world) (handle : led_strip_handle_t) :
  0 ≤ cfg_led_count config < 2 ^ 16 →
  led_strip_install new_handle (Some config) wd = Done (ESP_OK, Some handle, wd1) →
  let bytes := cfg_led_count config * CALC_COLOR_SIZE (cfg_enable_w_channel config) in
  let send wait := rmt_write_sample 0 (replicate (Z.to_nat bytes) 0) bytes wait in
  ∃ chan,
    find_empty_channel wd = Done (ESP_OK, chan)
    ∧ In (rmt_driver_install chan 0 0) (rmt_calls wd1)
    ∧ (rmt_channel_used wd !! 0%nat = Some true → chan ≠ 0)
    ∧ (∃ wd2, led_strip_flush handle wd1
              = Done (rmt_driver (rmt_calls wd1) (send true), wd2)
              ∧ rmt_calls wd2 = send true :: rmt_calls wd1)
    ∧ (∃ wd2, led_strip_start_flush handle wd1
              = Done (rmt_driver (rmt_calls wd1) (send false), wd2)
              ∧ rmt_calls wd2 = send false :: rmt_calls wd1).
Proof.
  intros Hcount Hrun bytes send.
  destruct (install_success_world _ _ _ _ _ Hrun)
    as (chan & strip & Hfind & Hchan & Hwasfree & _ & Hlog & Hlive & Hzero).
  destruct (install_strip new_handle config wd handle wd1 Hcount Hrun)
    as (Hnn & strip' & Hlive' & Hn & Hw & _ & _ & Hflag & Hsized & Hdark).
  rewrite Hlive in Hlive'. injection Hlive' as <-.
  assert (0 < CALC_COLOR_SIZE (cfg_enable_w_channel config) ≤ 4) as Hsize
    by (destruct (cfg_enable_w_channel config); cbn; lia).
  assert (pixel_colors strip = replicate (Z.to_nat bytes) 0) as Hpixels.
  { unfold buffer_sized in Hsized. rewrite Hn, Hw in Hsized. fold bytes in Hsized.
    rewrite <- Hsized, Nat2Z.id. clear Hsized.
    induction Hdark as [|byte rest -> _ IH]; [reflexivity|].
    cbn [length replicate]. now rewrite <- IH. }
  assert (∀ wait, send_call strip wait = send wait) as Hsend.
  { intros wait. unfold send_call, send, size_t_wrap, SIZE_WIDTH.
    rewrite Hzero, Hpixels, Hn, Hw. fold bytes.
    rewrite Z.mod_small by (subst bytes; nia). reflexivity. }
  assert (∀ wait, ∃ wd2,
             flush_with wait handle wd1 = Done (rmt_driver (rmt_calls wd1) (send wait), wd2)
             ∧ rmt_calls wd2 = send wait :: rmt_calls wd1) as Hflush.
  { intros wait.
    pose proof (flush_with_ready wait handle wd1 strip Hnn Hlive
                  ltac:(intros Hf; congruence)) as Hready.
    cbn zeta in Hready. unfold world_at_send in Hready.
    rewrite Hflag, Hsend in Hready. rewrite Hready.
    destruct (rmt_driver (rmt_calls wd1) (send wait) =? ESP_OK);
      eexists; (split; [reflexivity|reflexivity]). }
  exists chan. split; [exact Hfind|]. split; [|split; [|split]].
  - rewrite Hlog. apply in_or_app. left. cbn. tauto.
  - intros Htaken ->. change (Z.to_nat 0) with 0%nat in Hwasfree. congruence.
  - unfold led_strip_flush. apply Hflush.
  - unfold led_strip_start_flush. destruct (N.eqb_spec handle NULL); [contradiction|].
    apply Hflush.
Qed.

Lemma first_flush_goes_to_channel_0_demo :
  @find_empty_channel esp32_busy one_taken_world = Done (ESP_OK, 1)
  ∧ ∃ wd2,
      @led_strip_start_flush esp32_busy session_handle second_installed = Done (ESP_OK, wd2)
      ∧ rmt_calls wd2
        = rmt_write_sample 0 (replicate 15 0) 15 false :: rmt_calls second_installed.
Proof.
  destruct (@first_flush_goes_to_channel_0 esp32_busy (Some NULL) (config_of 18 5)
              one_taken_world second_installed session_handle)
    as (chan & Hfind & _ & _ & _ & wd2 & Hstart & Hlog).
  - cbn. lia.
  - vm_compute. reflexivity.
  - split; [vm_compute; reflexivity|]. exists wd2. split; [exact Hstart|exact Hlog].
Defined.
